(* ===== verification/_CoqProject ===== *)
-Q . S2P
Prelude.v
Slug.v
Calendar.v
TimeComposer.v
Timestamp.v
DateLabel.v
Store.v
Page.v
Schema.v
Checker.v
FormInputs.v
Supersession.v
Submitter.v
AddEventView.v
Deleter.v
Home.v
Layout.v
