(* ===== verification/Prelude.v ===== *)
(** * Walrus photo booth: the event-creation and event-deletion engine

    This development models the logic of the add-event page
    (src/app/addEvent/page.tsx) and of the home page (src/app/page.tsx)
    of the Walrus photo booth, a Next.js application that stores events
    and their photos in a Supabase (Postgres) database, and proves what
    the code does, including where it departs from its specification.

    ** The program and how its parts interact

    - The add-event page keeps React state hooks and a react-hook-form
      form.  A [watch] callback reacts to every field change: for the
      title it derives a slug ([generateSlug]), writes it into the slug
      field and schedules [checkEventTitle] 500 ms later, which asks the
      store whether the title exists and then sets [titleExists],
      [isCheckingTitle] and [submitButtonEnabled]; for any other field it
      recomputes [submitButtonEnabled].  [form.handleSubmit] runs the zod
      [EventSchema] through its resolver and calls [onSubmit] with the
      parsed data, which composes the stored
      timestamp from the date and time fields, inserts the event and turns
      a store error into a message.  [fetchCurrentAdmin] looks up the
      signed-in admin.
    - The home page loads the events and the admin, and
      [handleDeleteEvent] deletes an event's photos and then the event.
    - The store is an external collaborator reached through supabase-js.

    ** Files, in dependency order

    - [Prelude] (this file): characters and strings as Latin-1 code
      units, the JavaScript built-ins the code calls ([toLowerCase],
      [trim], [includes], [parseInt], [padStart], number printing),
      evaluation-based character facts ([char_fact]), list and string
      lemmas, the [walrus] hint databases.
    - [Slug], Module [SlugDeriver]: [generateSlug] (lines 211-218).
    - [Calendar], Module [JsDate]: the [Date] accessors [onSubmit] reads,
      by day number; checked against the inverse conversion on every day
      of 1900..2199.
    - [TimeComposer], Module [TimeComposer]: the hour conversion and the
      stored timestamp of [onSubmit] (lines 326-343), the form's defaults
      (lines 177-196).
    - [Timestamp], Module [StampReader]: a reader of the stored timestamp
      format ([parse_stamp], not code of the repository) and the proof
      that it recovers every stored timestamp.
    - [DateLabel], Module [DateButton]: the date button's text, date-fns
      [format(date, 'PPP')] ("March 1st, 2024", a library call modelled
      from its [en-US] locale) or "Pick a date", and a reader of it.
    - [Store], Module [Store]: the store interface [RecordStore] (a
      typeclass of the five calls the pages make) with its laws
      [RecordStoreLaws], and an implementation [ListStore] with unique
      title and slug indexes and the [photos.event_id] foreign key.  The
      component proofs are stated against the laws.
    - [Page], Module [AddEventPage]: the page state [PageState] (form
      values and defaults, error count, hooks, pending timers, queries in
      flight, a clock), one function per React setter, and the gate
      ([isFormComplete], [isFormValid], [disabled]).
    - [Schema], Module [EventSchema]: the zod schema (lines 99-136) as
      a chain of string checks run in order on the value ([run_checks]),
      its enums, and the resolver's error object ([EventSchema_parse]:
      the parsed [FormData], or the first issue of each failing field).
    - [Checker], Module [TitleWatcher]: the watch callback and
      [checkEventTitle] split at its [await]; the page evolves by [step]
      on events (a field change, the resolver's errors, time passing, the
      store answering a query); [reachable] pages from the mounted one.
    - [FormInputs], Module [FormInputs]: the form's controls (lines
      426-632) as the [Change] events they can produce, and the pages
      reachable through them ([ui_reachable]).
    - [Supersession], Module [Supersession]: the runs where the store
      answers title queries in the order they were sent
      ([reachable_fifo]), with the schedule invariant (sorted timers,
      distinct query ids) and the consistency invariant that make the
      last answer the current title's.
    - [Submitter], Module [EventSubmitter]: [handleSubmit] (resolver then
      [onSubmit], line 425), [onSubmit], [report_error],
      [fetchCurrentAdmin].
    - [AddEventView], Module [FormView]: what the add-event page returns
      (lines 386-650): the loading screen until the admin lookup answers,
      the connect prompt, the form with the header link, the error
      banner, the title notice, the event URL preview, the date button
      and the slug field's key filter; composed with [handleSubmit].
    - [Deleter], Module [EventDeleter]: the home page state,
      [fetchEvents], its [fetchCurrentAdmin], and [handleDeleteEvent] as a
      machine whose program counter is the phase of the spec's deletion
      machine ([del_step], one step per [await]).
    - [Home], Module [HomeView]: what the home page returns ([render],
      lines 110-162): the loading screen, the admin links, the error
      banner or one [EventCard] per event; the mount effects interleaved
      ([mount]).
    - [Layout], Module [RootLayout]: the root layout's fonts, metadata and
      body class (src/app/layout.tsx) as data, the element tree
      [RootLayout] returns, and the resolution of the font paths against
      src/app.

    ** What the theorems show (claim ids C1..C39)

    - Title watcher and gate (C1-C6): the check is not debounced (one
      query per keystroke, C1); every answer in flight is applied when it
      arrives, whatever the current title, so a late answer for an
      earlier title overrides the newer one (C2, for every page and
      query; [stale_answer_enables_taken_title] runs one such trace); a
      non-title change recomputes the button from the [titleExists]
      captured on mount (C3); in every reachable page an enabled button
      means a complete, changed form (C4, an invariant by induction on
      [reachable]); the normal check records the answer for the
      normalised title on every reachable page (C5); a failed check
      changes nothing (C6).
    - Submission (C7-C12): the defensive duplicate check (C7); a title
      clash at insert gives exactly the title message (C8) unless the
      title contains [event_slug], which the code reports as a slug clash
      (the Example [title_conflict_reported_as_slug]); every failed
      submission leaves the form on screen with an error and the button
      as it was (C9, composing [handleSubmit] with the page's view);
      success stores the composed row and navigates (C10); a
      transient error gives the retry message (C11); a user with no admin
      row creates events as admin 0 (C12).
    - Time (C13-C18): the stored hour is the 24-hour hour exactly when the
      hour is not 12 (C13); the stored string determines the day, time
      and timezone (C14); the preselected timezone is in the menu only
      for offsets 180..659 minutes behind UTC (C15); the date button's
      label reads back to the picked day (C16; the spec's example of the
      stored string holds but such strings do not sort chronologically,
      [formattedDate_not_chronological]); the default hour round
      trip fails only at 0 and 12 (C17); the default timezone drops the
      minutes of non-whole-hour offsets (C18).
    - Slug (C19, C20): idempotence and the shape [a-z0-9-] without
      double hyphens (the spec's examples and the leading or trailing
      hyphens are checked by [generateSlug_examples]).
    - Controls (C22): on every page reachable through the form's
      controls the time fields pass the schema, by induction on
      [ui_reachable].
    - Home page mount (C21): whichever query answers first, a failed
      admin lookup hides the fetched events behind the banner about
      fetching them.
    - Deletion (C23-C28): photo failure aborts before the event is
      touched (C23), success removes photos then event (C24); the
      handler refines the spec's machine through [abs], which reads the
      spec phase off the code position and the history of calls with
      their outcomes (C25), always returns in a final phase (C26), keeps
      the spec's partial state on a parent failure (C27), and sends the
      event's deletion only from a store without photos of the event
      (C28, an invariant over [del_reach]).
    - Validation (C29-C35): the parsed title and slug are trimmed and
      lower-case (C29); the parsed title is the key the watcher queried
      (C30); every derived slug passes the slug schema (C31); a title of
      spaces passes, since [min] and [regex] run before [trim] (C32); a
      rejected form never reaches the store and shows at least one error
      (C33); an accepted and inserted form stores the watcher's key as
      its title (C34).
    - Listing (C35): the home page lists every event of the store once,
      by the stored string descending, whichever mount query answers
      first; the direction comes from the page's own query argument
      ([events_query]), the store's law being a permutation sorted in
      the requested order, met by an insertion sort in [ListStore].
    - Liveness, supersession, home errors (C36-C39): from every page
      reachable while the
      store answers, 500 ms and the answers to the queries then in flight
      end every check ([settle], C36, by an invariant on [reachable_ok]);
      an error answer instead leaves the button disabled until the title
      is edited (C37); when the store answers in the order the queries
      were sent, settling ends with [titleExists] the answer for the
      current title, however the user typed (C38, the converse of C2,
      by two invariants on [reachable_fifo]); a failed delete replaces
      the home page's list by the banner about fetching, for good (C39).

    ** Bounds and fuel

    - Time is a [nat] of milliseconds; timers all have the code's 500 ms
      delay and fire in the order they were set.
    - [show_nat] uses its argument as fuel: a number has fewer digits than
      its value plus one.
    - [Calendar]'s conversion is checked by evaluation on the 109 573
      days of 1900..2199, the range the date picker offers in practice.
    - [handleDeleteEvent] is three steps: its entry and its two [await]s.
    - The hour arithmetic of [hour_text] is in unbounded integers; the
      theorems use the menu's hours 1..12 only, where JavaScript's
      doubles give the same text.
    - [settle] advances the clock by 500 ms, the delay of every timer, so
      all pending timers fire; the answers then cover every query in
      flight.

    ** Not modelled, and why

    - zod's own error-count bookkeeping while typing (mode [onChange]):
      the watcher's [Errors] event sets the count; [handleSubmit] sets it
      from [EventSchema_parse].  The regex classes are read on Latin-1
      ([\s] as the JavaScript white space of that range).
    - The per-field [<FormMessage />]s: the page state keeps the number
      of failing fields ([errs]), not their texts (the texts are those
      of [EventSchema_parse], C33); the CSS classes other than the date
      button's greying; the [ProfilePopover], the providers and the
      wallet context ([isConnected] and [emailAddress] are inputs); the
      loading of font files; the creation of the supabase clients from
      the environment (lines 47-49 of the add-event page and 24-27 of
      the home page), which only configures the store.
    - The store's own sort is taken as the interface law of
      [list_events] (a permutation sorted in the requested order, by
      code units), not as Postgres' collation; a clash on both unique
      keys is reported on the title (the index Postgres checks first in
      [ListStore]).
    - react-hook-form keeps [isDirty] as a flag that [setValue] does not
      update; the model recomputes it as values differing from defaults.
    - Characters beyond U+00FF: the model's strings are Latin-1.

    ** Status

    Modelled: the schema and [handleSubmit] (C29-C34); liveness of the
    check, the number round trip, the views, the mount interleavings, the
    layout and the timestamp reader (C14, C21, C36-C39); the listing
    order and the form's controls (C22, C35); the query-id bound, which
    makes C5 hold on every reachable page; distinct query ids and the
    supersession theorem for in-order answers (C38); the form's view
    with its banner and date button, composed with [handleSubmit] (C9,
    C16).  What remains of the sources is imports, styling markup and
    the client set-up listed above. *)

From Stdlib Require Import Ascii String List Bool Arith ZArith Lia.
Import ListNotations.

Declare Scope walrus_scope.
Delimit Scope walrus_scope with walrus.

Create HintDb walrus discriminated.
Create Rewrite HintDb walrus_rw.

(** ** Characters

    A JavaScript string is a sequence of UTF-16 code units.  The model
    uses Stdlib's [ascii] (8 bits) and reads each one as the code unit
    U+0000..U+00FF (Latin-1): this is the part of Unicode on which every
    character class the source uses ([\s], [a-z], [0-9], [toLowerCase])
    can be written out exactly. *)

Definition code (c : ascii) : nat := nat_of_ascii c.

Definition in_range (lo hi : nat) (c : ascii) : bool :=
  (lo <=? code c) && (code c <=? hi).

Definition is_upper (c : ascii) : bool := in_range 65 90 c.
Definition is_lower (c : ascii) : bool := in_range 97 122 c.
Definition is_digit (c : ascii) : bool := in_range 48 57 c.

(** Latin-1 capitals U+00C0..U+00DE except U+00D7 (multiplication sign):
    [toLowerCase] maps them 32 code points up, like A-Z. *)
Definition is_latin1_upper (c : ascii) : bool :=
  in_range 192 222 c && negb (code c =? 215).

(** ECMAScript [WhiteSpace] and [LineTerminator] below U+0100: TAB, LF,
    VT, FF, CR, SPACE and NO-BREAK SPACE.  This is the class of the regex
    escape [\s] and the set that [String.prototype.trim] strips. *)
Definition is_js_space (c : ascii) : bool :=
  existsb (Nat.eqb (code c)) [9; 10; 11; 12; 13; 32; 160].

Definition is_hyphen (c : ascii) : bool := Ascii.eqb c "-".

(** [String.prototype.toLowerCase] on one code unit. *)
Definition to_lower_char (c : ascii) : ascii :=
  if is_upper c || is_latin1_upper c then ascii_of_nat (code c + 32) else c.

(** ** Strings *)

Fixpoint smap (f : ascii -> ascii) (s : string) : string :=
  match s with
  | EmptyString => EmptyString
  | String c s' => String (f c) (smap f s')
  end.

Fixpoint sfilter (p : ascii -> bool) (s : string) : string :=
  match s with
  | EmptyString => EmptyString
  | String c s' => if p c then String c (sfilter p s') else sfilter p s'
  end.

Fixpoint sforall (p : ascii -> bool) (s : string) : bool :=
  match s with
  | EmptyString => true
  | String c s' => p c && sforall p s'
  end.

(** [String.prototype.toLowerCase]. *)
Definition to_lower (s : string) : string := smap to_lower_char s.

(** [String.prototype.trim], as its two halves. *)
Fixpoint trim_start (s : string) : string :=
  match s with
  | EmptyString => EmptyString
  | String c s' => if is_js_space c then trim_start s' else s
  end.

Fixpoint trim_end (s : string) : string :=
  match s with
  | EmptyString => EmptyString
  | String c s' =>
      let r := trim_end s' in
      if is_js_space c && String.eqb r EmptyString then EmptyString
      else String c r
  end.

Definition trim (s : string) : string := trim_end (trim_start s).

(** [String.prototype.includes]: some suffix of [hay] starts with [needle]. *)
Fixpoint includes (hay needle : string) : bool :=
  String.prefix needle hay ||
  match hay with
  | EmptyString => false
  | String _ hay' => includes hay' needle
  end.

(** JavaScript truthiness of a string-valued form field: [undefined] and
    [""] are falsy. *)
Definition truthy (v : option string) : bool :=
  match v with
  | Some s => negb (String.eqb s EmptyString)
  | None => false
  end.

(** ** Numbers

    [Number.prototype.toString] on integers, and [parseInt] without a
    radix argument (leading white space, a sign, an optional [0x] prefix,
    then the longest run of digits; no digit at all gives [NaN], written
    [None]). *)

Definition digit_char (d : nat) : ascii := ascii_of_nat (48 + d).

Fixpoint show_nat_aux (fuel n : nat) (acc : string) : string :=
  match fuel with
  | O => acc
  | S f =>
      let acc' := String (digit_char (n mod 10)) acc in
      if n <? 10 then acc' else show_nat_aux f (n / 10) acc'
  end.

Definition show_nat (n : nat) : string := show_nat_aux (S n) n EmptyString.

Definition show_Z (z : Z) : string :=
  if (z <? 0)%Z then String "-" (show_nat (Z.to_nat (- z)))
  else show_nat (Z.to_nat z).

Definition digit_val (radix : Z) (c : ascii) : option Z :=
  let n := Z.of_nat (code c) in
  let d :=
    if is_digit c then Some (n - 48)%Z
    else if is_lower c then Some (n - 87)%Z
    else if is_upper c then Some (n - 55)%Z
    else None in
  match d with
  | Some v => if (v <? radix)%Z then Some v else None
  | None => None
  end.

Fixpoint digits_prefix (radix : Z) (acc : option Z) (s : string) : option Z :=
  match s with
  | EmptyString => acc
  | String c s' =>
      match digit_val radix c with
      | Some d =>
          let v := match acc with Some a => (a * radix + d)%Z | None => d end in
          digits_prefix radix (Some v) s'
      | None => acc
      end
  end.

(** [parseInt]'s optional sign. *)
Definition js_sign (s1 : string) : Z * string :=
  match s1 with
  | String "-" r => ((-1)%Z, r)
  | String "+" r => (1%Z, r)
  | _ => (1%Z, s1)
  end.

(** [parseInt]'s radix when none is given: 16 after [0x] or [0X]. *)
Definition js_radix (s2 : string) : Z * string :=
  match s2 with
  | String "0" (String x r) =>
      if Ascii.eqb x "x" || Ascii.eqb x "X" then (16%Z, r) else (10%Z, s2)
  | _ => (10%Z, s2)
  end.

Definition parse_int (s : string) : option Z :=
  let s1 := trim_start s in
  let '(sign, s2) := js_sign s1 in
  let '(radix, s3) := js_radix s2 in
  option_map (Z.mul sign) (digits_prefix radix None s3).

(** [String.prototype.padStart(2, '0')]. *)
Definition pad_start2 (s : string) : string :=
  match String.length s with
  | O => "00"
  | 1 => String "0" s
  | _ => s
  end.

(** ** Character facts by computation

    Every code unit is one of the 256 values of [all_ascii], so a boolean
    property of single characters is proved once by evaluating it on all
    of them. *)

Definition all_ascii : list ascii := map ascii_of_nat (seq 0 256).

Lemma in_all_ascii (c : ascii) : In c all_ascii.
Proof.
  unfold all_ascii. rewrite <- (ascii_nat_embedding c).
  apply in_map, in_seq. pose proof (nat_ascii_bounded c). lia.
Qed.

Lemma ascii_forall (P : ascii -> bool) :
  forallb P all_ascii = true -> forall c, P c = true.
Proof. intros H c. rewrite forallb_forall in H. apply H, in_all_ascii. Qed.

Lemma ascii_forall_impl (P Q : ascii -> bool) :
  forallb (fun c => implb (P c) (Q c)) all_ascii = true ->
  forall c, P c = true -> Q c = true.
Proof.
  intros H c Hc. pose proof (ascii_forall _ H c) as Hi. simpl in Hi.
  rewrite Hc in Hi. exact Hi.
Qed.

(** [char_fact] proves a goal [forall c, P c = true -> Q c = true] about
    one character by evaluating [implb (P c) (Q c)] on all 256 of them. *)
Ltac char_fact :=
  first [ refine (ascii_forall_impl _ _ _) | refine (ascii_forall _ _) ];
  vm_compute; reflexivity.

(** ** Generic string lemmas *)

Section StringFacts.
Variable p q : ascii -> bool.

Lemma sforall_impl (s : string) :
  (forall c, p c = true -> q c = true) ->
  sforall p s = true -> sforall q s = true.
Proof.
  intros Hpq. induction s as [|c s IH]; simpl; [reflexivity|].
  rewrite !andb_true_iff. intros [Hc Hs]. auto.
Qed.

Lemma sfilter_sforall (s : string) : sforall p (sfilter p s) = true.
Proof.
  induction s as [|c s IH]; simpl; [reflexivity|].
  destruct (p c) eqn:E; simpl; rewrite ?E; auto.
Qed.

Lemma sfilter_id (s : string) : sforall p s = true -> sfilter p s = s.
Proof.
  induction s as [|c s IH]; simpl; [reflexivity|].
  rewrite andb_true_iff. intros [-> Hs]. f_equal. auto.
Qed.

Lemma smap_id (f : ascii -> ascii) (s : string) :
  (forall c, p c = true -> f c = c) ->
  sforall p s = true -> smap f s = s.
Proof.
  intros Hf. induction s as [|c s IH]; simpl; [reflexivity|].
  rewrite andb_true_iff. intros [Hc Hs]. rewrite Hf, IH; auto.
Qed.
End StringFacts.

Lemma trim_start_id (s : string) :
  sforall (fun c => negb (is_js_space c)) s = true -> trim_start s = s.
Proof.
  destruct s as [|c s]; simpl; [reflexivity|].
  rewrite andb_true_iff, negb_true_iff. intros [-> _]. reflexivity.
Qed.

Lemma trim_end_id (s : string) :
  sforall (fun c => negb (is_js_space c)) s = true -> trim_end s = s.
Proof.
  induction s as [|c s IH]; simpl; [reflexivity|].
  rewrite andb_true_iff, negb_true_iff. intros [-> Hs]. simpl.
  rewrite IH; auto.
Qed.

Lemma trim_id (s : string) :
  sforall (fun c => negb (is_js_space c)) s = true -> trim s = s.
Proof. intros H. unfold trim. rewrite trim_start_id, trim_end_id; auto. Qed.

#[export] Hint Resolve sfilter_sforall : walrus.

(** ** Bounded enumeration *)

(** A boolean property of every [k < n] is checked by evaluating it on
    [seq 0 n]. *)
Lemma nat_forall_lt (P : nat -> bool) (n : nat) :
  forallb P (seq 0 n) = true -> forall k, k < n -> P k = true.
Proof.
  rewrite forallb_forall. intros H k Hk. apply H, in_seq. lia.
Qed.

(** ** Appending strings *)

Lemma append_cancel_l (s a b : string) : (s ++ a = s ++ b)%string <-> a = b.
Proof.
  induction s as [|c s IH]; simpl; [tauto|].
  split; [intros H; injection H as H; apply IH, H | intros ->; reflexivity].
Qed.

Lemma append_assoc_str (a b c : string) : ((a ++ b) ++ c = a ++ (b ++ c))%string.
Proof. induction a as [|x a IH]; simpl; [reflexivity | now rewrite IH]. Qed.

#[export] Hint Rewrite append_assoc_str : walrus_rw.

(** ** Membership of strings *)

Lemma existsb_string_in (t : string) (l : list string) :
  existsb (String.eqb t) l = true <-> In t l.
Proof.
  rewrite existsb_exists. split.
  - intros [x [Hx Heq]]. apply String.eqb_eq in Heq. subst. exact Hx.
  - intros Hin. exists t. split; [exact Hin | apply String.eqb_refl].
Qed.

Lemma NoDup_snoc {A : Type} (l : list A) (x : A) :
  NoDup l -> ~ In x l -> NoDup (l ++ [x]).
Proof.
  intros Hl Hx. apply NoDup_app; [exact Hl | repeat constructor; simpl; tauto |].
  intros a Ha [<- | []]. contradiction.
Qed.

Lemma length_filter_split {A : Type} (f : A -> bool) (l : list A) :
  length (filter f l) + length (filter (fun x => negb (f x)) l) = length l.
Proof. induction l as [|x l IH]; simpl; [reflexivity|]. destruct (f x); simpl; lia. Qed.

Lemma Forall_filter {A : Type} (P : A -> Prop) (f : A -> bool) (l : list A) :
  Forall P l -> Forall P (filter f l).
Proof. induction 1; simpl; [constructor|]. destruct (f x); auto. Qed.

Lemma find_app_none {A : Type} (f : A -> bool) (l1 l2 : list A) :
  (forall x, In x l1 -> f x = false) -> find f (l1 ++ l2) = find f l2.
Proof.
  induction l1 as [|x l1 IH]; intros Hl; simpl; [reflexivity|].
  rewrite (Hl x (or_introl eq_refl)). apply IH. intros y Hy. apply Hl. right. exact Hy.
Qed.

(** ** Searching a string that has a separator

    A needle without the character [c] occurs in [a ++ c :: b] exactly
    when it occurs in [a] or in [b]. *)

Lemma prefix_app_sep (c : ascii) (n a b : string) :
  n <> EmptyString -> sforall (fun x => negb (Ascii.eqb x c)) n = true ->
  String.prefix n (a ++ String c b)%string = String.prefix n a.
Proof.
  revert n. induction a as [|x a IH]; intros n Hn Hc.
  - destruct n as [|y n]; [contradiction|]. simpl in *.
    apply andb_true_iff in Hc as [Hy _]. apply negb_true_iff in Hy.
    destruct (Ascii.ascii_dec y c) as [->|Hne]; [rewrite Ascii.eqb_refl in Hy; discriminate|].
    reflexivity.
  - destruct n as [|y n]; [contradiction|]. simpl in *.
    apply andb_true_iff in Hc as [_ Hn'].
    destruct (Ascii.ascii_dec y x); [|reflexivity].
    destruct n as [|z n]; [destruct a; reflexivity|]. apply IH; [discriminate | exact Hn'].
Qed.

Lemma includes_app_sep (c : ascii) (n a b : string) :
  n <> EmptyString -> sforall (fun x => negb (Ascii.eqb x c)) n = true ->
  includes (a ++ String c b)%string n = includes a n || includes b n.
Proof.
  intros Hn Hc. induction a as [|x a IH].
  - simpl. destruct n as [|y n]; [contradiction|]. simpl in Hc.
    apply andb_true_iff in Hc as [Hy _]. apply negb_true_iff in Hy.
    destruct (Ascii.ascii_dec y c) as [->|Hne]; [rewrite Ascii.eqb_refl in Hy; discriminate|].
    reflexivity.
  - change ((String x a ++ String c b)%string) with (String x (a ++ String c b)%string).
    change (includes (String x (a ++ String c b)%string) n) with
      (String.prefix n (String x (a ++ String c b)%string) || includes (a ++ String c b)%string n).
    change (includes (String x a) n) with (String.prefix n (String x a) || includes a n).
    rewrite IH, <- orb_assoc. f_equal.
    change (String x (a ++ String c b)%string) with (String x a ++ String c b)%string.
    apply prefix_app_sep; assumption.
Qed.

Lemma prefix_app_self (n r : string) : String.prefix n (n ++ r)%string = true.
Proof.
  induction n as [|x n IH]; simpl; [destruct r; reflexivity|].
  destruct (Ascii.ascii_dec x x) as [_|Hne]; [exact IH | contradiction].
Qed.

Lemma includes_app_r (a b n : string) : includes b n = true -> includes (a ++ b)%string n = true.
Proof.
  induction a as [|x a IH]; intros Hb; [exact Hb|].
  change ((String x a ++ b)%string) with (String x (a ++ b)%string).
  change (includes (String x (a ++ b)%string) n) with
    (String.prefix n (String x (a ++ b)%string) || includes (a ++ b)%string n).
  rewrite IH by exact Hb. apply orb_true_r.
Qed.

Lemma includes_self_app (n r : string) : includes (n ++ r)%string n = true.
Proof.
  destruct n as [|x n]; [destruct r; reflexivity|].
  change (includes (String x n ++ r)%string (String x n)) with
    (String.prefix (String x n) (String x n ++ r)%string || includes (n ++ r)%string (String x n)).
  rewrite prefix_app_self. reflexivity.
Qed.

(** ** [trim] and character maps

    A map that keeps white space white and other characters non-white
    commutes with [trim]. *)

Section TrimMap.
Variable f : ascii -> ascii.
Hypothesis f_space : forall c, is_js_space (f c) = is_js_space c.

Lemma smap_empty (s : string) : String.eqb (smap f s) EmptyString = String.eqb s EmptyString.
Proof. destruct s; reflexivity. Qed.

Lemma trim_start_smap (s : string) : trim_start (smap f s) = smap f (trim_start s).
Proof.
  induction s as [|c s IH]; [reflexivity|]. cbn [smap trim_start].
  rewrite f_space. destruct (is_js_space c); [exact IH | reflexivity].
Qed.

Lemma trim_end_smap (s : string) : trim_end (smap f s) = smap f (trim_end s).
Proof.
  induction s as [|c s IH]; [reflexivity|]. cbn [smap trim_end].
  rewrite IH, f_space, smap_empty.
  destruct (is_js_space c && String.eqb (trim_end s) EmptyString); reflexivity.
Qed.

Lemma trim_smap (s : string) : trim (smap f s) = smap f (trim s).
Proof. unfold trim. rewrite trim_start_smap, trim_end_smap. reflexivity. Qed.
End TrimMap.

Lemma to_lower_char_space (c : ascii) : is_js_space (to_lower_char c) = is_js_space c.
Proof.
  apply Bool.eqb_prop. revert c.
  refine (ascii_forall (fun c => Bool.eqb (is_js_space (to_lower_char c)) (is_js_space c)) _).
  vm_compute. reflexivity.
Qed.

(** [s.toLowerCase().trim()] is [s.trim().toLowerCase()]. *)
Lemma trim_to_lower (s : string) : trim (to_lower s) = to_lower (trim s).
Proof. apply trim_smap, to_lower_char_space. Qed.

(** ** [trim] is idempotent *)

Lemma trim_start_idem (s : string) : trim_start (trim_start s) = trim_start s.
Proof.
  induction s as [|c s IH]; [reflexivity|]. cbn [trim_start].
  destruct (is_js_space c) eqn:E; [exact IH | cbn [trim_start]; rewrite E; reflexivity].
Qed.

Lemma trim_end_idem (s : string) : trim_end (trim_end s) = trim_end s.
Proof.
  induction s as [|c s IH]; [reflexivity|]. cbn [trim_end].
  destruct (is_js_space c && String.eqb (trim_end s) EmptyString) eqn:E; [reflexivity|].
  cbn [trim_end]. rewrite IH, E. reflexivity.
Qed.

Lemma trim_start_end (s : string) : trim_start (trim_end s) = trim_end (trim_start s).
Proof.
  induction s as [|c s IH]; [reflexivity|]. cbn [trim_end trim_start].
  destruct (is_js_space c) eqn:Ec; cbn [andb].
  - destruct (String.eqb_spec (trim_end s) EmptyString) as [E|E].
    + cbn [trim_start]. rewrite E in IH. cbn [trim_start] in IH. exact IH.
    + cbn [trim_start]. rewrite Ec. exact IH.
  - cbn [trim_start trim_end]. rewrite Ec. reflexivity.
Qed.

Lemma trim_idem (s : string) : trim (trim s) = trim s.
Proof.
  unfold trim. rewrite trim_start_end, trim_start_idem, trim_end_idem.
  reflexivity.
Qed.

Lemma to_lower_idem (s : string) : to_lower (to_lower s) = to_lower s.
Proof.
  unfold to_lower. induction s as [|c s IH]; [reflexivity|]. cbn [smap]. rewrite IH. f_equal.
  apply Ascii.eqb_eq. revert c.
  refine (ascii_forall (fun c => Ascii.eqb (to_lower_char (to_lower_char c)) (to_lower_char c)) _).
  vm_compute. reflexivity.
Qed.


(** ** Printing and parsing numbers *)

(** A decimal digit, as [parseInt] reads it. *)
Definition is_dec (c : ascii) : bool :=
  match digit_val 10 c with Some _ => true | None => false end.

Lemma sforall_app (p : ascii -> bool) (s t : string) :
  sforall p (s ++ t) = sforall p s && sforall p t.
Proof. induction s as [|c s IH]; cbn; [reflexivity|]. rewrite IH. apply andb_assoc. Qed.

Lemma show_nat_aux_app (f n : nat) (acc : string) :
  show_nat_aux f n acc = (show_nat_aux f n EmptyString ++ acc)%string.
Proof.
  revert n acc. induction f as [|f IH]; intros n acc; [reflexivity|]. cbn [show_nat_aux].
  destruct (n <? 10); [reflexivity|].
  rewrite (IH _ (String _ acc)), (IH _ (String _ EmptyString)), append_assoc_str.
  reflexivity.
Qed.

Lemma digit_char_spec (d : nat) :
  d < 10 -> is_dec (digit_char d) = true /\ digit_val 10 (digit_char d) = Some (Z.of_nat d).
Proof.
  intros Hd.
  pose proof (nat_forall_lt (fun d => is_dec (digit_char d) &&
      match digit_val 10 (digit_char d) with Some v => Z.eqb v (Z.of_nat d) | None => false end)
      10 eq_refl d Hd) as H. cbv beta in H.
  apply andb_prop in H as [H1 H2]. split; [exact H1|].
  destruct (digit_val 10 (digit_char d)); [apply Z.eqb_eq in H2; subst; reflexivity | discriminate].
Qed.

Lemma digits_prefix_app (acc : option Z) (s t : string) :
  sforall is_dec s = true ->
  digits_prefix 10 acc (s ++ t) = digits_prefix 10 (digits_prefix 10 acc s) t.
Proof.
  revert acc. induction s as [|c s IH]; intros acc Hs; [reflexivity|].
  cbn [sforall] in Hs. apply andb_prop in Hs as [Hc Hs]. unfold is_dec in Hc.
  cbn [append digits_prefix]. destruct (digit_val 10 c); [exact (IH _ Hs) | discriminate].
Qed.

(** [show_nat_aux] with enough fuel prints the decimal digits of [n]. *)
Lemma show_nat_aux_digits (f n : nat) :
  n < f ->
  sforall is_dec (show_nat_aux f n EmptyString) = true /\
  show_nat_aux f n EmptyString <> EmptyString /\
  digits_prefix 10 None (show_nat_aux f n EmptyString) = Some (Z.of_nat n).
Proof.
  revert n. induction f as [|f IH]; intros n Hn; [lia|]. cbn [show_nat_aux].
  destruct (digit_char_spec (n mod 10)) as [Hd Hv]; [apply Nat.mod_upper_bound; lia|].
  destruct (Nat.ltb_spec n 10) as [Hlt|Hge].
  - rewrite Nat.mod_small in Hd, Hv |- * by exact Hlt.
    cbn [sforall digits_prefix]. rewrite Hd, Hv. split; [reflexivity | split; [discriminate | reflexivity]].
  - rewrite show_nat_aux_app.
    assert (Hq : n / 10 < f) by (pose proof (Nat.div_lt n 10); lia).
    destruct (IH (n / 10) Hq) as (Hs & Hne & Hp).
    split; [rewrite sforall_app, Hs; cbn [sforall]; rewrite Hd; reflexivity|].
    split; [destruct (show_nat_aux f (n / 10) EmptyString); [contradiction | discriminate]|].
    rewrite digits_prefix_app by exact Hs. rewrite Hp. cbn [digits_prefix]. rewrite Hv.
    f_equal. pose proof (Nat.div_mod_eq n 10). lia.
Qed.

Lemma show_nat_digits (n : nat) :
  sforall is_dec (show_nat n) = true /\ show_nat n <> EmptyString /\
  digits_prefix 10 None (show_nat n) = Some (Z.of_nat n).
Proof. apply show_nat_aux_digits. lia. Qed.

Lemma is_dec_not_space (c : ascii) : is_dec c = true -> is_js_space c = false.
Proof. intros H. apply negb_true_iff. revert c H. char_fact. Qed.

Lemma is_dec_not_x (c : ascii) : is_dec c = true -> (Ascii.eqb c "x" || Ascii.eqb c "X") = false.
Proof. intros H. apply negb_true_iff. revert c H. char_fact. Qed.

Lemma js_sign_dec (c : ascii) (r : string) :
  is_dec c = true -> js_sign (String c r) = (1%Z, String c r).
Proof.
  intros Hc. destruct c as [[] [] [] [] [] [] [] []]; vm_compute in Hc;
    try discriminate; reflexivity.
Qed.

Lemma js_radix_dec (s : string) : sforall is_dec s = true -> js_radix s = (10%Z, s).
Proof.
  intros Hs. destruct s as [|c [|x r]]; [reflexivity| |].
  - destruct c as [[] [] [] [] [] [] [] []]; reflexivity.
  - cbn [sforall] in Hs. apply andb_prop in Hs as [_ Hs]. apply andb_prop in Hs as [Hx _].
    pose proof (is_dec_not_x x Hx) as Hx'. unfold js_radix.
    destruct c as [[] [] [] [] [] [] [] []]; try reflexivity. rewrite Hx'. reflexivity.
Qed.

Lemma parse_int_dec (s : string) :
  sforall is_dec s = true -> s <> EmptyString -> parse_int s = digits_prefix 10 None s.
Proof.
  intros Hs Hne. destruct s as [|c r]; [contradiction|].
  pose proof Hs as Hs'. cbn [sforall] in Hs'. apply andb_prop in Hs' as [Hc _].
  unfold parse_int. cbn [trim_start]. rewrite (is_dec_not_space c Hc).
  rewrite (js_sign_dec c r Hc), (js_radix_dec _ Hs).
  destruct (digits_prefix 10 None (String c r)); cbn [option_map]; [rewrite Z.mul_1_l|]; reflexivity.
Qed.

(** [parseInt] reads back every integer [show_Z] prints. *)
Lemma parse_int_show_Z (z : Z) : parse_int (show_Z z) = Some z.
Proof.
  unfold show_Z. destruct (Z.ltb_spec z 0) as [Hz|Hz].
  - destruct (show_nat_digits (Z.to_nat (- z))) as (Hs & Hne & Hp).
    assert (E : trim_start (String "-" (show_nat (Z.to_nat (- z))))
                = String "-" (show_nat (Z.to_nat (- z)))) by reflexivity.
    unfold parse_int. rewrite E. change (js_sign (String "-" ?x)) with ((-1)%Z, x).
    cbv beta iota. rewrite (js_radix_dec _ Hs). cbv beta iota. rewrite Hp.
    cbn [option_map]. f_equal. lia.
  - destruct (show_nat_digits (Z.to_nat z)) as (Hs & Hne & Hp).
    rewrite (parse_int_dec _ Hs Hne), Hp. f_equal. lia.
Qed.

(** [show_nat_aux] does not depend on its fuel once the fuel exceeds the
    number. *)
Lemma show_nat_aux_fuel (f g n : nat) (acc : string) :
  n < f -> n < g -> show_nat_aux f n acc = show_nat_aux g n acc.
Proof.
  revert g n acc. induction f as [|f IH]; intros [|g] n acc Hf Hg; try lia.
  cbn [show_nat_aux]. destruct (Nat.ltb_spec n 10); [reflexivity|].
  apply IH; pose proof (Nat.div_lt n 10); lia.
Qed.

(** The last digit of a number of two digits or more. *)
Lemma show_nat_step (n : nat) :
  10 <= n -> show_nat n = (show_nat (n / 10) ++ String (digit_char (n mod 10)) EmptyString)%string.
Proof.
  intros Hn. unfold show_nat at 1. cbn [show_nat_aux].
  destruct (Nat.ltb_spec n 10); [lia|].
  rewrite show_nat_aux_app. unfold show_nat. f_equal.
  apply show_nat_aux_fuel; pose proof (Nat.div_lt n 10); lia.
Qed.

Lemma length_append_str (a b : string) : String.length (a ++ b) = String.length a + String.length b.
Proof. induction a as [|c a IH]; cbn; [reflexivity | now rewrite IH]. Qed.

(** A number from 100 on prints with three digits or more. *)
Lemma show_nat_length_ge3 (n : nat) : 100 <= n -> 3 <= String.length (show_nat n).
Proof.
  intros Hn. rewrite show_nat_step by lia. rewrite length_append_str.
  rewrite show_nat_step by (apply Nat.div_le_lower_bound; lia). rewrite length_append_str.
  destruct (show_nat_digits (n / 10 / 10)) as (_ & Hne & _).
  destruct (show_nat (n / 10 / 10)); [contradiction|]. cbn. lia.
Qed.
