(* ===== verification/Slug.v ===== *)
(** * SlugDeriver: [generateSlug] of src/app/addEvent/page.tsx

    The title watcher derives the URL slug from the typed title with a
    chain of five string operations.  This file models the chain on
    Latin-1 strings (see [Prelude]) and proves that the slug it derives is
    made of [a-z0-9-] only, never holds two hyphens in a row, and is a
    fixed point of the derivation (applying it twice is applying it
    once).  It also shows that a slug can end with a hyphen: [trim] runs
    before the punctuation is removed. *)

From Stdlib Require Import Ascii String List Bool Arith Lia.
From S2P Require Import Prelude.
Import ListNotations.
Local Open Scope string_scope.

Module SlugDeriver.

(** The character class [[a-z0-9\s-]] kept by [.replace(/[^a-z0-9\s-]/g, '')]. *)
Definition slug_keep (c : ascii) : bool :=
  is_lower c || is_digit c || is_js_space c || is_hyphen c.

(** [s.replace(/P+/g, r)] for a one-character class [P] and a one-character
    replacement [r]: every maximal run of characters of [P] becomes [r].
    [in_run] says that the previous character was in [P] and has already
    been replaced. *)
Fixpoint replace_runs (p : ascii -> bool) (r : ascii) (in_run : bool)
    (s : string) : string :=
  match s with
  | EmptyString => EmptyString
  | String c s' =>
      if p c then
        if in_run then replace_runs p r true s'
        else String r (replace_runs p r true s')
      else String c (replace_runs p r false s')
  end.

(** [generateSlug] (lines 211-218):
    [title.toLowerCase().trim().replace(/[^a-z0-9\s-]/g, '')
          .replace(/\s+/g, '-').replace(/-+/g, '-')]. *)
Definition generateSlug (title : string) : string :=
  replace_runs is_hyphen "-" false
    (replace_runs is_js_space "-" false
       (sfilter slug_keep (trim (to_lower title)))).

(** The characters a derived slug is made of: [[a-z0-9-]]. *)
Definition slug_char (c : ascii) : bool := is_lower c || is_digit c || is_hyphen c.

(** [no_double p prev s]: no two adjacent characters of [prev :: s] are in
    [p] ([prev] tells whether the character before [s] was). *)
Fixpoint no_double (p : ascii -> bool) (prev : bool) (s : string) : bool :=
  match s with
  | EmptyString => true
  | String c s' => negb (prev && p c) && no_double p (p c) s'
  end.

(** ** Lemmas on [replace_runs] *)

Section ReplaceRuns.
Variable p : ascii -> bool.
Variable r : ascii.

Lemma replace_runs_sforall (q : ascii -> bool) (b : bool) (s : string) :
  q r = true ->
  sforall (fun c => p c || q c) s = true ->
  sforall q (replace_runs p r b s) = true.
Proof.
  intros Hr. revert b. induction s as [|c s IH]; intros b; simpl; [reflexivity|].
  rewrite andb_true_iff. intros [Hc Hs].
  destruct (p c) eqn:Ep; [destruct b|]; simpl in *; rewrite ?Hr, ?Hc, ?IH; auto.
Qed.

Lemma replace_runs_no_double (b : bool) (s : string) :
  p r = true -> no_double p b (replace_runs p r b s) = true.
Proof.
  intros Hr. revert b. induction s as [|c s IH]; intros b; simpl; [reflexivity|].
  destruct (p c) eqn:Ep; [destruct b|]; simpl; rewrite ?Hr, ?Ep, ?IH;
    auto; destruct b; reflexivity.
Qed.

(** A string with no character of [p] is left as it is. *)
Lemma replace_runs_none (b : bool) (s : string) :
  sforall (fun c => negb (p c)) s = true -> replace_runs p r b s = s.
Proof.
  revert b. induction s as [|c s IH]; intros b; simpl; [reflexivity|].
  rewrite andb_true_iff, negb_true_iff. intros [-> Hs]. rewrite IH; auto.
Qed.

(** When [r] is the only character of [p], a string without two
    adjacent [r]s is left as it is. *)
Lemma replace_runs_no_double_id (b : bool) (s : string) :
  (forall c, p c = true -> c = r) ->
  no_double p b s = true -> replace_runs p r b s = s.
Proof.
  intros Hp. revert b. induction s as [|c s IH]; intros b; simpl; [reflexivity|].
  rewrite andb_true_iff. intros [Hb Hs].
  destruct (p c) eqn:Ep.
  - destruct b; [discriminate|]. rewrite (Hp c Ep), IH; auto.
  - rewrite IH; auto.
Qed.
End ReplaceRuns.

(** ** Character facts *)

Lemma slug_char_lower (c : ascii) : slug_char c = true -> Ascii.eqb (to_lower_char c) c = true.
Proof. revert c. char_fact. Qed.

Lemma slug_char_not_space (c : ascii) : slug_char c = true -> negb (is_js_space c) = true.
Proof. revert c. char_fact. Qed.

Lemma slug_char_keep (c : ascii) : slug_char c = true -> slug_keep c = true.
Proof. revert c. char_fact. Qed.

Lemma slug_keep_split (c : ascii) : slug_keep c = true -> is_js_space c || slug_char c = true.
Proof. revert c. char_fact. Qed.

Lemma hyphen_char (c : ascii) : is_hyphen c = true -> c = "-"%char.
Proof. unfold is_hyphen. apply Ascii.eqb_eq. Qed.

(** ** The shape of a derived slug *)

(** A derived slug is made of [[a-z0-9-]] only. *)
Lemma generateSlug_chars_aux (t : string) : sforall slug_char (generateSlug t) = true.
Proof.
  unfold generateSlug.
  apply replace_runs_sforall; [reflexivity|].
  apply (sforall_impl slug_char); [intros c Hc; rewrite Hc, orb_true_r; reflexivity|].
  apply replace_runs_sforall; [reflexivity|].
  apply (sforall_impl slug_keep); [apply slug_keep_split|].
  apply sfilter_sforall.
Qed.

Lemma generateSlug_no_double_aux (t : string) :
  no_double is_hyphen false (generateSlug t) = true.
Proof. apply replace_runs_no_double. reflexivity. Qed.

(** A string of [[a-z0-9-]] without two adjacent hyphens is its own slug. *)
Lemma generateSlug_fixed (s : string) :
  sforall slug_char s = true -> no_double is_hyphen false s = true ->
  generateSlug s = s.
Proof.
  intros Hc Hd. unfold generateSlug, to_lower.
  rewrite (smap_id slug_char);
    [| intros c Hc'; apply Ascii.eqb_eq, slug_char_lower; exact Hc' | exact Hc].
  rewrite trim_id by (eapply sforall_impl; [apply slug_char_not_space | exact Hc]).
  rewrite sfilter_id by (eapply sforall_impl; [apply slug_char_keep | exact Hc]).
  rewrite (replace_runs_none is_js_space) by (eapply sforall_impl; [apply slug_char_not_space | exact Hc]).
  apply replace_runs_no_double_id; [apply hyphen_char | exact Hd].
Qed.

(** ** Properties of [generateSlug] *)

(** C19. Slug derivation is idempotent: deriving the slug of a derived slug
    gives it back unchanged, for every title. *)
Theorem generateSlug_idempotent (t : string) :
  generateSlug (generateSlug t) = generateSlug t.
Proof.
  apply generateSlug_fixed;
    [apply generateSlug_chars_aux | apply generateSlug_no_double_aux].
Qed.

(** C20. A derived slug is made only of lower-case letters, digits and
    hyphens (so it matches the slug field's [/^[a-zA-Z0-9\-]+$/] whenever
    it is not empty) and never contains two hyphens in a row. *)
Theorem generateSlug_shape (t : string) :
  sforall slug_char (generateSlug t) = true /\
  no_double is_hyphen false (generateSlug t) = true.
Proof. split; [apply generateSlug_chars_aux | apply generateSlug_no_double_aux]. Qed.

(** The spec's examples hold: "Happy Birthday!" gives
    "happy-birthday" and "  Multi   Space  " gives "multi-space".  But
    [trim] runs before punctuation is removed, so a title whose last word
    is punctuation gives a slug that ends with a hyphen ("Party !" gives
    "party-"), and one whose first word is punctuation a slug that starts
    with one: the slug is not trimmed of separators. *)
Example generateSlug_examples :
  generateSlug "Happy Birthday!" = "happy-birthday" /\
  generateSlug "  Multi   Space  " = "multi-space" /\
  generateSlug "Party !" = "party-" /\ generateSlug "! Party" = "-party".
Proof. repeat split; reflexivity. Qed.

End SlugDeriver.
