(* ===== verification/Calendar.v ===== *)
(** * The JavaScript [Date] accessors that [onSubmit] reads

    [onSubmit] (src/app/addEvent/page.tsx, lines 336-341) copies the date
    picked in the calendar ([new Date(formData.eventDate)]) and reads four
    of its local-time fields: the short weekday and month names of the
    [en-US] locale, [getDate()] and [getFullYear()].  The picker returns
    local midnight of the chosen day, so a date is modelled by its day
    number: days since 1970-01-01 in local time (ECMA-262's [Day(t)]).
    The civil fields are computed with the closed-form day-number to
    proleptic-Gregorian conversion, which is what ECMA-262's
    [YearFromTime], [MonthFromTime], [DateFromTime] and [WeekDay] define.
    This is the runtime's behaviour, not code of the repository. *)

From Stdlib Require Import Bool String List ZArith Lia.
From S2P Require Import Prelude.
Import ListNotations.
Local Open Scope Z_scope.
Local Open Scope bool_scope.

Module JsDate.

Record civil : Type := Civil { cyear : Z; cmonth : Z; cday : Z }.

(** Day number of a proleptic-Gregorian date ([month] 1..12). *)
Definition days_from_civil (y m d : Z) : Z :=
  let y' := if m <=? 2 then y - 1 else y in
  let era := y' / 400 in
  let yoe := y' - era * 400 in
  let mp := if m >? 2 then m - 3 else m + 9 in
  let doy := (153 * mp + 2) / 5 + d - 1 in
  let doe := yoe * 365 + yoe / 4 - yoe / 100 + doy in
  era * 146097 + doe - 719468.

(** The date of a day number: [YearFromTime], [MonthFromTime] (as 1..12)
    and [DateFromTime]. *)
Definition civil_from_days (z : Z) : civil :=
  let z' := z + 719468 in
  let era := z' / 146097 in
  let doe := z' - era * 146097 in
  let yoe := (doe - doe / 1460 + doe / 36524 - doe / 146096) / 365 in
  let doy := doe - (365 * yoe + yoe / 4 - yoe / 100) in
  let mp := (5 * doy + 2) / 153 in
  let d := doy - (153 * mp + 2) / 5 + 1 in
  let m := if mp <? 10 then mp + 3 else mp - 9 in
  Civil (yoe + era * 400 + (if m <=? 2 then 1 else 0)) m d.

(** [WeekDay(t)]: 0 is Sunday; day 0 (1970-01-01) was a Thursday. *)
Definition week_day (z : Z) : Z := (z + 4) mod 7.

Definition weekday_names : list string :=
  ["Sun"; "Mon"; "Tue"; "Wed"; "Thu"; "Fri"; "Sat"]%string.

Definition month_names : list string :=
  ["Jan"; "Feb"; "Mar"; "Apr"; "May"; "Jun";
   "Jul"; "Aug"; "Sep"; "Oct"; "Nov"; "Dec"]%string.

(** [date.toLocaleString('en-US', { weekday: 'short' })]. *)
Definition weekday_short (z : Z) : string :=
  nth (Z.to_nat (week_day z)) weekday_names EmptyString.

(** [date.toLocaleString('en-US', { month: 'short' })]. *)
Definition month_short (z : Z) : string :=
  nth (Z.to_nat (cmonth (civil_from_days z) - 1)) month_names EmptyString.

(** [date.getDate()] and [date.getFullYear()]. *)
Definition getDate (z : Z) : Z := cday (civil_from_days z).
Definition getFullYear (z : Z) : Z := cyear (civil_from_days z).

(** The proleptic-Gregorian calendar between two years, as day numbers. *)
Definition valid_civil (y m d : Z) : bool :=
  let leap := (Z.eqb (y mod 4) 0 && negb (Z.eqb (y mod 100) 0)) || Z.eqb (y mod 400) 0 in
  let dim := if m =? 2 then (if leap then 29 else 28)
             else if existsb (Z.eqb m) [4; 6; 9; 11] then 30 else 31 in
  (1 <=? m) && (m <=? 12) && (1 <=? d) && (d <=? dim).

(** Checking [days_from_civil] against [civil_from_days] on the [fuel]
    consecutive days from [z], by evaluation. *)
Definition day_roundtrips (z : Z) : bool :=
  let c := civil_from_days z in
  Z.eqb (days_from_civil (cyear c) (cmonth c) (cday c)) z &&
  valid_civil (cyear c) (cmonth c) (cday c).

Fixpoint roundtrip_from (fuel : nat) (z : Z) : bool :=
  match fuel with
  | O => true
  | S f => day_roundtrips z && roundtrip_from f (z + 1)
  end.

Lemma roundtrip_from_spec (fuel : nat) (z w : Z) :
  roundtrip_from fuel z = true -> z <= w < z + Z.of_nat fuel ->
  day_roundtrips w = true.
Proof.
  revert z. induction fuel as [|f IH]; intros z H Hw; simpl in *; [lia|].
  apply andb_true_iff in H as [Hz Hf].
  destruct (Z.eq_dec w z) as [->|Hne]; [exact Hz|].
  apply (IH (z + 1)); [exact Hf | lia].
Qed.

(** Day numbers of 1900-01-01 and of 2200-01-01. *)
Definition day_1900 : Z := -25567.
Definition day_2200 : Z := 84006.

Lemma days_in_range_ok :
  roundtrip_from (Z.to_nat (day_2200 - day_1900)) day_1900 = true.
Proof. vm_compute. reflexivity. Qed.

(** Every day of the years 1900..2199 is a valid calendar date from which
    [days_from_civil] gives the day back. *)
Lemma civil_from_days_roundtrip (z : Z) :
  day_1900 <= z < day_2200 ->
  days_from_civil (cyear (civil_from_days z)) (cmonth (civil_from_days z))
    (cday (civil_from_days z)) = z /\
  valid_civil (cyear (civil_from_days z)) (cmonth (civil_from_days z))
    (cday (civil_from_days z)) = true.
Proof.
  intros Hz.
  assert (H : day_roundtrips z = true).
  { apply (roundtrip_from_spec _ day_1900 z days_in_range_ok).
    rewrite Z2Nat.id; unfold day_1900, day_2200 in *; lia. }
  unfold day_roundtrips in H. apply andb_true_iff in H as [H1 H2].
  split; [apply Z.eqb_eq, H1 | exact H2].
Qed.

End JsDate.
