(* ===== verification/TimeComposer.v ===== *)
(** * TimeComposer: the stored event timestamp and the time-field defaults

    [onSubmit] (src/app/addEvent/page.tsx, lines 326-343) turns the
    form's hour, minute, AM/PM, date and timezone fields into the string
    stored in [events.event_date]:
    ["<Ddd> <Mon> <D> <YYYY> <hr>:<mm>:00 <tz>"].  The form's initial
    values (lines 177-196) are computed from the current local time; the
    hour, minute and timezone menus are fixed lists (lines 51-87).

    This file models all three, and proves:
    - the hour written for PM is [parseInt(hour) + 12], which is the
      24-hour clock hour for 1..11 PM but "24" for 12 PM, and the AM hour is
      written as typed, which is "12" for midnight: read as a 24-hour
      clock the stored hour is right exactly when the hour is not 12;
    - the spec's end-to-end example;
    - the stored strings do not sort chronologically;
    - the default hour and AM/PM, composed back, give the current hour
      except at midnight and noon;
    - the default timezone drops the minutes of a non-whole-hour offset,
      and is one of the menu's nine offsets only 3 to 10 hours west of
      UTC;
    - the PM hour text reads back with [parseInt]. *)

From Stdlib Require Import Ascii String List Bool Arith ZArith Lia.
From S2P Require Import Prelude Calendar.
Import ListNotations.
Local Open Scope string_scope.

Module TimeComposer.
Import JsDate.

(** The timezone options of the form (lines 51-68). *)
Record tz_option : Type := TzOption { tz_value : string; tz_name : string }.

Definition timezones : list tz_option :=
  [TzOption "-10:00" "(GMT -10:00) Hawaii";
   TzOption "-09:00" "(GMT -9:00) Alaska";
   TzOption "-08:00" "(GMT -8:00) Pacific Time (US & Canada)";
   TzOption "-07:00" "(GMT -7:00) Mountain Time (US & Canada)";
   TzOption "-06:00" "(GMT -6:00) Central Time (US & Canada), Mexico City";
   TzOption "-05:00" "(GMT -5:00) Eastern Time (US & Canada), Bogota, Lima";
   TzOption "-04:00" "(GMT -4:00) Atlantic Time (Canada), Caracas, La Paz";
   TzOption "-03:30" "(GMT -3:30) Newfoundland";
   TzOption "-03:00" "(GMT -3:00) Brazil, Buenos Aires, Georgetown"].

(** The hour and minute options of the form (lines 71-87). *)
Definition hours : list string :=
  ["1"; "2"; "3"; "4"; "5"; "6"; "7"; "8"; "9"; "10"; "11"; "12"].

Definition mins : list string := map (fun i => pad_start2 (show_nat i)) (seq 0 60).

(** The [hr] of lines 326-332: for "PM", [parseInt(hour) + 12] printed
    as a number ([NaN] when the hour has no leading digits); otherwise the
    hour string itself.  The sum is an unbounded integer, where
    JavaScript has a double printed in exponent form from 1e21 on: the
    two agree on the menu's hours 1..12, the only values the form's
    [Select] produces (FormInputs.v, C22), and the theorems are stated
    on those. *)
Definition hour_text (eventTimeHour eventTimeAMPM : string) : string :=
  if String.eqb eventTimeAMPM "PM" then
    match parse_int eventTimeHour with
    | Some h => show_Z (h + 12)
    | None => "NaN"
    end
  else eventTimeHour.

(** [formattedTime] (line 334). *)
Definition formattedTime (eventTimeHour eventTimeMin eventTimeAMPM : string) : string :=
  hour_text eventTimeHour eventTimeAMPM ++ ":" ++ eventTimeMin ++ ":00".

(** [formattedDate] (lines 336-343), the date given by its day number. *)
Definition formattedDate (eventDate : Z) (eventTimeHour eventTimeMin eventTimeAMPM
    eventTimezone : string) : string :=
  weekday_short eventDate ++ " " ++ month_short eventDate ++ " " ++
  show_Z (getDate eventDate) ++ " " ++ show_Z (getFullYear eventDate) ++ " " ++
  formattedTime eventTimeHour eventTimeMin eventTimeAMPM ++ " " ++ eventTimezone.

(** ** Form defaults (lines 177-196) *)

(** [hourIn12] from [now.getHours()]. *)
Definition hourIn12 (currentHour : nat) : nat :=
  let h := currentHour mod 12 in if Nat.eqb h 0 then 12 else h.

(** [ampm]. *)
Definition ampm (currentHour : nat) : string :=
  if Nat.leb 12 currentHour then "PM" else "AM".

(** [minuteString]. *)
Definition minuteString (currentMinute : nat) : string :=
  pad_start2 (show_nat currentMinute).

(** [getTimezoneOffset] (the component's helper, not the [Date] method):
    [offsetInMinutes] is [new Date().getTimezoneOffset()], the minutes to
    add to local time to get UTC.  [Math.floor(Math.abs(m / 60))] is
    [|m| / 60] for an integer [m]. *)
Definition getTimezoneOffset (offsetInMinutes : Z) : string :=
  (if (offsetInMinutes <=? 0)%Z then "+" else "-") ++
  pad_start2 (show_Z (Z.abs offsetInMinutes / 60)) ++ ":00".

(** ** Reference definitions *)

(** The hour on a 24-hour clock of a 12-hour time. *)
Definition hour24 (h : Z) (eventTimeAMPM : string) : Z :=
  (h mod 12 + (if String.eqb eventTimeAMPM "PM" then 12 else 0))%Z.

(** The usual [±HH:MM] notation of a UTC offset given in minutes east of
    UTC. *)
Definition utc_offset_text (east : Z) : string :=
  (if (0 <=? east)%Z then "+" else "-") ++
  pad_start2 (show_Z (Z.abs east / 60)) ++ ":" ++
  pad_start2 (show_Z (Z.abs east mod 60)).

(** ** Lemmas *)

(** [pad_start2 (show_Z m)] is "00" only for [m = 0], on [0..59]. *)
Lemma pad_show_zero (m : Z) :
  (0 <= m < 60)%Z -> pad_start2 (show_Z m) = "00" <-> m = 0%Z.
Proof.
  intros Hm.
  assert (Hb : forall k, k < 60 ->
    Bool.eqb (String.eqb (pad_start2 (show_Z (Z.of_nat k))) "00") (Nat.eqb k 0) = true)
    by (apply nat_forall_lt; vm_compute; reflexivity).
  specialize (Hb (Z.to_nat m) ltac:(lia)). rewrite Z2Nat.id in Hb by lia.
  destruct (String.eqb_spec (pad_start2 (show_Z m)) "00");
    destruct (Nat.eqb_spec (Z.to_nat m) 0); simpl in Hb; try discriminate;
    split; intros; (lia || congruence).
Qed.

Lemma abs_mod60 (z : Z) : (Z.abs z mod 60 = 0 <-> z mod 60 = 0)%Z.
Proof.
  rewrite !Z.mod_divide by lia. split; intros H.
  - apply Z.divide_abs_r, H.
  - apply Z.divide_abs_r, H.
Qed.

(** Case analysis on a bounded [nat] ([k < n] becomes [n] goals). *)
Ltac enum_nat k :=
  repeat (destruct k as [|k]; [|try lia]).

(** The default offsets of the hours 0..99 that the menu offers. *)
Lemma tz_menu_small (n : nat) :
  n < 100 ->
  (existsb (String.eqb ("-" ++ pad_start2 (show_nat n) ++ ":00")) (map tz_value timezones) = true
   <-> 3 <= n <= 10).
Proof.
  intros Hn.
  pose proof (nat_forall_lt (fun n => Bool.eqb
    (existsb (String.eqb ("-" ++ pad_start2 (show_nat n) ++ ":00")) (map tz_value timezones))
    (Nat.leb 3 n && Nat.leb n 10)) 100 ltac:(vm_compute; reflexivity) n Hn) as H.
  cbv beta in H. apply Bool.eqb_prop in H. rewrite H, andb_true_iff, !Nat.leb_le. reflexivity.
Qed.

(** ** Properties *)

(** C13. For every hour 1..12 of the hour menu and both AM and PM, the
    hour written into the stored time, read as a 24-hour clock hour, is
    the right one exactly when the hour is not 12: 12 AM is stored as
    hour 12 (noon) instead of 0, and 12 PM as hour 24 instead of 12. *)
Theorem hour_text_24h (k : nat) (ap : string) :
  1 <= k <= 12 -> ap = "AM" \/ ap = "PM" ->
  (parse_int (hour_text (show_nat k) ap) = Some (hour24 (Z.of_nat k) ap) <-> k <> 12).
Proof.
  intros Hk Hap. assert (Hk' : k < 13) by lia. clear Hk.
  destruct Hap as [-> | ->]; enum_nat k; vm_compute; split; intros; congruence || lia.
Qed.

Lemma hour_text_24h_witness :
  (1 <= 7 <= 12 /\ ("PM" = "AM" \/ "PM" = "PM")) /\
  (parse_int (hour_text (show_nat 7) "PM") = Some (hour24 (Z.of_nat 7) "PM") <-> 7 <> 12).
Proof. split; [split; [lia | right; reflexivity] | apply hour_text_24h; [lia | right; reflexivity]]. Defined.

(** The two edge cases of the hour conversion: 12 PM is written as
    "24" and 12 AM as "12", so noon on 1 March 2024 is stored with
    "24:00:00". *)
Example hour_text_noon_midnight :
  hour_text "12" "PM" = "24" /\ hour_text "12" "AM" = "12" /\
  formattedDate (days_from_civil 2024 3 1) "12" "00" "PM" "-05:00"
  = "Fri Mar 1 2024 24:00:00 -05:00".
Proof. repeat split; vm_compute; reflexivity. Qed.

(** C15. The timezone the form preselects is one of the menu's options
    exactly when the browser's offset is between 180 and 659 minutes
    behind UTC (UTC-3 to UTC-10:59): for UTC and every zone east of it,
    and for any offset of 11 hours or more, the preselected value is not
    in the menu. *)
Theorem default_timezone_in_menu (offsetInMinutes : Z) :
  In (getTimezoneOffset offsetInMinutes) (map tz_value timezones)
  <-> (180 <= offsetInMinutes < 660)%Z.
Proof.
  unfold getTimezoneOffset. destruct (Z.leb_spec offsetInMinutes 0) as [Hle|Hgt].
  - split; [|lia]. cbn [map timezones tz_value In].
    intros H. repeat (destruct H as [H|H]; [discriminate|]). contradiction.
  - set (k := (Z.abs offsetInMinutes / 60)%Z).
    assert (Hk : (0 <= k)%Z) by (apply Z.div_pos; lia).
    assert (Hs : show_Z k = show_nat (Z.to_nat k)).
    { unfold show_Z. destruct (Z.ltb_spec k 0); [lia | reflexivity]. }
    assert (Hq : (60 * k <= offsetInMinutes < 60 * k + 60)%Z).
    { unfold k. rewrite Z.abs_eq by lia.
      pose proof (Z.div_mod offsetInMinutes 60 ltac:(lia)).
      pose proof (Z.mod_pos_bound offsetInMinutes 60 ltac:(lia)). lia. }
    clearbody k.
    assert (Hrange : (180 <= offsetInMinutes < 660)%Z <-> 3 <= Z.to_nat k <= 10) by lia.
    rewrite Hs, Hrange, <- existsb_string_in.
    destruct (Nat.ltb_spec (Z.to_nat k) 100) as [Hlt|Hge]; [apply tz_menu_small, Hlt|].
    split; [|lia]. rewrite existsb_string_in. intros Hin.
    pose proof (show_nat_length_ge3 _ Hge) as Hl.
    assert (Hp : pad_start2 (show_nat (Z.to_nat k)) = show_nat (Z.to_nat k)).
    { unfold pad_start2. destruct (String.length (show_nat (Z.to_nat k))) as [|[|]]; lia || reflexivity. }
    rewrite Hp in Hin.
    apply (in_map String.length) in Hin. cbn [map timezones tz_value] in Hin.
    rewrite !length_append_str in Hin. cbn [String.length] in Hin.
    repeat (destruct Hin as [Hin|Hin]; [lia|]). contradiction.
Qed.

(** The Newfoundland offset (UTC-3:30, 210 minutes) preselects the
    option of Brazil, UTC-3:00. *)
Example newfoundland_preselects_brazil :
  getTimezoneOffset 210 = "-03:00" /\
  map tz_name (filter (fun o => String.eqb (tz_value o) (getTimezoneOffset 210)) timezones)
    = ["(GMT -3:00) Brazil, Buenos Aires, Georgetown"].
Proof. split; vm_compute; reflexivity. Qed.

(** The stored string has the spec's layout (7:05 PM on 1 March
    2024 at UTC-5 is stored as "Fri Mar 1 2024 19:05:00 -05:00"), but the
    strings do not sort in time order as the spec asks: the home page
    lists events by [event_date] descending, and 2 March 2024 (a
    Saturday) compares greater than 4 March 2024 (a Monday), so the
    earlier event is listed first. *)
Example formattedDate_not_chronological :
  formattedDate (days_from_civil 2024 3 1) "7" "05" "PM" "-05:00"
    = "Fri Mar 1 2024 19:05:00 -05:00" /\
  (days_from_civil 2024 3 2 < days_from_civil 2024 3 4)%Z /\
  String.compare (formattedDate (days_from_civil 2024 3 2) "7" "05" "PM" "-05:00")
                 (formattedDate (days_from_civil 2024 3 4) "7" "05" "PM" "-05:00") = Gt.
Proof. repeat split; vm_compute; reflexivity. Qed.

(** C17. The form's default hour and AM/PM, computed from the current hour
    0..23 and converted back by [onSubmit], give the current hour except
    at midnight (0) and noon (12). *)
Theorem default_hour_roundtrip (h : nat) :
  h < 24 ->
  (parse_int (hour_text (show_nat (hourIn12 h)) (ampm h)) = Some (Z.of_nat h)
   <-> h <> 0 /\ h <> 12).
Proof.
  intros Hh. enum_nat h; vm_compute; split; intros; (congruence || lia).
Qed.

Lemma default_hour_roundtrip_witness :
  15 < 24 /\
  (parse_int (hour_text (show_nat (hourIn12 15)) (ampm 15)) = Some (Z.of_nat 15)
   <-> 15 <> 0 /\ 15 <> 12).
Proof. split; [lia | apply default_hour_roundtrip; lia]. Defined.

(** C18. The default timezone is the local UTC offset in the usual
    [±HH:MM] notation exactly when the offset is a whole number of hours:
    the minutes of an offset such as UTC-3:30 or UTC+5:30 are dropped. *)
Theorem getTimezoneOffset_whole_hours (offsetInMinutes : Z) :
  getTimezoneOffset offsetInMinutes = utc_offset_text (- offsetInMinutes)
  <-> (offsetInMinutes mod 60 = 0)%Z.
Proof.
  unfold getTimezoneOffset, utc_offset_text. rewrite Z.abs_opp.
  replace (0 <=? - offsetInMinutes)%Z with (offsetInMinutes <=? 0)%Z
    by (destruct (Z.leb_spec offsetInMinutes 0), (Z.leb_spec 0 (- offsetInMinutes)); lia).
  rewrite !append_cancel_l, <- abs_mod60.
  rewrite <- (pad_show_zero (Z.abs offsetInMinutes mod 60))
    by (pose proof (Z.mod_pos_bound (Z.abs offsetInMinutes) 60); lia).
  split; [intros H; injection H as H; auto | intros ->; reflexivity].
Qed.

End TimeComposer.
