(* ===== verification/Timestamp.v ===== *)
(** * StampReader: the stored timestamp can be read back

    [onSubmit] stores the string [formattedDate] composes
    (src/app/addEvent/page.tsx, lines 326-343):
    [<weekday> <month> <day> <year> <hour>:<minute>:00 <timezone>].
    [parse_stamp] reads such a string back: it splits it at its first
    five spaces and the two colons of the time, looks the month name up,
    reads the day, the year and the hour with [parseInt], and decodes the
    hour text (above 12 means PM).  It is a reader of the format, not
    code of the repository.

    [parse_stamp_formattedDate] shows that it recovers the day number, the
    hour and minute of the menus, AM/PM and the timezone of every stored
    timestamp of the years 1900..2199.  Hence the stored string loses
    nothing, 12 AM and 12 PM included (they are stored as hours 12 and
    24), although it does not sort chronologically. *)

From Stdlib Require Import Ascii String List Bool Arith ZArith Lia.
From S2P Require Import Prelude Calendar TimeComposer.
Import ListNotations.
Local Open Scope string_scope.

Module StampReader.
Import JsDate TimeComposer.

(** The part of [s] before the first [sep], and the part after it. *)
Fixpoint split_at (sep : ascii) (s : string) : string * string :=
  match s with
  | EmptyString => (EmptyString, EmptyString)
  | String c r =>
      if Ascii.eqb c sep then (EmptyString, r)
      else let '(a, b) := split_at sep r in (String c a, b)
  end.

Fixpoint index_of (x : string) (l : list string) : option nat :=
  match l with
  | [] => None
  | y :: r => if String.eqb x y then Some 0 else option_map S (index_of x r)
  end.

(** The hour menu value and AM/PM of a stored hour text. *)
Definition recover_hour (ht : string) : option (string * string) :=
  match parse_int ht with
  | Some k => Some (if (12 <? k)%Z then (show_Z (k - 12), "PM") else (ht, "AM"))
  | None => None
  end.

Definition parse_stamp (s : string) : option (Z * string * string * string * string) :=
  let '(_, r1) := split_at " " s in
  let '(mo, r2) := split_at " " r1 in
  let '(dd, r3) := split_at " " r2 in
  let '(yy, r4) := split_at " " r3 in
  let '(tm, tz) := split_at " " r4 in
  let '(ht, r5) := split_at ":" tm in
  let '(mi, _) := split_at ":" r5 in
  match index_of mo month_names, parse_int dd, parse_int yy, recover_hour ht with
  | Some i, Some d, Some y, Some (h, a) =>
      Some (days_from_civil y (Z.of_nat i + 1) d, h, mi, a, tz)
  | _, _, _, _ => None
  end.

(** ** Lemmas *)

Definition no_sep (sep : ascii) (s : string) : bool := sforall (fun c => negb (Ascii.eqb c sep)) s.

Lemma split_at_app (sep : ascii) (w r : string) :
  no_sep sep w = true -> split_at sep (w ++ String sep r) = (w, r).
Proof.
  induction w as [|c w IH]; intros Hw; cbn [append split_at].
  - rewrite Ascii.eqb_refl. reflexivity.
  - cbn [no_sep sforall] in Hw. apply andb_prop in Hw as [Hc Hw].
    apply negb_true_iff in Hc. rewrite Hc, (IH Hw). reflexivity.
Qed.

(** The same, for a separator written as a one-character string. *)
Lemma split_at_app1 (sep : ascii) (w r : string) :
  no_sep sep w = true -> split_at sep (w ++ (String sep EmptyString ++ r)) = (w, r).
Proof. apply split_at_app. Qed.

Lemma no_sep_app (sep : ascii) (a b : string) :
  no_sep sep (a ++ b) = no_sep sep a && no_sep sep b.
Proof. apply sforall_app. Qed.

Lemma nth_forallb {A : Type} (P : A -> bool) (l : list A) (d : A) (n : nat) :
  forallb P l = true -> P d = true -> P (nth n l d) = true.
Proof.
  revert n. induction l as [|x l IH]; intros [|n] Hl Hd; cbn in *; auto;
    apply andb_prop in Hl as [Hx Hl]; auto.
Qed.

Lemma is_dec_no_sep (c : ascii) :
  is_dec c = true -> negb (Ascii.eqb c " ") && negb (Ascii.eqb c ":") = true.
Proof. revert c. char_fact. Qed.

(** A printed integer holds no space and no colon. *)
Lemma show_Z_no_sep (z : Z) : no_sep " " (show_Z z) = true /\ no_sep ":" (show_Z z) = true.
Proof.
  assert (Hn : forall n, no_sep " " (show_nat n) = true /\ no_sep ":" (show_nat n) = true).
  { intros n. destruct (show_nat_digits n) as (Hs & _). unfold no_sep.
    split; refine (sforall_impl _ _ _ _ Hs); intros c Hc;
      apply is_dec_no_sep in Hc; apply andb_prop in Hc; tauto. }
  unfold show_Z. destruct (z <? 0)%Z; [|apply Hn].
  destruct (Hn (Z.to_nat (- z))) as [H1 H2]. split; cbn; assumption.
Qed.

Lemma weekday_short_no_sep (z : Z) : no_sep " " (weekday_short z) = true.
Proof. apply nth_forallb; reflexivity. Qed.

Lemma month_short_no_sep (z : Z) : no_sep " " (month_short z) = true.
Proof. apply nth_forallb; reflexivity. Qed.

Lemma index_of_month (i : nat) : i < 12 -> index_of (nth i month_names EmptyString) month_names = Some i.
Proof.
  intros Hi.
  pose proof (nat_forall_lt (fun i => match index_of (nth i month_names EmptyString) month_names with
                                      | Some j => Nat.eqb j i | None => false end) 12 eq_refl i Hi) as H.
  cbv beta in H. destruct (index_of _ _) as [j|]; [apply Nat.eqb_eq in H; subst; reflexivity | discriminate].
Qed.

(** The menus' hours and minutes, and AM/PM: their hour text decodes
    back, and none of them holds a space or a colon. *)
Lemma hour_menu_facts (h a : string) :
  In h hours -> In a ["AM"; "PM"] ->
  recover_hour (hour_text h a) = Some (h, a) /\
  no_sep " " (hour_text h a) = true /\ no_sep ":" (hour_text h a) = true.
Proof.
  intros Hh Ha.
  assert (H : forallb (fun h => forallb (fun a =>
             match recover_hour (hour_text h a) with
             | Some (h', a') => String.eqb h' h && String.eqb a' a
             | None => false end &&
             no_sep " " (hour_text h a) && no_sep ":" (hour_text h a)) ["AM"; "PM"]) hours = true)
    by (vm_compute; reflexivity).
  rewrite forallb_forall in H. specialize (H h Hh). rewrite forallb_forall in H.
  specialize (H a Ha). apply andb_prop in H as [H H3]. apply andb_prop in H as [H H2].
  destruct (recover_hour (hour_text h a)) as [[h' a']|]; [|discriminate].
  apply andb_prop in H as [E1 E2]. apply String.eqb_eq in E1, E2. subst. auto.
Qed.

Lemma min_menu_facts (m : string) : In m mins -> no_sep " " m = true /\ no_sep ":" m = true.
Proof.
  intros Hm.
  assert (H : forallb (fun m => no_sep " " m && no_sep ":" m) mins = true) by (vm_compute; reflexivity).
  rewrite forallb_forall in H. apply andb_prop, H, Hm.
Qed.

(** ** Reading back *)

Lemma parse_stamp_formattedDate (z : Z) (h m a tz : string) :
  (day_1900 <= z < day_2200)%Z -> In h hours -> In m mins -> In a ["AM"; "PM"] ->
  parse_stamp (formattedDate z h m a tz) = Some (z, h, m, a, tz).
Proof.
  intros Hz Hh Hm Ha.
  destruct (hour_menu_facts h a Hh Ha) as (Hr & Hh1 & Hh2).
  destruct (min_menu_facts m Hm) as (Hm1 & Hm2).
  destruct (show_Z_no_sep (getDate z)) as [Hd1 _].
  destruct (show_Z_no_sep (getFullYear z)) as [Hy1 _].
  destruct (civil_from_days_roundtrip z Hz) as [Hrt Hv].
  unfold valid_civil in Hv. apply andb_prop in Hv as [Hv _]. apply andb_prop in Hv as [Hv _].
  apply andb_prop in Hv as [Hm_lo Hm_hi]. apply Z.leb_le in Hm_lo, Hm_hi.
  unfold parse_stamp, formattedDate, formattedTime.
  rewrite (split_at_app1 " " _ _ (weekday_short_no_sep z)).
  rewrite (split_at_app1 " " _ _ (month_short_no_sep z)).
  rewrite (split_at_app1 " " _ _ Hd1), (split_at_app1 " " _ _ Hy1).
  rewrite (split_at_app1 " " (hour_text h a ++ ":" ++ m ++ ":00")).
  2:{ rewrite !no_sep_app, Hh1, Hm1. reflexivity. }
  rewrite (split_at_app1 ":" _ _ Hh2), (split_at_app ":" m "00" Hm2).
  unfold month_short. rewrite index_of_month by lia.
  rewrite !parse_int_show_Z, Hr. unfold getDate, getFullYear.
  rewrite Z2Nat.id by lia. rewrite Z.sub_add, Hrt. reflexivity.
Qed.

(** ** The stored timestamp determines the event's time *)

(** C14. The stored timestamp can be read back: for a day of the years
    1900..2199, an hour and a minute of the menus and AM or PM, the
    reader recovers the day, the hour, the minute, AM/PM and the timezone
    from the string [formattedDate] composes, 12 AM and 12 PM included
    (stored as hours 12 and 24). *)
Theorem formattedDate_readable (z : Z) (h m a tz : string) :
  (day_1900 <= z < day_2200)%Z -> In h hours -> In m mins -> In a ["AM"; "PM"] ->
  parse_stamp (formattedDate z h m a tz) = Some (z, h, m, a, tz).
Proof. apply parse_stamp_formattedDate. Qed.

(** Hence two events stored with the same string have the same day,
    time and timezone. *)
Lemma formattedDate_injective (z1 z2 : Z) (h1 h2 m1 m2 a1 a2 tz1 tz2 : string) :
  (day_1900 <= z1 < day_2200)%Z -> (day_1900 <= z2 < day_2200)%Z ->
  In h1 hours -> In h2 hours -> In m1 mins -> In m2 mins ->
  In a1 ["AM"; "PM"] -> In a2 ["AM"; "PM"] ->
  formattedDate z1 h1 m1 a1 tz1 = formattedDate z2 h2 m2 a2 tz2 ->
  z1 = z2 /\ h1 = h2 /\ m1 = m2 /\ a1 = a2 /\ tz1 = tz2.
Proof.
  intros Hz1 Hz2 Hh1 Hh2 Hm1 Hm2 Ha1 Ha2 E.
  pose proof (parse_stamp_formattedDate z1 h1 m1 a1 tz1 Hz1 Hh1 Hm1 Ha1) as P1.
  rewrite E, (parse_stamp_formattedDate z2 h2 m2 a2 tz2 Hz2 Hh2 Hm2 Ha2) in P1.
  injection P1 as <- <- <- <- <-. auto.
Qed.

(** Noon of 1 March 2024 at -05:00. *)
Lemma formattedDate_readable_witness :
  ((day_1900 <= days_from_civil 2024 3 1 < day_2200)%Z /\ In "12" hours /\ In "00" mins /\
   In "PM" ["AM"; "PM"]) /\
  parse_stamp (formattedDate (days_from_civil 2024 3 1) "12" "00" "PM" "-05:00") =
    Some (days_from_civil 2024 3 1, "12", "00", "PM", "-05:00").
Proof.
  assert (Hz : (day_1900 <= days_from_civil 2024 3 1 < day_2200)%Z)
    by (split; vm_compute; first [reflexivity | discriminate]).
  assert (Hh : In "12" hours) by (apply existsb_string_in; reflexivity).
  assert (Hm : In "00" mins) by (apply existsb_string_in; vm_compute; reflexivity).
  assert (Ha : In "PM" ["AM"; "PM"]) by (right; left; reflexivity).
  refine (conj (conj Hz (conj Hh (conj Hm Ha))) _).
  exact (formattedDate_readable _ _ _ _ _ Hz Hh Hm Ha).
Defined.

End StampReader.
