(* ===== verification/DateLabel.v ===== *)
(** * DateButton: the label of the date picker's button

    The date field (src/app/addEvent/page.tsx, lines 479-512) shows a
    button whose text is [format(field.value, 'PPP')] when a day is
    picked and "Pick a date" otherwise (lines 497-501), greyed with
    [text-muted-foreground] while no day is picked (lines 492-495).

    [format] is date-fns's: with its default [en-US] locale, ['PPP'] is
    the pattern ["MMMM do, y"], the long month name, the day of the month
    as an English ordinal ([ordinalNumber] of the locale: 1st, 2nd, 3rd,
    4th, ..., 11th, 12th, 13th, ..., 21st, 22nd, 23rd, ..., 31st) and the
    year.  [format_PPP] models that library call (not code of the
    repository) on the day numbers of [Calendar].

    [read_label] reads such a label back; [date_label_readable] shows that
    the button's text determines the field's value on every day of the
    years 1900..2199. *)

From Stdlib Require Import Ascii String List Bool Arith ZArith Lia.
From S2P Require Import Prelude Calendar Timestamp.
Import ListNotations.
Local Open Scope string_scope.

Module DateButton.
Import JsDate StampReader.

Definition month_long_names : list string :=
  ["January"; "February"; "March"; "April"; "May"; "June";
   "July"; "August"; "September"; "October"; "November"; "December"].

(** The [en-US] locale's [ordinalNumber]: the suffix after the number. *)
Definition ordinal_suffix (n : Z) : string :=
  let rem100 := (n mod 100)%Z in
  if (20 <? rem100)%Z || (rem100 <? 10)%Z then
    match (rem100 mod 10)%Z with
    | 1%Z => "st"
    | 2%Z => "nd"
    | 3%Z => "rd"
    | _ => "th"
    end
  else "th".

(** [format(date, 'PPP')], the date being local midnight of day [z]. *)
Definition format_PPP (z : Z) : string :=
  nth (Z.to_nat (cmonth (civil_from_days z) - 1)) month_long_names EmptyString ++ " " ++
  show_Z (getDate z) ++ ordinal_suffix (getDate z) ++ ", " ++ show_Z (getFullYear z).

(** The button's text (lines 497-501). *)
Definition date_label (v : option Z) : string :=
  match v with
  | Some z => format_PPP z
  | None => "Pick a date"
  end.

(** [!field.value && 'text-muted-foreground'] (lines 492-495): the
    button is greyed while no day is picked. *)
Definition date_muted (v : option Z) : bool :=
  match v with Some _ => false | None => true end.

(** A reader of the label: the month name up to the first space, the
    day's digits up to the comma, the year after the following space. *)
Definition read_label (s : string) : option Z :=
  let '(mo, r1) := split_at " " s in
  let '(dd, r2) := split_at "," r1 in
  let '(_, yy) := split_at " " r2 in
  match index_of mo month_long_names, digits_prefix 10 None dd, parse_int yy with
  | Some i, Some d, Some y => Some (days_from_civil y (Z.of_nat i + 1) d)
  | _, _, _ => None
  end.

(** ** Lemmas *)

(** The ordinal suffix is two letters that are not digits, neither a
    space nor a comma. *)
Lemma ordinal_suffix_cases (n : Z) :
  ordinal_suffix n = "st" \/ ordinal_suffix n = "nd" \/ ordinal_suffix n = "rd" \/
  ordinal_suffix n = "th".
Proof.
  unfold ordinal_suffix. destruct (_ || _);
    repeat match goal with |- context [match ?x with _ => _ end] => destruct x end;
    first [left; reflexivity | right; left; reflexivity | right; right; left; reflexivity
          | right; right; right; reflexivity].
Qed.

Lemma digits_prefix_suffix (n : Z) :
  digits_prefix 10 (Some n) (ordinal_suffix n) = Some n.
Proof.
  destruct (ordinal_suffix_cases n) as [E|[E|[E|E]]]; rewrite E; reflexivity.
Qed.

Lemma no_sep_suffix (n : Z) : no_sep "," (ordinal_suffix n) = true.
Proof. destruct (ordinal_suffix_cases n) as [E|[E|[E|E]]]; rewrite E; reflexivity. Qed.

Lemma index_of_month_long (i : nat) :
  i < 12 -> index_of (nth i month_long_names EmptyString) month_long_names = Some i.
Proof.
  intros Hi.
  pose proof (nat_forall_lt (fun i => match index_of (nth i month_long_names EmptyString)
                                                       month_long_names with
                                      | Some j => Nat.eqb j i | None => false end) 12 eq_refl i Hi) as H.
  cbv beta in H. destruct (index_of _ _) as [j|]; [apply Nat.eqb_eq in H; subst; reflexivity | discriminate].
Qed.

Lemma month_long_no_sep (i : nat) : no_sep " " (nth i month_long_names EmptyString) = true.
Proof. apply nth_forallb; reflexivity. Qed.

(** A positive day prints as digits only, with no comma. *)
Lemma show_Z_pos_digits (d : Z) :
  (0 <= d)%Z -> no_sep "," (show_Z d) = true /\ digits_prefix 10 None (show_Z d) = Some d /\
  sforall is_dec (show_Z d) = true.
Proof.
  intros Hd. unfold show_Z. destruct (Z.ltb_spec d 0) as [|_]; [lia|].
  destruct (show_nat_digits (Z.to_nat d)) as (Hs & _ & Hp). rewrite Z2Nat.id in Hp by exact Hd.
  split; [|split; [exact Hp | exact Hs]]. unfold no_sep.
  refine (sforall_impl _ _ _ _ Hs). intros c Hc. revert c Hc. char_fact.
Qed.

Lemma read_label_format (z : Z) :
  (day_1900 <= z < day_2200)%Z -> read_label (format_PPP z) = Some z.
Proof.
  intros Hz. destruct (civil_from_days_roundtrip z Hz) as [Hrt Hv].
  unfold valid_civil in Hv. apply andb_prop in Hv as [Hv _]. apply andb_prop in Hv as [Hv Hd].
  apply andb_prop in Hv as [Hm_lo Hm_hi]. apply Z.leb_le in Hm_lo, Hm_hi, Hd.
  destruct (show_Z_pos_digits (getDate z)) as (Hc & Hp & Hs); [unfold getDate; lia|].
  unfold read_label, format_PPP.
  rewrite (split_at_app1 " " _ _ (month_long_no_sep _)).
  set (Y := show_Z (getFullYear z)).
  assert (E : (show_Z (getDate z) ++ ordinal_suffix (getDate z) ++ ", " ++ Y)%string =
              ((show_Z (getDate z) ++ ordinal_suffix (getDate z)) ++ String "," (" " ++ Y))%string)
    by (rewrite append_assoc_str; reflexivity).
  rewrite E, split_at_app by (rewrite no_sep_app, Hc, no_sep_suffix; reflexivity).
  change (split_at " " (" " ++ Y)) with (EmptyString, Y). unfold Y.
  rewrite index_of_month_long by lia.
  rewrite (digits_prefix_app None _ _ Hs), Hp.
  rewrite digits_prefix_suffix, parse_int_show_Z.
  unfold getDate, getFullYear. rewrite Z2Nat.id by lia. rewrite Z.sub_add, Hrt. reflexivity.
Qed.

(** ** Properties *)

(** C16. The date button's text identifies the field's value: for no
    day, and for every day of the years 1900..2199, reading the label
    back gives the field's value, so two different days never show the
    same text and "Pick a date" is never the label of a day. *)
Theorem date_label_readable (v : option Z) :
  (forall z, v = Some z -> (day_1900 <= z < day_2200)%Z) ->
  read_label (date_label v) = v.
Proof.
  intros Hv. destruct v as [z|]; [|reflexivity].
  apply read_label_format, Hv. reflexivity.
Qed.

(** 1 March 2024 (day 19783). *)
Lemma date_label_readable_witness :
  (forall z, Some 19783%Z = Some z -> (day_1900 <= z < day_2200)%Z) /\
  read_label (date_label (Some 19783%Z)) = Some 19783%Z.
Proof.
  assert (H : forall z, Some 19783%Z = Some z -> (day_1900 <= z < day_2200)%Z).
  { intros z E. injection E as <-. unfold day_1900, day_2200. lia. }
  split; [exact H | exact (date_label_readable (Some 19783%Z) H)].
Defined.

Example format_PPP_examples :
  date_label (Some 19783%Z) = "March 1st, 2024" /\
  date_label (Some 19794%Z) = "March 12th, 2024" /\
  date_label (Some 19805%Z) = "March 23rd, 2024" /\
  date_label None = "Pick a date".
Proof. vm_compute. repeat split. Qed.

End DateButton.
