(* ===== verification/Store.v ===== *)
(** * The record store: the Supabase tables the pages call

    Both pages talk to one Postgres database through supabase-js.  The
    store is not code of the repository; this file states what the pages
    rely on as an interface, the class [RecordStore] of the five calls
    they make, with the laws [RecordStoreLaws] that the component proofs
    use, and gives one implementation over lists ([ListStore]) that
    satisfies them.

    A call can fail for a reason outside the data (network, timeout): the
    environment chooses that with a [reach] flag, [false] meaning the
    request did not go through and returned a transient error. *)

From Stdlib Require Import String List Bool ZArith Lia Sorted Permutation.
From S2P Require Import Prelude.
Import ListNotations.
Local Open Scope string_scope.

Module Store.

(** A row of [events] (src/app/page.tsx, interface [Event]); [admin_id]
    is nullable, as the insert can send [null]. *)
Record event_row : Type := EventRow {
  ev_id : Z;
  event_title : string;
  event_slug : string;
  admin_id : option Z;
  event_date : string
}.

(** A row of [photos]: only its owner matters here. *)
Record photo_row : Type := PhotoRow { ph_id : Z; event_id : Z }.

(** What [insert] sends (lines 352-357 of addEvent/page.tsx). *)
Record new_event : Type := NewEvent {
  ne_title : string;
  ne_admin : option Z;
  ne_date : string;
  ne_slug : string
}.

(** A [PostgrestError]: its [code] and [details] strings. *)
Record pg_error : Type := PgError { code : string; details : string }.

(** The error of a request that did not reach the database. *)
Definition transient_error : pg_error := PgError "" "TypeError: Failed to fetch".

(** Postgres' [unique_violation] report for a key column. *)
Definition unique_violation (column value : string) : pg_error :=
  PgError "23505" ("Key (" ++ column ++ ")=(" ++ value ++ ") already exists.").

(** Postgres' [foreign_key_violation] report. *)
Definition fk_violation : pg_error :=
  PgError "23503" "Key is still referenced from table photos.".

(** The argument of [.order(column, { ascending })]. *)
Record order_by : Type := OrderBy { ob_column : string; ob_ascending : bool }.

(** The text of a row in a column ([""] for a column that is not one of
    the text columns, which orders nothing). *)
Definition column_text (c : string) (r : event_row) : string :=
  if String.eqb c "event_date" then event_date r
  else if String.eqb c "event_title" then event_title r
  else if String.eqb c "event_slug" then event_slug r
  else "".

(** [ORDER BY column ASC|DESC]: [a] may come before [b].  Postgres
    compares text by its collation; the model takes the code-unit order
    (the [C] collation). *)
Definition ordered (o : order_by) (a b : event_row) : bool :=
  let ka := column_text (ob_column o) a in
  let kb := column_text (ob_column o) b in
  if ob_ascending o then String.leb ka kb else String.leb kb ka.

(** ** The interface *)

Class RecordStore (S : Type) : Type := {
  (** [select('event_title').eq('event_title', t).limit(1)], as "a row
      exists" *)
  exists_title : S -> string -> bool;
  (** [insert([...]).select()]: the inserted row or an error *)
  insert_event : S -> new_event -> S * (event_row + pg_error);
  (** [delete().eq('event_id', id)] on [photos] *)
  delete_photos : S -> Z -> S * option pg_error;
  (** [delete().eq('id', id)] on [events] *)
  delete_event : S -> Z -> S * option pg_error;
  (** [select('*').order(column, { ascending })] *)
  list_events : S -> order_by -> list event_row;
  (** the rows of [events] and of [photos] *)
  events_of : S -> list event_row;
  photos_of : S -> list photo_row
}.

Section Laws.
Context {S : Type} `{RecordStore S}.

(** Titles and slugs are unique among the rows of [events]. *)
Definition unique_keys (st : S) : Prop :=
  NoDup (map event_title (events_of st)) /\ NoDup (map event_slug (events_of st)).

(** Every photo belongs to an existing event. *)
Definition photos_owned (st : S) : Prop :=
  forall p, In p (photos_of st) -> exists e, In e (events_of st) /\ ev_id e = event_id p.
End Laws.

(** The laws the pages rely on. *)
Class RecordStoreLaws (S : Type) `{RecordStore S} : Prop := {
  exists_title_spec : forall st t,
    exists_title st t = true <-> In t (map event_title (events_of st));
  (** an insert that fails changes nothing *)
  insert_error_unchanged : forall st ne st' err,
    insert_event st ne = (st', inr err) -> st' = st;
  (** a title clash is reported as a [unique_violation] on [event_title] *)
  insert_title_clash : forall st ne,
    In (ne_title ne) (map event_title (events_of st)) ->
    snd (insert_event st ne) = inr (unique_violation "event_title" (ne_title ne));
  (** a successful insert adds exactly the returned row *)
  insert_ok_adds : forall st ne st' row,
    insert_event st ne = (st', inl row) ->
    events_of st' = (events_of st ++ [row])%list /\ photos_of st' = photos_of st /\
    event_title row = ne_title ne /\ event_slug row = ne_slug ne /\
    event_date row = ne_date ne /\ admin_id row = ne_admin ne;
  insert_keeps_unique : forall st ne,
    unique_keys st -> unique_keys (fst (insert_event st ne));
  (** deleting photos removes exactly the photos of the event *)
  delete_photos_spec : forall st id st' e,
    delete_photos st id = (st', e) ->
    events_of st' = events_of st /\
    (e = None -> photos_of st' = filter (fun p => negb (Z.eqb (event_id p) id)) (photos_of st)) /\
    (e <> None -> st' = st);
  (** deleting an event removes its row, and fails while photos refer to
      it *)
  delete_event_spec : forall st id st' e,
    delete_event st id = (st', e) ->
    photos_of st' = photos_of st /\
    (e = None -> events_of st' = filter (fun r => negb (Z.eqb (ev_id r) id)) (events_of st)
                 /\ forall p, In p (photos_of st) -> event_id p <> id) /\
    (e <> None -> st' = st);
  (** the listing holds every row once, in the requested order *)
  list_events_spec : forall st o,
    Permutation (events_of st) (list_events st o) /\
    Sorted (fun a b => ordered o a b = true) (list_events st o)
}.

(** A call that may not reach the database: [reach = false] leaves the
    store as it is and returns the transient error. *)
Definition attempt {S A : Type} (reach : bool) (call : S -> S * A)
    (fail : A) (st : S) : S * A :=
  if reach then call st else (st, fail).

(** ** An implementation over lists *)

Module ListStore.

Record db : Type := DB {
  db_events : list event_row;
  db_photos : list photo_row;
  db_next_id : Z
}.

Definition title_taken (d : db) (t : string) : bool :=
  existsb (String.eqb t) (map event_title (db_events d)).

Definition slug_taken (d : db) (s : string) : bool :=
  existsb (String.eqb s) (map event_slug (db_events d)).

(** The [events] table has a unique index on [event_title] and one on
    [event_slug]; the title index is checked first. *)
Definition db_insert (d : db) (ne : new_event) : db * (event_row + pg_error) :=
  if title_taken d (ne_title ne) then
    (d, inr (unique_violation "event_title" (ne_title ne)))
  else if slug_taken d (ne_slug ne) then
    (d, inr (unique_violation "event_slug" (ne_slug ne)))
  else
    let row := EventRow (db_next_id d) (ne_title ne) (ne_slug ne) (ne_admin ne) (ne_date ne) in
    (DB (db_events d ++ [row])%list (db_photos d) (db_next_id d + 1)%Z, inl row).

Definition db_delete_photos (d : db) (id : Z) : db * option pg_error :=
  (DB (db_events d) (filter (fun p => negb (Z.eqb (event_id p) id)) (db_photos d))
      (db_next_id d), None).

(** [photos.event_id] references [events.id] without cascade. *)
Definition db_delete_event (d : db) (id : Z) : db * option pg_error :=
  if existsb (fun p => Z.eqb (event_id p) id) (db_photos d) then (d, Some fk_violation)
  else (DB (filter (fun r => negb (Z.eqb (ev_id r) id)) (db_events d)) (db_photos d)
           (db_next_id d), None).

(** Insertion sort by a boolean order. *)
Fixpoint insert_by {A : Type} (le : A -> A -> bool) (x : A) (l : list A) : list A :=
  match l with
  | [] => [x]
  | y :: r => if le x y then x :: l else y :: insert_by le x r
  end.

Fixpoint sort_by {A : Type} (le : A -> A -> bool) (l : list A) : list A :=
  match l with
  | [] => []
  | x :: r => insert_by le x (sort_by le r)
  end.

Section SortBy.
Context {A : Type} (le : A -> A -> bool).
Hypothesis le_total : forall a b, le a b = true \/ le b a = true.

Lemma insert_by_perm (x : A) (l : list A) : Permutation (x :: l) (insert_by le x l).
Proof.
  induction l as [|y l IH]; cbn; [reflexivity|]. destruct (le x y); [reflexivity|].
  etransitivity; [apply perm_swap|]. constructor. exact IH.
Qed.

Lemma sort_by_perm (l : list A) : Permutation l (sort_by le l).
Proof.
  induction l as [|x l IH]; cbn; [reflexivity|].
  etransitivity; [constructor; exact IH | apply insert_by_perm].
Qed.

Lemma insert_by_sorted (x : A) (l : list A) :
  Sorted (fun a b => le a b = true) l -> Sorted (fun a b => le a b = true) (insert_by le x l).
Proof.
  induction 1 as [|y l Hl IH Hy]; cbn; [repeat constructor|].
  destruct (le x y) eqn:Exy; [repeat constructor; assumption|].
  assert (Hyx : le y x = true) by (destruct (le_total x y); congruence).
  constructor; [exact IH|]. destruct l as [|z l]; cbn; [constructor; exact Hyx|].
  destruct (le x z); constructor; [exact Hyx|]. inversion Hy; assumption.
Qed.

Lemma sort_by_sorted (l : list A) : Sorted (fun a b => le a b = true) (sort_by le l).
Proof. induction l as [|x l IH]; cbn; [constructor | apply insert_by_sorted, IH]. Qed.
End SortBy.

Lemma ordered_total (o : order_by) (a b : event_row) : ordered o a b = true \/ ordered o b a = true.
Proof.
  unfold ordered. destruct (ob_ascending o); apply String.leb_total.
Qed.

#[export] Instance list_store : RecordStore db := {
  exists_title := title_taken;
  insert_event := db_insert;
  delete_photos := db_delete_photos;
  delete_event := db_delete_event;
  list_events := fun d o => sort_by (ordered o) (db_events d);
  events_of := db_events;
  photos_of := db_photos
}.

#[export] Instance list_store_laws : RecordStoreLaws db.
Proof.
  constructor; simpl.
  - intros st t. apply existsb_string_in.
  - intros st ne st' err. unfold db_insert.
    destruct (title_taken st (ne_title ne)), (slug_taken st (ne_slug ne)); congruence.
  - intros st ne Hin. unfold db_insert, title_taken.
    apply existsb_string_in in Hin. rewrite Hin. reflexivity.
  - intros st ne st' row. unfold db_insert.
    destruct (title_taken st (ne_title ne)), (slug_taken st (ne_slug ne)); try discriminate.
    intros H; injection H as <- <-. simpl. repeat split.
  - intros st ne [Ht Hs]. unfold db_insert, title_taken, slug_taken.
    destruct (existsb _ (map event_title _)) eqn:E1; [split; assumption|].
    destruct (existsb _ (map event_slug _)) eqn:E2; [split; assumption|].
    unfold unique_keys. simpl. rewrite !map_app. simpl.
    split; apply NoDup_snoc; auto; intros Hin;
      [apply existsb_string_in in Hin; congruence | apply existsb_string_in in Hin; congruence].
  - intros st id st' e H. unfold db_delete_photos in H. injection H as <- <-. simpl.
    repeat split; intros; congruence.
  - intros st id st' e. unfold db_delete_event.
    destruct (existsb _ (db_photos st)) eqn:E; intros H; injection H as <- <-; simpl.
    + repeat split; intros; congruence.
    + split; [reflexivity|]. split; [|intros; congruence].
      intros _. split; [reflexivity|]. intros p Hp Heq. assert (Hx : existsb (fun p => Z.eqb (event_id p) id) (db_photos st) = true)
        by (apply existsb_exists; exists p; split; [exact Hp | apply Z.eqb_eq, Heq]).
      congruence.
  - intros st o. split; [apply sort_by_perm | apply sort_by_sorted, ordered_total].
Qed.

End ListStore.

End Store.
