(* ===== verification/Page.v ===== *)
(** * The add-event page: its state and the submission gate

    [AddEvent] (src/app/addEvent/page.tsx) keeps its state in React
    [useState] hooks (lines 142-149) and its form in react-hook-form.  This
    file gathers both into one record [PageState]: the form's values and
    default values, the number of fields with a validation error
    ([Object.keys(form.formState.errors).length]), the hooks, and the
    asynchronous work in progress (pending [setTimeout] timers and store
    queries not yet answered), with a clock in milliseconds.

    Each React setter is a function on the record; a handler that calls
    several setters is modelled by applying them in order (React batches
    them, and the last value written wins, which is what sequential
    application gives).

    The gate is [isFormComplete] and [isFormValid] (lines 251-267 and
    283-302) and the button's [disabled] attribute (line 639). *)

From Stdlib Require Import String List Bool Arith ZArith Lia.
From S2P Require Import Prelude TimeComposer Store.
Import ListNotations.
Local Open Scope string_scope.

Module AddEventPage.
Import Store.

(** The form values of react-hook-form; [None] is [undefined]. *)
Record FormValues : Type := FV {
  eventTitle : option string;
  eventSlug : option string;
  eventDate : option Z;
  eventTimeHour : option string;
  eventTimeMin : option string;
  eventTimeAMPM : option string;
  eventTimezone : option string
}.

(** The form's fields, as the [name] the watch callback receives. *)
Inductive field : Type := FTitle | FSlug | FDate | FHour | FMin | FAMPM | FTz.

(** A value typed or picked into a field. *)
Inductive input : Type := IText (s : string) | IDate (d : Z).

Definition field_eqb (f g : field) : bool :=
  match f, g with
  | FTitle, FTitle | FSlug, FSlug | FDate, FDate | FHour, FHour
  | FMin, FMin | FAMPM, FAMPM | FTz, FTz => true
  | _, _ => false
  end.

(** [field.onChange(x)]: the field takes the new value (a date for the
    date field, a string for the others; a value of the wrong kind
    leaves the field [undefined]). *)
Definition set_field (f : field) (x : input) (v : FormValues) : FormValues :=
  let str := match x with IText s => Some s | IDate _ => None end in
  let date := match x with IDate d => Some d | IText _ => None end in
  match f with
  | FTitle => FV str (eventSlug v) (eventDate v) (eventTimeHour v) (eventTimeMin v) (eventTimeAMPM v) (eventTimezone v)
  | FSlug => FV (eventTitle v) str (eventDate v) (eventTimeHour v) (eventTimeMin v) (eventTimeAMPM v) (eventTimezone v)
  | FDate => FV (eventTitle v) (eventSlug v) date (eventTimeHour v) (eventTimeMin v) (eventTimeAMPM v) (eventTimezone v)
  | FHour => FV (eventTitle v) (eventSlug v) (eventDate v) str (eventTimeMin v) (eventTimeAMPM v) (eventTimezone v)
  | FMin => FV (eventTitle v) (eventSlug v) (eventDate v) (eventTimeHour v) str (eventTimeAMPM v) (eventTimezone v)
  | FAMPM => FV (eventTitle v) (eventSlug v) (eventDate v) (eventTimeHour v) (eventTimeMin v) str (eventTimezone v)
  | FTz => FV (eventTitle v) (eventSlug v) (eventDate v) (eventTimeHour v) (eventTimeMin v) (eventTimeAMPM v) str
  end.

(** [defaultValues] (lines 201-208), from the current hour, minute and
    [getTimezoneOffset()] minutes. *)
Definition defaultValues (currentHour currentMinute : nat) (offsetInMinutes : Z) : FormValues :=
  FV (Some "") (Some "") None
     (Some (show_nat (TimeComposer.hourIn12 currentHour)))
     (Some (TimeComposer.minuteString currentMinute))
     (Some (TimeComposer.ampm currentHour))
     (Some (TimeComposer.getTimezoneOffset offsetInMinutes)).

Definition opt_eqb {A : Type} (eqb : A -> A -> bool) (x y : option A) : bool :=
  match x, y with
  | Some a, Some b => eqb a b
  | None, None => true
  | _, _ => false
  end.

(** react-hook-form's [deepEqual] on the values. *)
Definition values_eqb (v w : FormValues) : bool :=
  opt_eqb String.eqb (eventTitle v) (eventTitle w) &&
  opt_eqb String.eqb (eventSlug v) (eventSlug w) &&
  opt_eqb Z.eqb (eventDate v) (eventDate w) &&
  opt_eqb String.eqb (eventTimeHour v) (eventTimeHour w) &&
  opt_eqb String.eqb (eventTimeMin v) (eventTimeMin w) &&
  opt_eqb String.eqb (eventTimeAMPM v) (eventTimeAMPM w) &&
  opt_eqb String.eqb (eventTimezone v) (eventTimezone w).

(** [formState.isDirty]: the values differ from the default values. *)
Definition isDirty (defaults v : FormValues) : bool := negb (values_eqb v defaults).

(** [isFormComplete] (lines 253-260 and 285-294): every field truthy; a
    [Date] object is always truthy. *)
Definition isFormComplete (v : FormValues) : bool :=
  truthy (eventTitle v) && truthy (eventSlug v) &&
  (match eventDate v with Some _ => true | None => false end) &&
  truthy (eventTimeHour v) && truthy (eventTimeMin v) &&
  truthy (eventTimeAMPM v) && truthy (eventTimezone v).

(** [isFormValid] (lines 262-267 and 296-302). *)
Definition isFormValid (errs : nat) (dirty complete titleExists : bool) : bool :=
  Nat.eqb errs 0 && dirty && complete && negb titleExists.

(** The [Error] object held in the [error] hook. *)
Inductive page_error : Type :=
| DuplicateTitle                (* new Error('Duplicate title') *)
| DbError (e : pg_error).       (* an error returned by supabase *)

(** A pending [setTimeout(checkEventTitle, 500)]: when it is due, and the
    form values the watch callback received ([value]). *)
Record timer : Type := Timer { t_due : nat; t_value : FormValues }.

(** A title query sent to the store and not yet answered. *)
Record query : Type := Query { q_id : nat; q_title : string }.

Record PageState : Type := PS {
  values : FormValues;
  defaults : FormValues;
  errs : nat;
  isLoading : bool;
  currentAdminId : option Z;
  error : option page_error;
  errorMessage : option string;
  isCheckingTitle : bool;
  titleExists : bool;
  submitButtonEnabled : bool;
  timers : list timer;
  inflight : list query;
  now : nat;
  next_query : nat;
  issued : list string;   (* every title sent to the store, in order *)
  navigated : bool        (* router.push('/') was called *)
}.

(** The button's [disabled={!submitButtonEnabled || isCheckingTitle}]. *)
Definition disabled (ps : PageState) : bool :=
  negb (submitButtonEnabled ps) || isCheckingTitle ps.

(** ** The setters *)

Definition set_values (v : FormValues) (p : PageState) : PageState :=
  PS v (defaults p) (errs p) (isLoading p) (currentAdminId p) (error p) (errorMessage p)
     (isCheckingTitle p) (titleExists p) (submitButtonEnabled p) (timers p) (inflight p)
     (now p) (next_query p) (issued p) (navigated p).
Definition set_errs (n : nat) (p : PageState) : PageState :=
  PS (values p) (defaults p) n (isLoading p) (currentAdminId p) (error p) (errorMessage p)
     (isCheckingTitle p) (titleExists p) (submitButtonEnabled p) (timers p) (inflight p)
     (now p) (next_query p) (issued p) (navigated p).
Definition setIsLoading (b : bool) (p : PageState) : PageState :=
  PS (values p) (defaults p) (errs p) b (currentAdminId p) (error p) (errorMessage p)
     (isCheckingTitle p) (titleExists p) (submitButtonEnabled p) (timers p) (inflight p)
     (now p) (next_query p) (issued p) (navigated p).
Definition setCurrentAdminId (a : option Z) (p : PageState) : PageState :=
  PS (values p) (defaults p) (errs p) (isLoading p) a (error p) (errorMessage p)
     (isCheckingTitle p) (titleExists p) (submitButtonEnabled p) (timers p) (inflight p)
     (now p) (next_query p) (issued p) (navigated p).
Definition setError (e : option page_error) (p : PageState) : PageState :=
  PS (values p) (defaults p) (errs p) (isLoading p) (currentAdminId p) e (errorMessage p)
     (isCheckingTitle p) (titleExists p) (submitButtonEnabled p) (timers p) (inflight p)
     (now p) (next_query p) (issued p) (navigated p).
Definition setErrorMessage (m : option string) (p : PageState) : PageState :=
  PS (values p) (defaults p) (errs p) (isLoading p) (currentAdminId p) (error p) m
     (isCheckingTitle p) (titleExists p) (submitButtonEnabled p) (timers p) (inflight p)
     (now p) (next_query p) (issued p) (navigated p).
Definition setIsCheckingTitle (b : bool) (p : PageState) : PageState :=
  PS (values p) (defaults p) (errs p) (isLoading p) (currentAdminId p) (error p) (errorMessage p)
     b (titleExists p) (submitButtonEnabled p) (timers p) (inflight p)
     (now p) (next_query p) (issued p) (navigated p).
Definition setTitleExists (b : bool) (p : PageState) : PageState :=
  PS (values p) (defaults p) (errs p) (isLoading p) (currentAdminId p) (error p) (errorMessage p)
     (isCheckingTitle p) b (submitButtonEnabled p) (timers p) (inflight p)
     (now p) (next_query p) (issued p) (navigated p).
Definition setSubmitButtonEnabled (b : bool) (p : PageState) : PageState :=
  PS (values p) (defaults p) (errs p) (isLoading p) (currentAdminId p) (error p) (errorMessage p)
     (isCheckingTitle p) (titleExists p) b (timers p) (inflight p)
     (now p) (next_query p) (issued p) (navigated p).
Definition set_sched (ts : list timer) (qs : list query) (t nq : nat) (iss : list string)
    (p : PageState) : PageState :=
  PS (values p) (defaults p) (errs p) (isLoading p) (currentAdminId p) (error p) (errorMessage p)
     (isCheckingTitle p) (titleExists p) (submitButtonEnabled p) ts qs t nq iss (navigated p).
Definition routerPush (p : PageState) : PageState :=
  PS (values p) (defaults p) (errs p) (isLoading p) (currentAdminId p) (error p) (errorMessage p)
     (isCheckingTitle p) (titleExists p) (submitButtonEnabled p) (timers p) (inflight p)
     (now p) (next_query p) (issued p) true.

(** The state on mount (lines 142-149 and 199-209): loading, no admin,
    no error, the button off, nothing scheduled. *)
Definition initial (currentHour currentMinute : nat) (offsetInMinutes : Z) : PageState :=
  let d := defaultValues currentHour currentMinute offsetInMinutes in
  PS d d 0 true None None None false false false [] [] 0 0 [] false.

(** [page_simpl] reduces the projections of setters, and nothing else:
    a full [simpl] or conversion on nested setters duplicates the record
    at each level. *)
Ltac page_simpl :=
  cbn [values defaults errs isLoading currentAdminId error errorMessage
       isCheckingTitle titleExists submitButtonEnabled timers inflight now
       next_query issued navigated set_values set_errs setIsLoading
       setCurrentAdminId setError setErrorMessage setIsCheckingTitle
       setTitleExists setSubmitButtonEnabled set_sched routerPush] in *.

Lemma isFormValid_true (e : nat) (d c t : bool) :
  isFormValid e d c t = true -> e = 0 /\ d = true /\ c = true /\ t = false.
Proof.
  unfold isFormValid. rewrite !andb_true_iff, negb_true_iff, Nat.eqb_eq. tauto.
Qed.

End AddEventPage.
