(* ===== verification/Schema.v ===== *)
(** * EventSchema: the zod schema of the add-event form

    [EventSchema] (src/app/addEvent/page.tsx, lines 99-136) validates the
    form values and produces the data [onSubmit] receives.  A zod string
    schema runs its checks in the order they are written, on the value as
    it is at that point: [.min(1)] and [.regex(...)] look at the raw
    input, then [.trim()] and [.toLowerCase()] change it.  Every failed
    check adds an issue; [zodResolver] keeps the first issue of each
    field, and the form's [errors] object has one key per failing field.

    The theorems show that the title and slug the schema outputs are
    trimmed and lower-case; that the title the watcher checks for
    uniqueness is the title the schema outputs; that every non-empty
    derived slug passes the slug schema; and that a title of white space
    only passes, and becomes the empty string. *)

From Stdlib Require Import Ascii String List Bool Arith ZArith Lia.
From S2P Require Import Prelude Slug TimeComposer Page.
Import ListNotations.
Local Open Scope string_scope.

Module EventSchema.
Import AddEventPage SlugDeriver.

(** A check of a zod string schema. *)
Inductive str_check : Type :=
| Min (n : nat) (message : string)
| Regex (test : string -> bool) (message : string)
| Trim
| ToLowerCase.

(** zod's [ZodString] checks, in order: the value they leave and the
    messages of the failed ones. *)
Fixpoint run_checks (cs : list str_check) (data : string) (issues : list string)
    : string * list string :=
  match cs with
  | [] => (data, issues)
  | Min n msg :: r =>
      run_checks r data (if Nat.ltb (String.length data) n then issues ++ [msg] else issues)
  | Regex test msg :: r =>
      run_checks r data (if test data then issues else issues ++ [msg])
  | Trim :: r => run_checks r (trim data) issues
  | ToLowerCase :: r => run_checks r (to_lower data) issues
  end.

(** [z.string({ required_error })] followed by its checks: the output
    value, or the issues. *)
Definition zstring (required_error : string) (cs : list str_check) (v : option string)
    : string + list string :=
  match v with
  | None => inr [required_error]
  | Some s =>
      match run_checks cs s [] with
      | (d, []) => inl d
      | (_, issues) => inr issues
      end
  end.

(** [z.enum(values, { message })]: one message for every failure. *)
Definition zenum (vals : list string) (message : string) (v : option string)
    : string + list string :=
  match v with
  | Some s => if existsb (String.eqb s) vals then inl s else inr [message]
  | None => inr [message]
  end.

(** A regex [/^[C]+$/] for a character class [C]. *)
Definition full_match (cls : ascii -> bool) (s : string) : bool :=
  negb (String.eqb s EmptyString) && sforall cls s.

(** The class of the title regex: letters, digits, [\s], the characters
    [&@.,_-'] and the double quote (code 34). *)
Definition title_class (c : ascii) : bool :=
  is_upper c || is_lower c || is_digit c || is_js_space c ||
  existsb (Ascii.eqb c) ["&"; "@"; "."; ","; "_"; "-"; "'"; ascii_of_nat 34]%char.

(** The class [[a-zA-Z0-9\-]] of the slug regex. *)
Definition slug_class (c : ascii) : bool :=
  is_upper c || is_lower c || is_digit c || is_hyphen c.

Definition title_checks : list str_check :=
  [Min 1 "Event name must be at least 1 character.";
   Regex (full_match title_class)
     "Input must contain only letters, numbers, spaces, &, @, ., _, or -, single quotes, or double quotes";
   Trim; ToLowerCase].

Definition slug_checks : list str_check :=
  [Min 1 "Event slug must be at least 1 character.";
   Regex (full_match slug_class) "Input must contain only letters, numbers, or -";
   Trim; ToLowerCase].

(** The fields of [EventSchema] (lines 100-135). *)
Definition eventTitle_schema : option string -> string + list string :=
  zstring "Please enter an event name." title_checks.
Definition eventSlug_schema : option string -> string + list string :=
  zstring "Please enter slug for the event url." slug_checks.
Definition eventDate_schema (v : option Z) : Z + list string :=
  match v with Some d => inl d | None => inr ["A date for this event is required."] end.
Definition eventTimeHour_schema : option string -> string + list string :=
  zenum TimeComposer.hours "A time for this event is required.".
Definition eventTimeMin_schema : option string -> string + list string :=
  zenum TimeComposer.mins "A time for this event is required.".
Definition eventTimeAMPM_schema : option string -> string + list string :=
  zenum ["AM"; "PM"] "Please select AM or PM.".
Definition eventTimezone_schema (v : option string) : string + list string :=
  zstring "The timezone for this event is required." [] v.

(** The validated data, [z.infer<typeof EventSchema>]. *)
Record FormData : Type := FormDataOf {
  fd_title : string;
  fd_slug : string;
  fd_date : Z;
  fd_hour : string;
  fd_min : string;
  fd_ampm : string;
  fd_timezone : string
}.

(** The resolver's error of one field: its first issue. *)
Definition field_error {A : Type} (f : field) (r : A + list string) : list (field * string) :=
  match r with
  | inr (m :: _) => [(f, m)]
  | _ => []
  end.

(** [zodResolver(EventSchema)]: the data, or the [errors] object as a list
    of (field, message). *)
Definition EventSchema_parse (v : FormValues) : FormData + list (field * string) :=
  let t := eventTitle_schema (eventTitle v) in
  let s := eventSlug_schema (eventSlug v) in
  let d := eventDate_schema (eventDate v) in
  let h := eventTimeHour_schema (eventTimeHour v) in
  let mi := eventTimeMin_schema (eventTimeMin v) in
  let a := eventTimeAMPM_schema (eventTimeAMPM v) in
  let z := eventTimezone_schema (eventTimezone v) in
  match t, s, d, h, mi, a, z with
  | inl t', inl s', inl d', inl h', inl mi', inl a', inl z' =>
      inl (FormDataOf t' s' d' h' mi' a' z')
  | _, _, _, _, _, _, _ =>
      inr (field_error FTitle t ++ field_error FSlug s ++ field_error FDate d ++
           field_error FHour h ++ field_error FMin mi ++ field_error FAMPM a ++
           field_error FTz z)%list
  end.

(** ** Lemmas *)

Section StdChecks.
Context (required_error m1 m2 : string) (test : string -> bool).

Let std := [Min 1 m1; Regex test m2; Trim; ToLowerCase].

(** The four checks of the title and slug schemas accept exactly the
    non-empty inputs matching the regex, and output them trimmed and
    lower-cased. *)
Lemma std_checks_spec (s : string) :
  zstring required_error std (Some s) =
  if negb (String.eqb s EmptyString) && test s then inl (to_lower (trim s))
  else inr (snd (run_checks std s [])).
Proof.
  unfold zstring, std. cbn [run_checks].
  destruct s as [|c s']; cbn [String.length String.eqb negb andb Nat.ltb Nat.leb].
  - destruct (test EmptyString); reflexivity.
  - destruct (test (String c s')); reflexivity.
Qed.

Lemma std_checks_inl (s d : string) :
  zstring required_error std (Some s) = inl d ->
  d = to_lower (trim s) /\ s <> EmptyString /\ test s = true.
Proof.
  rewrite std_checks_spec.
  destruct (String.eqb_spec s EmptyString), (test s) eqn:E; cbn; intros H; try discriminate.
  injection H as <-. auto.
Qed.

End StdChecks.

Lemma to_lower_trim_normal (s : string) :
  trim (to_lower (trim s)) = to_lower (trim s) /\
  to_lower (to_lower (trim s)) = to_lower (trim s).
Proof. rewrite trim_to_lower, trim_idem, to_lower_idem. auto. Qed.

(** What a successful parse says of each field. *)
Lemma EventSchema_parse_inl (v : FormValues) (fd : FormData) :
  EventSchema_parse v = inl fd ->
  eventTitle_schema (eventTitle v) = inl (fd_title fd) /\
  eventSlug_schema (eventSlug v) = inl (fd_slug fd) /\
  eventDate_schema (eventDate v) = inl (fd_date fd) /\
  eventTimeHour_schema (eventTimeHour v) = inl (fd_hour fd) /\
  eventTimeMin_schema (eventTimeMin v) = inl (fd_min fd) /\
  eventTimeAMPM_schema (eventTimeAMPM v) = inl (fd_ampm fd) /\
  eventTimezone_schema (eventTimezone v) = inl (fd_timezone fd).
Proof.
  unfold EventSchema_parse.
  destruct (eventTitle_schema _), (eventSlug_schema _), (eventDate_schema _),
    (eventTimeHour_schema _), (eventTimeMin_schema _), (eventTimeAMPM_schema _),
    (eventTimezone_schema _); intros H; try discriminate.
  injection H as <-. cbn. repeat split.
Qed.

(** A failed parse reports at least one field. *)
Lemma EventSchema_parse_inr (v : FormValues) (es : list (field * string)) :
  EventSchema_parse v = inr es -> es <> [].
Proof.
  unfold EventSchema_parse, eventTitle_schema, eventSlug_schema, eventTimezone_schema,
    zstring, eventTimeHour_schema, eventTimeMin_schema, eventTimeAMPM_schema, zenum,
    eventDate_schema.
  destruct (eventTitle v) as [t|]; [|intros H; injection H as <-; discriminate].
  destruct (run_checks title_checks t []) as [? [|m1 ?]];
    [|intros H; injection H as <-; discriminate].
  destruct (eventSlug v) as [sl|]; [|intros H; injection H as <-; discriminate].
  destruct (run_checks slug_checks sl []) as [? [|m2 ?]];
    [|intros H; injection H as <-; discriminate].
  destruct (eventDate v); [|intros H; injection H as <-; discriminate].
  destruct (eventTimeHour v) as [h|]; [destruct existsb|]; try (intros H; injection H as <-; discriminate).
  destruct (eventTimeMin v) as [mi|]; [destruct existsb|]; try (intros H; injection H as <-; discriminate).
  destruct (eventTimeAMPM v) as [a|]; [destruct existsb|]; try (intros H; injection H as <-; discriminate).
  destruct (eventTimezone v) as [tz|]; [|intros H; injection H as <-; discriminate].
  cbn. discriminate.
Qed.

Lemma slug_char_class (c : ascii) : slug_char c = true -> slug_class c = true.
Proof. unfold slug_char, slug_class. destruct (is_upper c), (is_lower c), (is_digit c), (is_hyphen c); auto. Qed.

Lemma title_class_space (c : ascii) : is_js_space c = true -> title_class c = true.
Proof. unfold title_class. intros H. rewrite H. rewrite !orb_true_r. reflexivity. Qed.

Lemma trim_start_spaces (s : string) : sforall is_js_space s = true -> trim_start s = EmptyString.
Proof.
  induction s as [|c s IH]; [reflexivity|]. cbn [sforall trim_start].
  destruct (is_js_space c); [exact IH | discriminate].
Qed.

(** ** The form's defaults *)

(** A schema result that accepts [x] unchanged. *)
Definition accepts (r : string + list string) (x : string) : bool :=
  match r with inl y => String.eqb y x | inr _ => false end.

Lemma accepts_inl (r : string + list string) (x : string) : accepts r x = true -> r = inl x.
Proof. destruct r as [y|]; cbn; [intros Hy; apply String.eqb_eq in Hy; subst; reflexivity | discriminate]. Qed.

(** The default time fields of a page mounted at [h:m] pass their enums,
    and the 12-hour hour lies in 1..12. *)
Lemma default_time_fields (h m : nat) :
  h < 24 -> m < 60 ->
  1 <= TimeComposer.hourIn12 h <= 12 /\
  eventTimeHour_schema (Some (show_nat (TimeComposer.hourIn12 h))) =
    inl (show_nat (TimeComposer.hourIn12 h)) /\
  eventTimeMin_schema (Some (TimeComposer.minuteString m)) = inl (TimeComposer.minuteString m) /\
  eventTimeAMPM_schema (Some (TimeComposer.ampm h)) = inl (TimeComposer.ampm h).
Proof.
  intros Hh Hm.
  pose proof (nat_forall_lt (fun h => Nat.leb 1 (TimeComposer.hourIn12 h) &&
    Nat.leb (TimeComposer.hourIn12 h) 12 &&
    accepts (eventTimeHour_schema (Some (show_nat (TimeComposer.hourIn12 h))))
            (show_nat (TimeComposer.hourIn12 h)) &&
    accepts (eventTimeAMPM_schema (Some (TimeComposer.ampm h))) (TimeComposer.ampm h))
    24 ltac:(vm_compute; reflexivity) h Hh) as Hhour.
  pose proof (nat_forall_lt (fun m => accepts (eventTimeMin_schema (Some (TimeComposer.minuteString m)))
    (TimeComposer.minuteString m)) 60 ltac:(vm_compute; reflexivity) m Hm) as Hmin.
  cbv beta in Hhour, Hmin.
  apply andb_prop in Hhour as [Hhour Ha]. apply andb_prop in Hhour as [Hhour Hs].
  apply andb_prop in Hhour as [H1 H2]. apply Nat.leb_le in H1, H2.
  repeat split; try lia; apply accepts_inl; assumption.
Qed.

(** What the resolver reports on the untouched form. *)
Definition default_errors : list (field * string) :=
  [(FTitle, "Event name must be at least 1 character.");
   (FSlug, "Event slug must be at least 1 character.");
   (FDate, "A date for this event is required.")].

(** ** Properties *)

(** C29: the title and the slug a successful parse gives [onSubmit] are
    trimmed and lower-case: trimming or lower-casing them again changes
    nothing. *)
Theorem parse_output_normalised (v : FormValues) (fd : FormData) :
  EventSchema_parse v = inl fd ->
  trim (fd_title fd) = fd_title fd /\ to_lower (fd_title fd) = fd_title fd /\
  trim (fd_slug fd) = fd_slug fd /\ to_lower (fd_slug fd) = fd_slug fd.
Proof.
  intros H. apply EventSchema_parse_inl in H as (Ht & Hs & _).
  destruct (eventTitle v) as [t|]; [|discriminate].
  destruct (eventSlug v) as [sl|]; [|discriminate].
  apply std_checks_inl in Ht as (-> & _), Hs as (-> & _).
  destruct (to_lower_trim_normal t), (to_lower_trim_normal sl). auto.
Qed.

(** C30: the title [onSubmit] inserts is the key the title watcher looked
    up ([value.eventTitle.toLowerCase().trim()], line 240) for the same
    raw title, so the uniqueness check and the stored row agree. *)
Theorem parsed_title_is_checked_key (v : FormValues) (fd : FormData) (t : string) :
  EventSchema_parse v = inl fd -> eventTitle v = Some t ->
  fd_title fd = trim (to_lower t).
Proof.
  intros H Ht. apply EventSchema_parse_inl in H as (H & _). rewrite Ht in H.
  apply std_checks_inl in H as (-> & _). symmetry. apply trim_to_lower.
Qed.

(** C31: every non-empty slug [generateSlug] derives from a title passes
    the slug schema unchanged. *)
Theorem derived_slug_passes_schema (t : string) :
  SlugDeriver.generateSlug t <> EmptyString ->
  eventSlug_schema (Some (SlugDeriver.generateSlug t)) = inl (SlugDeriver.generateSlug t).
Proof.
  intros Hne. unfold eventSlug_schema, slug_checks. rewrite std_checks_spec.
  pose proof (generateSlug_chars_aux t) as Hc.
  destruct (String.eqb_spec (generateSlug t) EmptyString) as [E|_]; [contradiction|].
  unfold full_match. cbn [negb andb].
  destruct (String.eqb_spec (generateSlug t) EmptyString) as [E|_]; [contradiction|].
  rewrite (sforall_impl _ _ _ slug_char_class Hc). cbn [negb andb].
  rewrite trim_id by exact (sforall_impl _ _ _ slug_char_not_space Hc).
  unfold to_lower. rewrite (smap_id slug_char); [reflexivity| |exact Hc].
  intros c h. apply Ascii.eqb_eq, slug_char_lower, h.
Qed.

(** C32: a title of white space only passes the title schema: [.min(1)]
    and [.regex] look at the raw value, and [.trim()] afterwards turns it
    into the empty string. *)
Theorem blank_title_accepted (t : string) :
  t <> EmptyString -> sforall is_js_space t = true ->
  eventTitle_schema (Some t) = inl EmptyString.
Proof.
  intros Hne Hsp. unfold eventTitle_schema, title_checks. rewrite std_checks_spec.
  unfold full_match. destruct (String.eqb_spec t EmptyString) as [E|_]; [contradiction|].
  rewrite (sforall_impl _ _ _ title_class_space Hsp). cbn [negb andb].
  unfold trim. rewrite trim_start_spaces by exact Hsp. reflexivity.
Qed.

(** Bounds of the form's defaults: for every mount time [h:m] of a
    day and every timezone offset, the 12-hour default hour lies in 1..12
    and the default hour, minute, AM/PM and timezone all pass the schema,
    so the untouched form fails on exactly the title, the slug and the
    date. *)
Theorem defaults_parse_errors (h m : nat) (o : Z) :
  h < 24 -> m < 60 ->
  1 <= TimeComposer.hourIn12 h <= 12 /\
  EventSchema_parse (defaultValues h m o) = inr default_errors.
Proof.
  intros Hh Hm. destruct (default_time_fields h m Hh Hm) as (Hb & Hhr & Hmin & Hap).
  split; [exact Hb|]. unfold EventSchema_parse, defaultValues.
  cbn [eventTitle eventSlug eventDate eventTimeHour eventTimeMin eventTimeAMPM eventTimezone].
  rewrite Hhr, Hmin, Hap. reflexivity.
Qed.

(** ** Concrete runs *)

Definition demo_values : FormValues :=
  FV (Some "  Board Games Night ") (Some "board-games-night") (Some 20000%Z)
     (Some "7") (Some "30") (Some "PM") (Some "America/New_York").

Definition demo_data : FormData :=
  FormDataOf "board games night" "board-games-night" 20000 "7" "30" "PM" "America/New_York".

Lemma demo_parse : EventSchema_parse demo_values = inl demo_data.
Proof. vm_compute. reflexivity. Qed.

Lemma parse_output_normalised_witness :
  EventSchema_parse demo_values = inl demo_data /\
  (trim (fd_title demo_data) = fd_title demo_data /\
   to_lower (fd_title demo_data) = fd_title demo_data /\
   trim (fd_slug demo_data) = fd_slug demo_data /\
   to_lower (fd_slug demo_data) = fd_slug demo_data).
Proof. split; [exact demo_parse | exact (parse_output_normalised demo_values demo_data demo_parse)]. Defined.

Lemma parsed_title_is_checked_key_witness :
  (EventSchema_parse demo_values = inl demo_data /\
   eventTitle demo_values = Some "  Board Games Night ") /\
  fd_title demo_data = trim (to_lower "  Board Games Night ").
Proof.
  split; [split; [exact demo_parse | reflexivity]|].
  exact (parsed_title_is_checked_key demo_values demo_data "  Board Games Night "
           demo_parse eq_refl).
Defined.

Lemma demo_slug_nonempty : SlugDeriver.generateSlug "Board Games Night" <> EmptyString.
Proof. intros H. vm_compute in H. discriminate H. Qed.

Lemma derived_slug_passes_schema_witness :
  SlugDeriver.generateSlug "Board Games Night" <> EmptyString /\
  eventSlug_schema (Some (SlugDeriver.generateSlug "Board Games Night")) =
    inl (SlugDeriver.generateSlug "Board Games Night").
Proof.
  split; [exact demo_slug_nonempty|].
  exact (derived_slug_passes_schema "Board Games Night" demo_slug_nonempty).
Defined.

Lemma blank_title_accepted_witness :
  ("   " <> EmptyString /\ sforall is_js_space "   " = true) /\
  eventTitle_schema (Some "   ") = inl EmptyString.
Proof.
  assert (Hne : "   " <> EmptyString) by discriminate.
  assert (Hsp : sforall is_js_space "   " = true) by reflexivity.
  split; [split; assumption|]. exact (blank_title_accepted "   " Hne Hsp).
Defined.

Lemma defaults_parse_errors_witness :
  (15 < 24 /\ 30 < 60) /\
  (1 <= TimeComposer.hourIn12 15 <= 12 /\
   EventSchema_parse (defaultValues 15 30 300) = inr default_errors).
Proof.
  assert (Hh : 15 < 24) by lia. assert (Hm : 30 < 60) by lia.
  split; [split; assumption|]. exact (defaults_parse_errors 15 30 300 Hh Hm).
Defined.

End EventSchema.
