(* ===== verification/Checker.v ===== *)
(** * UniquenessChecker and ValidationGate: the title watcher

    The [useEffect] of lines 221-308 subscribes a callback to
    react-hook-form's [watch].  On a title change the callback clears the
    errors, marks a check in progress, derives the slug and writes it with
    [form.setValue], which notifies the same callback for the slug field,
    and schedules [checkEventTitle] 500 ms later.  On any other change it
    recomputes the button's [submitButtonEnabled].  [checkEventTitle]
    queries the store for the normalised title and, when the answer comes,
    writes [titleExists], [submitButtonEnabled] and [isCheckingTitle].

    Three details of the code are modelled as written:
    - [watch] ignores its callback's return value, so the
      [() => clearTimeout(timeoutId)] of line 280 is never called: every
      title change keeps its own timer ([setTimeout500]);
    - the callback is created once, on mount, so the [titleExists] it reads
      on line 301 is the value of the first render, [false]
      ([closure_titleExists]);
    - an answer is applied when it arrives, whatever the title is by then.

    The page evolves by [step] on [event]s: a change of a field, an update
    of the validation errors by the resolver, time passing (due timers fire
    in the order they were set), and the store answering a query.
    Besides the claims on single runs, the file proves invariants of the
    reachable pages (the gate, the ids of queries in flight) and the
    liveness of the check: [settle] (500 ms, then every answer) ends it
    from every page reached while the store answers. *)

From Stdlib Require Import String List Bool Arith ZArith Lia.
From S2P Require Import Prelude Slug Store Page.
Import ListNotations.
Local Open Scope string_scope.
Local Open Scope list_scope.

Module TitleWatcher.
Import Store AddEventPage SlugDeriver.

Definition opt_default (d : string) (v : option string) : string :=
  match v with Some s => s | None => d end.

(** The [titleExists] seen by the subscribed callback: the initial
    [useState(false)] of line 148, captured when the effect ran. *)
Definition closure_titleExists : bool := false.

(** The branch for a field other than the title (lines 283-304). *)
Definition onOtherChange (p : PageState) : PageState :=
  let fv := values p in
  setSubmitButtonEnabled
    (isFormValid (errs p) (isDirty (defaults p) fv) (isFormComplete fv) closure_titleExists) p.

(** [form.setValue('eventSlug', slug)] and the watch notification it
    sends for the slug field. *)
Definition setValue_eventSlug (slug : string) (p : PageState) : PageState :=
  onOtherChange (set_values (set_field FSlug (IText slug) (values p)) p).

(** [setTimeout(checkEventTitle, 500)]; the timer keeps the [value] the
    callback received. *)
Definition setTimeout500 (value : FormValues) (p : PageState) : PageState :=
  set_sched (timers p ++ [Timer (now p + 500) value]) (inflight p) (now p)
            (next_query p) (issued p) p.

(** The title branch, up to the end of the callback (lines 223-280). *)
Definition onTitleChange (value : FormValues) (p : PageState) : PageState :=
  let p1 := setIsCheckingTitle true (setTitleExists false
              (setErrorMessage None (setError None p))) in
  let slug := generateSlug (opt_default "" (eventTitle value)) in
  let p2 := setValue_eventSlug slug p1 in
  setTimeout500 value p2.

(** The watch callback: [name] is the field that changed, [value] the
    form values. *)
Definition watchCallback (name : field) (value : FormValues) (p : PageState) : PageState :=
  if field_eqb name FTitle then onTitleChange value p else onOtherChange p.

(** [field.onChange(x)]: the form stores the value, then notifies the
    watchers. *)
Definition onChange (f : field) (x : input) (p : PageState) : PageState :=
  let p' := set_values (set_field f x (values p)) p in
  watchCallback f (values p') p'.

(** [checkEventTitle] up to its [await] (lines 234-241 and 271-275): with
    a title, mark the check and send the query for
    [value.eventTitle.toLowerCase().trim()]; without one, clear the
    flags. *)
Definition checkEventTitle_start (value : FormValues) (p : PageState) : PageState :=
  if truthy (eventTitle value) then
    let t := trim (to_lower (opt_default "" (eventTitle value))) in
    setIsCheckingTitle true
      (set_sched (timers p) (inflight p ++ [Query (next_query p) t]) (now p)
                 (S (next_query p)) (issued p ++ [t]) p)
  else
    setIsCheckingTitle false (setSubmitButtonEnabled false (setTitleExists false p)).

(** [checkEventTitle] after its [await] (lines 243-270).  [res] is the
    store's answer: [None] for an error (logged, then [return]), [Some b]
    for "a row with this title exists". *)
Definition checkEventTitle_finish (q : query) (res : option bool) (p : PageState) : PageState :=
  let p0 := set_sched (timers p) (filter (fun q' => negb (Nat.eqb (q_id q') (q_id q))) (inflight p))
                      (now p) (next_query p) (issued p) p in
  match res with
  | None => p0
  | Some exists_ =>
      let p1 := setTitleExists exists_ p0 in
      let fv := values p1 in
      let valid := isFormValid (errs p1) (isDirty (defaults p1) fv) (isFormComplete fv) exists_ in
      setIsCheckingTitle false (setSubmitButtonEnabled valid p1)
  end.

(** Fire the due timers in order. *)
Fixpoint fire_all (ts : list timer) (p : PageState) : PageState :=
  match ts with
  | [] => p
  | tm :: r => fire_all r (checkEventTitle_start (t_value tm) p)
  end.

Definition advance (dt : nat) (p : PageState) : PageState :=
  let t := now p + dt in
  let due := filter (fun tm => Nat.leb (t_due tm) t) (timers p) in
  let rest := filter (fun tm => negb (Nat.leb (t_due tm) t)) (timers p) in
  fire_all due (set_sched rest (inflight p) t (next_query p) (issued p) p).

Definition find_query (id : nat) (qs : list query) : option query :=
  find (fun q => Nat.eqb (q_id q) id) qs.

(** What happens to the page. *)
Inductive event : Type :=
| Change (f : field) (x : input)   (* the user edits a field *)
| Errors (n : nat)                 (* the resolver updates formState.errors *)
| Advance (dt : nat)               (* [dt] milliseconds pass *)
| Answer (id : nat) (reach : bool). (* the store answers query [id] *)

Section Steps.
Context {S : Type} `{RecordStore S}.

(** One event, the store being [st] when queries are answered. *)
Definition step (st : S) (e : event) (p : PageState) : PageState :=
  match e with
  | Change f x => onChange f x p
  | Errors n => set_errs n p
  | Advance dt => advance dt p
  | Answer id reach =>
      match find_query id (inflight p) with
      | None => p
      | Some q =>
          checkEventTitle_finish q
            (if reach then Some (exists_title st (q_title q)) else None) p
      end
  end.

Fixpoint run (st : S) (es : list event) (p : PageState) : PageState :=
  match es with
  | [] => p
  | e :: es' => run st es' (step st e p)
  end.
End Steps.

(** ** Reachable pages *)

Section Reach.
Context {S : Type} `{RecordStore S}.

(** The pages reachable from the page on mount. *)
Inductive reachable (st : S) : PageState -> Prop :=
| reach_init h m o : reachable st (initial h m o)
| reach_step p e : reachable st p -> reachable st (step st e p).

Lemma reachable_run (st : S) (es : list event) (p : PageState) :
  reachable st p -> reachable st (run st es p).
Proof.
  revert p. induction es as [|e es IH]; intros p Hp; simpl; [exact Hp|].
  apply IH. constructor. exact Hp.
Qed.
End Reach.

(** ** Unfolding [run] and [step] *)

Section Unfold.
Context {S : Type} `{RecordStore S} (st : S).

Lemma run_cons (e : event) (es : list event) (p : PageState) :
  run st (e :: es) p = run st es (step st e p).
Proof. reflexivity. Qed.

Lemma step_change (f : field) (x : input) (p : PageState) :
  step st (Change f x) p = onChange f x p.
Proof. reflexivity. Qed.

Lemma step_advance (dt : nat) (p : PageState) : step st (Advance dt) p = advance dt p.
Proof. reflexivity. Qed.

Lemma step_errors (n : nat) (p : PageState) : step st (Errors n) p = set_errs n p.
Proof. reflexivity. Qed.

Lemma step_answer (id : nat) (reach : bool) (p : PageState) :
  step st (Answer id reach) p =
  match find_query id (inflight p) with
  | None => p
  | Some q => checkEventTitle_finish q
                (if reach then Some (exists_title st (q_title q)) else None) p
  end.
Proof. reflexivity. Qed.
End Unfold.

(** ** What each handler does to the schedule *)

Definition norm_title (tm : timer) : string :=
  trim (to_lower (opt_default "" (eventTitle (t_value tm)))).

Definition has_title (tm : timer) : bool := truthy (eventTitle (t_value tm)).

Lemma onChange_title_sched (t : string) (p : PageState) :
  timers (onChange FTitle (IText t) p)
    = timers p ++ [Timer (now p + 500) (set_field FTitle (IText t) (values p))] /\
  issued (onChange FTitle (IText t) p) = issued p /\
  now (onChange FTitle (IText t) p) = now p.
Proof. repeat split. Qed.

Lemma fire_all_sched (ts : list timer) (p : PageState) :
  issued (fire_all ts p) = issued p ++ map norm_title (filter has_title ts) /\
  timers (fire_all ts p) = timers p /\ now (fire_all ts p) = now p /\
  values (fire_all ts p) = values p.
Proof.
  revert p. induction ts as [|tm ts IH]; intros p; simpl.
  - rewrite app_nil_r. repeat split.
  - destruct (IH (checkEventTitle_start (t_value tm) p)) as (Hi & Ht & Hn & Hv).
    rewrite Hi, Ht, Hn, Hv. unfold checkEventTitle_start, has_title.
    destruct (truthy (eventTitle (t_value tm))); simpl;
      rewrite <- ?app_assoc; repeat split.
Qed.

Lemma advance_sched (dt : nat) (p : PageState) :
  issued (advance dt p) =
    issued p ++ map norm_title (filter has_title
                  (filter (fun tm => Nat.leb (t_due tm) (now p + dt)) (timers p))) /\
  timers (advance dt p) = filter (fun tm => negb (Nat.leb (t_due tm) (now p + dt))) (timers p) /\
  now (advance dt p) = now p + dt.
Proof.
  unfold advance. destruct (fire_all_sched
    (filter (fun tm => Nat.leb (t_due tm) (now p + dt)) (timers p))
    (set_sched (filter (fun tm => negb (Nat.leb (t_due tm) (now p + dt))) (timers p))
               (inflight p) (now p + dt) (next_query p) (issued p) p)) as (Hi & Ht & Hn & _).
  rewrite Hi, Ht, Hn. repeat split.
Qed.

(** The typing of titles [t] each followed by a pause of [gap] ms. *)
Fixpoint typing (ts : list (string * nat)) : list event :=
  match ts with
  | [] => []
  | (t, gap) :: r => Change FTitle (IText t) :: Advance gap :: typing r
  end.

(** Pending timers carry a title and fire within 500 ms. *)
Definition timers_ok (p : PageState) : Prop :=
  Forall (fun tm => has_title tm = true /\ t_due tm <= now p + 500) (timers p).

Lemma filter_all_true {A : Type} (f : A -> bool) (l : list A) :
  Forall (fun x => f x = true) l -> filter f l = l.
Proof. induction 1; simpl; [reflexivity|]. rewrite H, IHForall. reflexivity. Qed.

Lemma run_typing_cons {S : Type} `{RecordStore S} (st : S) (t : string) (gap : nat)
    (ts : list (string * nat)) (p : PageState) :
  run st (typing ((t, gap) :: ts)) p
  = run st (typing ts) (advance gap (onChange FTitle (IText t) p)).
Proof.
  change (typing ((t, gap) :: ts)) with (Change FTitle (IText t) :: Advance gap :: typing ts).
  rewrite !run_cons, step_change, step_advance. reflexivity.
Qed.

Lemma typing_count {S : Type} `{RecordStore S} (st : S) (ts : list (string * nat))
    (p : PageState) :
  timers_ok p -> Forall (fun tg => fst tg <> "") ts ->
  timers_ok (run st (typing ts) p) /\
  length (issued (run st (typing ts) p)) + length (timers (run st (typing ts) p))
    = length (issued p) + length (timers p) + length ts.
Proof.
  revert p. induction ts as [|[t gap] ts IH]; intros p Hok Hts; [split; [exact Hok | simpl; lia]|].
  rewrite run_typing_cons.
  inversion Hts as [|tg ts' Ht Hts' Heq]; subst; cbn [fst] in Ht.
  set (p1 := onChange FTitle (IText t) p).
  destruct (onChange_title_sched t p) as (T1 & I1 & N1).
  destruct (advance_sched gap p1) as (I2 & T2 & N2).
  assert (Hok1 : timers_ok p1).
  { unfold timers_ok in *. fold p1 in T1, N1. rewrite T1, N1. apply Forall_app. split.
    - eapply Forall_impl; [|exact Hok]. intros tm [Ha Hb]. split; [exact Ha | lia].
    - repeat constructor. unfold has_title. simpl.
      destruct (String.eqb_spec t ""); [contradiction | reflexivity]. }
  assert (Hok2 : timers_ok (advance gap p1)).
  { unfold timers_ok in *. rewrite T2, N2. apply Forall_filter.
    eapply Forall_impl; [|exact Hok1]. intros tm [Ha Hb]. split; [exact Ha | lia]. }
  destruct (IH (advance gap p1) Hok2 Hts') as [Hok3 Hc]. split; [exact Hok3|].
  rewrite Hc, I2, T2, length_app, length_map.
  rewrite (filter_all_true has_title).
  2:{ apply Forall_filter. eapply Forall_impl; [|exact Hok1]. intros tm [Ha _]. exact Ha. }
  pose proof (length_filter_split (fun tm => Nat.leb (t_due tm) (now p1 + gap)) (timers p1)).
  fold p1 in T1, I1. rewrite T1, length_app in *. rewrite I1. cbn [length] in *. lia.
Qed.

Lemma run_app {S : Type} `{RecordStore S} (st : S) (es1 es2 : list event) (p : PageState) :
  run st (es1 ++ es2) p = run st es2 (run st es1 p).
Proof.
  revert p. induction es1 as [|e es IH]; intros p; [reflexivity|].
  rewrite <- app_comm_cons, !run_cons. apply IH.
Qed.

(** ** The submission gate *)

(** The button is on only for a complete form that differs from its
    defaults. *)
Definition gate_inv (p : PageState) : Prop :=
  submitButtonEnabled p = true ->
  isFormComplete (values p) = true /\ isDirty (defaults p) (values p) = true.

Lemma gate_inv_start (v : FormValues) (p : PageState) :
  gate_inv p -> gate_inv (checkEventTitle_start v p).
Proof.
  unfold gate_inv, checkEventTitle_start. intros Hp.
  destruct (truthy (eventTitle v)); page_simpl; [exact Hp | discriminate].
Qed.

Lemma gate_inv_fire_all (ts : list timer) (p : PageState) :
  gate_inv p -> gate_inv (fire_all ts p).
Proof.
  revert p. induction ts as [|tm ts IH]; intros p Hp; [exact Hp|].
  apply IH, gate_inv_start, Hp.
Qed.

Lemma gate_inv_onOtherChange (p : PageState) : gate_inv (onOtherChange p).
Proof.
  unfold gate_inv, onOtherChange. page_simpl. intros Hv.
  apply isFormValid_true in Hv. tauto.
Qed.

Lemma gate_inv_step {S : Type} `{RecordStore S} (st : S) (e : event) (p : PageState) :
  gate_inv p -> gate_inv (step st e p).
Proof.
  intros Hp. destruct e as [f x | n | dt | id reach].
  - rewrite step_change. unfold onChange, watchCallback.
    destruct (field_eqb f FTitle); [|apply gate_inv_onOtherChange].
    unfold onTitleChange, setTimeout500.
    pose proof (gate_inv_onOtherChange
      (set_values (set_field FSlug (IText (generateSlug
         (opt_default "" (eventTitle (set_field f x (values p))))))
         (values (setIsCheckingTitle true (setTitleExists false (setErrorMessage None
            (setError None (set_values (set_field f x (values p)) p)))))))
         (setIsCheckingTitle true (setTitleExists false (setErrorMessage None
            (setError None (set_values (set_field f x (values p)) p))))))) as Hg.
    unfold setValue_eventSlug. revert Hg. unfold gate_inv. page_simpl. exact (fun h => h).
  - rewrite step_errors. unfold gate_inv in *. page_simpl. exact Hp.
  - rewrite step_advance. unfold advance. apply gate_inv_fire_all.
    unfold gate_inv in *. page_simpl. exact Hp.
  - rewrite step_answer. destruct (find_query id (inflight p)) as [q|]; [|exact Hp].
    unfold checkEventTitle_finish.
    destruct reach; [|unfold gate_inv in *; page_simpl; exact Hp].
    unfold gate_inv. page_simpl. intros Hv. apply isFormValid_true in Hv. tauto.
Qed.

(** ** Query ids *)

(** Every query in flight has an id below [next_query], the id the next
    query will get. *)
Definition ids_fresh (p : PageState) : Prop :=
  Forall (fun q => q_id q < next_query p) (inflight p).

Lemma ids_fresh_start (v : FormValues) (p : PageState) :
  ids_fresh p -> ids_fresh (checkEventTitle_start v p).
Proof.
  unfold ids_fresh, checkEventTitle_start. intros Hp.
  destruct (truthy (eventTitle v)); page_simpl; [|exact Hp].
  apply Forall_app. split.
  - eapply Forall_impl; [|exact Hp]. cbv beta. intros q Hq. lia.
  - constructor; [cbn [q_id]; lia | constructor].
Qed.

Lemma ids_fresh_step {S : Type} `{RecordStore S} (st : S) (e : event) (p : PageState) :
  ids_fresh p -> ids_fresh (step st e p).
Proof.
  intros Hp. destruct e as [f x | n | dt | id reach].
  - rewrite step_change. unfold onChange, watchCallback.
    destruct (field_eqb f FTitle);
      [unfold onTitleChange, setTimeout500, setValue_eventSlug|]; unfold onOtherChange, ids_fresh;
      page_simpl; exact Hp.
  - rewrite step_errors. unfold ids_fresh. page_simpl. exact Hp.
  - rewrite step_advance. unfold advance.
    set (q0 := set_sched _ (inflight p) (now p + dt) (next_query p) (issued p) p).
    assert (H0 : ids_fresh q0) by (unfold q0, ids_fresh; page_simpl; exact Hp).
    clearbody q0. revert q0 H0.
    induction (filter (fun tm => Nat.leb (t_due tm) (now p + dt)) (timers p)) as [|tm ts IH];
      intros q0 H0; [exact H0|]. apply IH, ids_fresh_start, H0.
  - rewrite step_answer. destruct (find_query id (inflight p)) as [q|]; [|exact Hp].
    unfold checkEventTitle_finish, ids_fresh.
    destruct reach; page_simpl; apply Forall_filter; exact Hp.
Qed.

Lemma reachable_ids_fresh {S : Type} `{RecordStore S} (st : S) (p : PageState) :
  reachable st p -> ids_fresh p.
Proof.
  induction 1 as [h m o | p e _ IH]; [constructor | apply ids_fresh_step, IH].
Qed.

(** ** Properties of the title watcher and the gate *)

Section Claims.
Context {S : Type} `{RecordStore S}.

(** C1. The title check is not debounced: however short the pauses
    between keystrokes, once 500 ms have passed after the last one, one
    query has been sent for every title typed (the cleanup returned by the
    watch callback, which would cancel the pending timer, is never
    called). *)
Theorem no_debounce (st : S) (ts : list (string * nat)) (p : PageState) :
  timers p = [] -> Forall (fun tg => fst tg <> "") ts ->
  length (issued (run st (typing ts ++ [Advance 500]) p)) = length (issued p) + length ts.
Proof.
  intros Ht Hts. rewrite run_app, run_cons. cbn [run]. rewrite step_advance.
  assert (Hok : timers_ok p) by (unfold timers_ok; rewrite Ht; constructor).
  destruct (typing_count st ts p Hok Hts) as [Hok' Hc].
  set (q := run st (typing ts) p) in *.
  destruct (advance_sched 500 q) as (I & _ & _). rewrite I, length_app, length_map.
  rewrite (filter_all_true (fun tm => Nat.leb (t_due tm) (now q + 500))).
  2:{ eapply Forall_impl; [|exact Hok']. intros tm [_ Hd]. apply Nat.leb_le, Hd. }
  rewrite (filter_all_true has_title).
  2:{ eapply Forall_impl; [|exact Hok']. intros tm [Ha _]. exact Ha. }
  rewrite Ht in Hc. cbn [length] in Hc. lia.
Qed.

(** C3. A title the store reports as taken keeps [titleExists], but a
    later change of any other field recomputes the button from the
    [titleExists] the callback captured on mount ([false]): with the
    form complete, changed and without errors, the button is then
    enabled as soon as no check is in flight, although the title is
    known to be taken. *)
Theorem other_change_ignores_titleExists (f : field) (x : input) (p : PageState) :
  field_eqb f FTitle = false ->
  isFormComplete (values (onChange f x p)) = true -> errs p = 0 ->
  isDirty (defaults p) (values (onChange f x p)) = true ->
  titleExists (onChange f x p) = titleExists p /\
  disabled (onChange f x p) = isCheckingTitle p.
Proof.
  intros Hf Hc He Hd. revert Hc Hd. unfold onChange, watchCallback. rewrite Hf.
  unfold onOtherChange, disabled. page_simpl. intros Hc Hd.
  rewrite Hc, He, Hd. split; reflexivity.
Qed.

(** C4. Every page reachable from the mounted page has its button
    enabled only when every field is filled in and the values differ
    from the defaults. *)
Theorem enabled_implies_complete (st : S) (p : PageState) :
  reachable st p -> submitButtonEnabled p = true ->
  isFormComplete (values p) = true /\ isDirty (defaults p) (values p) = true.
Proof.
  induction 1 as [h m o | p e Hr IH]; [discriminate|].
  apply (gate_inv_step st e p). exact IH.
Qed.

(** C6. When the store answers a title query with an error, the
    callback only logs it: the page keeps its values, its [titleExists]
    and its flags, so a check in progress keeps the button disabled
    (the error is not taken for "the title is free"). *)
Theorem check_error_keeps_gate (st : S) (p : PageState) (id : nat) :
  values (step st (Answer id false) p) = values p /\
  titleExists (step st (Answer id false) p) = titleExists p /\
  isCheckingTitle (step st (Answer id false) p) = isCheckingTitle p /\
  disabled (step st (Answer id false) p) = disabled p.
Proof.
  rewrite step_answer. destruct (find_query id (inflight p)); [|repeat split].
  unfold checkEventTitle_finish, disabled. page_simpl. repeat split.
Qed.

(** C5. On a reachable page with no timer pending, typing a non-empty
    title, waiting 500 ms and receiving the store's answer to the query
    sent then records whether
    the normalised title exists, ends the check, writes the derived
    slug, and sets the button from the form's validity and that answer. *)
Theorem check_answer_applies (st : S) (p : PageState) (t : string) :
  reachable st p -> timers p = [] -> t <> "" ->
  let p' := run st [Change FTitle (IText t); Advance 500; Answer (next_query p) true] p in
  titleExists p' = exists_title st (trim (to_lower t)) /\
  isCheckingTitle p' = false /\
  eventSlug (values p') = Some (generateSlug t) /\
  submitButtonEnabled p' =
    isFormValid (errs p) (isDirty (defaults p) (values p')) (isFormComplete (values p'))
                (exists_title st (trim (to_lower t))).
Proof.
  intros Hr Ht Hne. pose proof (reachable_ids_fresh st p Hr) as Hq. unfold ids_fresh in Hq.
  cbv zeta. rewrite !run_cons. cbn [run].
  rewrite step_change, step_advance, step_answer.
  unfold advance, onChange, watchCallback, onTitleChange, setTimeout500, setValue_eventSlug,
    onOtherChange. cbn [field_eqb]. page_simpl. rewrite Ht. cbn [app filter t_due].
  rewrite Nat.leb_refl. cbn [filter negb fire_all t_value].
  unfold checkEventTitle_start. cbn [set_field eventTitle].
  assert (Htr : truthy (Some t) = true)
    by (unfold truthy; destruct (String.eqb_spec t ""); [contradiction | reflexivity]).
  rewrite Htr. page_simpl.
  cbn [opt_default].
  assert (Hf : find_query (next_query p)
                 (inflight p ++ [Query (next_query p) (trim (to_lower t))]) =
               Some (Query (next_query p) (trim (to_lower t)))).
  { unfold find_query. rewrite find_app_none.
    - cbn. rewrite Nat.eqb_refl. reflexivity.
    - intros q Hin. rewrite Forall_forall in Hq. apply Nat.eqb_neq.
      specialize (Hq q Hin). lia. }
  rewrite Hf. unfold checkEventTitle_finish. page_simpl. cbn [q_title].
  repeat split.
Qed.
(** C2. Every answer to a query in flight is applied when it arrives,
    whatever title the field holds by then: the values stay as they
    are, [titleExists] becomes the store's answer for the query's own
    title, the check ends and the button is recomputed from that answer.
    No check compares the query with the current title, so an answer for
    an earlier title that arrives last overrides the newer one. *)
Theorem answer_applied_whatever_title (st : S) (p : PageState) (q : query) :
  find_query (q_id q) (inflight p) = Some q ->
  values (step st (Answer (q_id q) true) p) = values p /\
  titleExists (step st (Answer (q_id q) true) p) = exists_title st (q_title q) /\
  isCheckingTitle (step st (Answer (q_id q) true) p) = false /\
  submitButtonEnabled (step st (Answer (q_id q) true) p) =
    isFormValid (errs p) (isDirty (defaults p) (values p)) (isFormComplete (values p))
      (exists_title st (q_title q)).
Proof.
  intros Hq. rewrite step_answer, Hq. unfold checkEventTitle_finish. page_simpl.
  repeat split.
Qed.
End Claims.

(** ** Liveness of the title check *)

Section Live.
Context {S : Type} `{RecordStore S}.

(** An event that is not an answer with an error. *)
Definition answered (e : event) : bool :=
  match e with Answer _ false => false | _ => true end.

(** The pages reachable while the store answers every query. *)
Inductive reachable_ok (st : S) : PageState -> Prop :=
| rok_init h m o : reachable_ok st (initial h m o)
| rok_step p e : reachable_ok st p -> answered e = true -> reachable_ok st (step st e p).

(** The store answers, in order, each of the queries [qs]. *)
Definition answer_all (qs : list query) : list event :=
  map (fun q => Answer (q_id q) true) qs.

(** The page once 500 ms have passed and the store has answered every
    query in flight by then. *)
Definition settle (st : S) (p : PageState) : PageState :=
  let p1 := advance 500 p in run st (answer_all (inflight p1)) p1.

(** A check in progress has a timer or a query pending, and every timer
    is due within 500 ms. *)
Definition idle_inv (p : PageState) : Prop :=
  (isCheckingTitle p = true -> timers p <> [] \/ inflight p <> []) /\
  Forall (fun tm => t_due tm <= now p + 500) (timers p).

End Live.

(** An event that edits the title. *)
Definition title_change (e : event) : bool :=
  match e with Change FTitle _ => true | _ => false end.

Lemma start_inflight (v : FormValues) (p : PageState) :
  inflight (checkEventTitle_start v p) = [] ->
  inflight p = [] /\ isCheckingTitle (checkEventTitle_start v p) = false.
Proof.
  unfold checkEventTitle_start. destruct (truthy (eventTitle v)); page_simpl.
  - intros Hi. apply app_eq_nil in Hi as [_ Hi]. discriminate.
  - intros Hi. split; [exact Hi | reflexivity].
Qed.

(** When no query is in flight after the due timers fire, none was
    before, and the last timer that fired (if any) ended the check. *)
Lemma fire_all_idle (ts : list timer) (p : PageState) :
  inflight (fire_all ts p) = [] ->
  inflight p = [] /\ (ts = [] \/ isCheckingTitle (fire_all ts p) = false).
Proof.
  revert p. induction ts as [|tm ts IH]; intros p Hi; [auto|]. cbn [fire_all] in *.
  destruct (IH _ Hi) as [H0 [->|Hc]].
  - apply start_inflight in H0 as [H0 Hc]. cbn [fire_all]. auto.
  - apply start_inflight in H0 as [H0 _]. auto.
Qed.

Lemma filter_none_negb {A : Type} (f : A -> bool) (l : list A) :
  filter f l = [] -> filter (fun x => negb (f x)) l = l.
Proof.
  induction l as [|x l IH]; cbn [filter]; [reflexivity|].
  destruct (f x); cbn [negb]; [discriminate|]. intros Hf. f_equal. exact (IH Hf).
Qed.

Lemma step_answer_ok_inflight {S : Type} `{RecordStore S} (st : S) (id : nat) (p : PageState) :
  inflight (step st (Answer id true) p) = filter (fun q => negb (Nat.eqb (q_id q) id)) (inflight p) /\
  timers (step st (Answer id true) p) = timers p /\ now (step st (Answer id true) p) = now p.
Proof.
  rewrite step_answer. destruct (find_query id (inflight p)) as [q|] eqn:Ef.
  - apply find_some in Ef as [_ Hq]. apply Nat.eqb_eq in Hq.
    unfold checkEventTitle_finish. page_simpl. rewrite Hq. repeat split.
  - split; [|split; reflexivity]. symmetry. apply filter_all_true, Forall_forall.
    intros q Hin. rewrite (find_none _ _ Ef q Hin). reflexivity.
Qed.

Lemma step_answer_ok_checking {S : Type} `{RecordStore S} (st : S) (id : nat) (p : PageState) :
  (isCheckingTitle p = false \/ exists q, In q (inflight p) /\ q_id q = id) ->
  isCheckingTitle (step st (Answer id true) p) = false.
Proof.
  intros Hp. rewrite step_answer. destruct (find_query id (inflight p)) as [q|] eqn:Ef.
  - unfold checkEventTitle_finish. page_simpl. reflexivity.
  - destruct Hp as [Hp | (q & Hin & Hq)]; [exact Hp|].
    pose proof (find_none _ _ Ef q Hin) as Hn. cbn beta in Hn.
    rewrite Hq, Nat.eqb_refl in Hn. discriminate.
Qed.

Lemma filter_negb_all {A : Type} (f : A -> bool) (l : list A) :
  Forall (fun x => f x = true) l -> filter (fun x => negb (f x)) l = [].
Proof. induction 1 as [|x l Hx _ IH]; cbn [filter]; [reflexivity|]. rewrite Hx. exact IH. Qed.

Section LiveFacts.
Context {S : Type} `{RecordStore S} (st : S).

(** Answering every query whose id is among [qs] empties the queries in
    flight and leaves the timers. *)
Lemma answer_all_run (qs : list query) (p : PageState) :
  Forall (fun q => In (q_id q) (map q_id qs)) (inflight p) ->
  inflight (run st (answer_all qs) p) = [] /\ timers (run st (answer_all qs) p) = timers p.
Proof.
  revert p. induction qs as [|q qs IH]; intros p Hq.
  - cbn [answer_all map run]. split; [|reflexivity].
    destruct (inflight p) as [|q l]; [reflexivity|].
    inversion Hq as [|? ? Hin]. contradiction.
  - cbn [answer_all map]. rewrite run_cons. fold (answer_all qs).
    destruct (step_answer_ok_inflight st (q_id q) p) as (Hi & Ht & _).
    destruct (IH (step st (Answer (q_id q) true) p)) as [Hi' Ht'].
    + rewrite Hi. apply Forall_forall. intros q' Hin'. apply filter_In in Hin' as [Hin' Hne].
      rewrite Forall_forall in Hq. destruct (Hq q' Hin') as [Heq | Hin]; [|exact Hin].
      rewrite Heq, Nat.eqb_refl in Hne. discriminate.
    + rewrite Ht in Ht'. auto.
Qed.

Lemma answer_all_keep (qs : list query) (p : PageState) :
  isCheckingTitle p = false -> isCheckingTitle (run st (answer_all qs) p) = false.
Proof.
  revert p. induction qs as [|q qs IH]; intros p Hp; [exact Hp|].
  cbn [answer_all map]. rewrite run_cons. apply IH, step_answer_ok_checking. left. exact Hp.
Qed.

(** Every event but a failed answer keeps [idle_inv]. *)
Lemma idle_inv_step (e : event) (p : PageState) :
  answered e = true -> idle_inv p -> idle_inv (step st e p).
Proof.
  intros Ha [Hc Hd]. destruct e as [f x | n | dt | id [|]]; try discriminate.
  - rewrite step_change. unfold onChange, watchCallback.
    destruct (field_eqb f FTitle).
    + unfold onTitleChange, setTimeout500, setValue_eventSlug, onOtherChange, idle_inv.
      page_simpl. split.
      * intros _. left. intros He. apply app_eq_nil in He as [_ He]. discriminate.
      * apply Forall_app. split; [exact Hd|]. constructor; [cbn [t_due]; lia | constructor].
    + unfold onOtherChange, idle_inv. page_simpl. split; assumption.
  - rewrite step_errors. unfold idle_inv. page_simpl. split; assumption.
  - rewrite step_advance. unfold advance, idle_inv.
    set (due := filter (fun tm => Nat.leb (t_due tm) (now p + dt)) (timers p)).
    set (rest := filter (fun tm => negb (Nat.leb (t_due tm) (now p + dt))) (timers p)).
    set (q0 := set_sched rest (inflight p) (now p + dt) (next_query p) (issued p) p).
    destruct (fire_all_sched due q0) as (_ & Ht & Hn & _). rewrite Ht, Hn. split.
    + intros Hc'. destruct (inflight (fire_all due q0)) eqn:Ei; [|right; discriminate].
      apply fire_all_idle in Ei as [Ei [Hdue | Hf]]; [|congruence].
      unfold q0 in Ei. page_simpl. rewrite Hdue in Hc'. cbn [fire_all] in Hc'.
      unfold q0 in Hc'. page_simpl.
      destruct (Hc Hc') as [Ht0 | Hi0]; [|contradiction].
      left. unfold q0. page_simpl. unfold rest. rewrite filter_none_negb by exact Hdue. exact Ht0.
    + unfold q0. page_simpl. apply Forall_filter. eapply Forall_impl; [|exact Hd].
      cbn beta. intros tm Htm. lia.
  - rewrite step_answer. destruct (find_query id (inflight p)) as [q|]; [|split; assumption].
    unfold checkEventTitle_finish, idle_inv. page_simpl. split; [discriminate | exact Hd].
Qed.

Lemma reachable_ok_idle (p : PageState) : reachable_ok st p -> idle_inv p.
Proof.
  induction 1 as [h m o | p e _ IH He].
  - unfold idle_inv, initial. cbn [isCheckingTitle timers]. split; [discriminate | constructor].
  - apply idle_inv_step; assumption.
Qed.

(** From a page satisfying [idle_inv], [settle] leaves no timer, no query
    and no check in progress. *)
Lemma settle_idle (p : PageState) :
  idle_inv p ->
  timers (settle st p) = [] /\ inflight (settle st p) = [] /\ isCheckingTitle (settle st p) = false.
Proof.
  intros [Hc Hd]. unfold settle. set (p1 := advance 500 p).
  assert (Hall : Forall (fun tm => Nat.leb (t_due tm) (now p + 500) = true) (timers p)).
  { eapply Forall_impl; [|exact Hd]. intros tm Htm. apply Nat.leb_le, Htm. }
  assert (Ht1 : timers p1 = []).
  { unfold p1. destruct (advance_sched 500 p) as (_ & -> & _). apply filter_negb_all, Hall. }
  destruct (answer_all_run (inflight p1) p1) as [Hi Ht].
  { apply Forall_forall. intros q Hq. apply in_map, Hq. }
  rewrite Ht, Ht1. split; [reflexivity|]. split; [exact Hi|].
  destruct (inflight p1) as [|q qs] eqn:Ei.
  - cbn [answer_all map run]. unfold p1, advance in Ei |- *.
    apply fire_all_idle in Ei as [Ei [Hdue | Hf]]; [|exact Hf].
    page_simpl. rewrite Hdue. cbn [fire_all]. page_simpl.
    rewrite (filter_all_true _ _ Hall) in Hdue.
    destruct (isCheckingTitle p) eqn:Ec; [|reflexivity].
    destruct (Hc eq_refl); contradiction.
  - cbn [answer_all map]. rewrite run_cons. fold (answer_all qs). apply answer_all_keep.
    apply step_answer_ok_checking. right. exists q. rewrite Ei. split; [left |]; reflexivity.
Qed.
End LiveFacts.

Lemma reachable_ok_run {S : Type} `{RecordStore S} (st : S) (es : list event) (p : PageState) :
  forallb answered es = true -> reachable_ok st p -> reachable_ok st (run st es p).
Proof.
  revert p. induction es as [|e es IH]; intros p Hes Hp; [exact Hp|].
  apply andb_prop in Hes as [He Hes]. rewrite run_cons. apply IH; [exact Hes|].
  constructor; assumption.
Qed.

(** A check left in progress with nothing pending stays so under every
    event but a title edit. *)
Lemma stuck_step {S : Type} `{RecordStore S} (st : S) (e : event) (p : PageState) :
  title_change e = false ->
  isCheckingTitle p = true -> timers p = [] -> inflight p = [] ->
  isCheckingTitle (step st e p) = true /\ timers (step st e p) = [] /\
  inflight (step st e p) = [].
Proof.
  intros He Hc Ht Hi. destruct e as [f x | n | dt | id r].
  - destruct f; try discriminate; rewrite step_change;
      unfold onChange, watchCallback; cbn [field_eqb]; unfold onOtherChange;
      page_simpl; auto.
  - rewrite step_errors. page_simpl. auto.
  - rewrite step_advance. unfold advance. rewrite Ht. cbn [filter fire_all]. page_simpl. auto.
  - rewrite step_answer, Hi. cbn [find_query find]. auto.
Qed.

Section LiveClaims.
Context {S : Type} `{RecordStore S}.

(** C36. Liveness of the title check: from every page reachable while
    the store answers its queries, letting 500 ms pass and the store
    answer every query then in flight leaves no timer, no query and no
    check in progress, so the button is disabled exactly when it is not
    enabled. *)
Theorem settle_ends_check (st : S) (p : PageState) :
  reachable_ok st p ->
  timers (settle st p) = [] /\ inflight (settle st p) = [] /\
  isCheckingTitle (settle st p) = false /\
  disabled (settle st p) = negb (submitButtonEnabled (settle st p)).
Proof.
  intros Hr. destruct (settle_idle st p (reachable_ok_idle st p Hr)) as (Ht & Hi & Hc).
  unfold disabled. rewrite Hc, orb_false_r. auto.
Qed.

(** C37. When the store answers the last title query with an error, the
    check stays in progress and the button disabled through every later
    event (other fields edited, time passing, answers) until the title
    itself is edited again: the error is neither shown nor retried. *)
Theorem check_error_blocks_submit (st : S) (p : PageState) (es : list event) :
  isCheckingTitle p = true -> timers p = [] -> inflight p = [] ->
  forallb (fun e => negb (title_change e)) es = true ->
  isCheckingTitle (run st es p) = true /\ disabled (run st es p) = true.
Proof.
  revert p. induction es as [|e es IH]; intros p Hc Ht Hi Hes.
  - cbn [run]. unfold disabled. rewrite Hc, orb_true_r. auto.
  - apply andb_prop in Hes as [He Hes]. apply negb_true_iff in He.
    destruct (stuck_step st e p He Hc Ht Hi) as (Hc' & Ht' & Hi').
    rewrite run_cons. exact (IH _ Hc' Ht' Hi' Hes).
Qed.
End LiveClaims.

(** ** Concrete runs *)

Import Store.ListStore.

(** A store holding one event, titled "bar". *)
Definition demo_store : db :=
  DB [EventRow 1 "bar" "bar" None "Sat Mar 2 2024 19:05:00 -05:00"] [] 2.

(** The page mounted at 15:30 in UTC-5, with a date picked (1 March 2024). *)
Definition demo_page : PageState :=
  run demo_store [Change FDate (IDate 19783)] (initial 15 30 300).

(** Answers are applied in the order they arrive, not only for the
    current title: the user types "foo", then replaces it by "bar"; the
    answer for "bar" (taken) arrives first, then the one for "foo"
    (free).  The title field shows "bar", the store has an event "bar",
    yet [titleExists] is [false] and the button is enabled. *)
Example stale_answer_enables_taken_title :
  let p := run demo_store
             [Change FTitle (IText "foo"); Advance 10; Change FTitle (IText "bar");
              Advance 500; Answer 1 true; Answer 0 true] demo_page in
  eventTitle (values p) = Some "bar" /\ exists_title demo_store "bar" = true /\
  titleExists p = false /\ disabled p = false.
Proof. vm_compute. repeat split. Qed.

(** The run of [stale_answer_enables_taken_title] before its last answer:
    the query for "foo" (id 0) is still in flight while the field holds
    "bar". *)
Definition demo_stale : PageState :=
  run demo_store [Change FTitle (IText "foo"); Advance 10; Change FTitle (IText "bar");
                  Advance 500; Answer 1 true] demo_page.

Lemma answer_applied_whatever_title_witness :
  find_query 0 (inflight demo_stale) = Some (Query 0 "foo") /\
  (values (step demo_store (Answer (q_id (Query 0 "foo")) true) demo_stale) = values demo_stale /\
   titleExists (step demo_store (Answer (q_id (Query 0 "foo")) true) demo_stale) =
     exists_title demo_store (q_title (Query 0 "foo")) /\
   isCheckingTitle (step demo_store (Answer (q_id (Query 0 "foo")) true) demo_stale) = false /\
   submitButtonEnabled (step demo_store (Answer (q_id (Query 0 "foo")) true) demo_stale) =
     isFormValid (errs demo_stale) (isDirty (defaults demo_stale) (values demo_stale))
       (isFormComplete (values demo_stale)) (exists_title demo_store (q_title (Query 0 "foo")))).
Proof.
  assert (Hq : find_query 0 (inflight demo_stale) = Some (Query 0 "foo")) by (vm_compute; reflexivity).
  split; [exact Hq|]. exact (answer_applied_whatever_title demo_store demo_stale (Query 0 "foo") Hq).
Defined.

Lemma no_debounce_witness :
  (timers demo_page = [] /\
   Forall (fun tg => fst tg <> "") [("a", 100); ("ab", 100); ("abc", 0)]) /\
  length (issued (run demo_store (typing [("a", 100); ("ab", 100); ("abc", 0)] ++ [Advance 500])
                    demo_page))
  = length (issued demo_page) + 3.
Proof.
  assert (Ht : timers demo_page = []) by (vm_compute; reflexivity).
  assert (Hf : Forall (fun tg => fst tg <> "") [("a", 100); ("ab", 100); ("abc", 0)])
    by (repeat constructor; cbn [fst]; discriminate).
  split; [split; [exact Ht | exact Hf] |].
  exact (no_debounce demo_store [("a", 100); ("ab", 100); ("abc", 0)] demo_page Ht Hf).
Defined.

(** The page after "bar" was checked and found taken. *)
Definition demo_taken : PageState :=
  run demo_store [Change FTitle (IText "bar"); Advance 500; Answer 0 true] demo_page.

Lemma other_change_ignores_titleExists_witness :
  titleExists demo_taken = true /\ isCheckingTitle demo_taken = false /\
  titleExists (onChange FTz (IText "-06:00") demo_taken) = titleExists demo_taken /\
  disabled (onChange FTz (IText "-06:00") demo_taken) = isCheckingTitle demo_taken.
Proof.
  split; [vm_compute; reflexivity|]. split; [vm_compute; reflexivity|].
  apply other_change_ignores_titleExists; vm_compute; reflexivity.
Defined.

(** The page after "foo" was checked and found free. *)
Definition demo_free : PageState :=
  run demo_store [Change FTitle (IText "foo"); Advance 500; Answer 0 true] demo_page.

Lemma enabled_implies_complete_witness :
  (reachable demo_store demo_free /\ submitButtonEnabled demo_free = true) /\
  isFormComplete (values demo_free) = true /\ isDirty (defaults demo_free) (values demo_free) = true.
Proof.
  assert (Hr : reachable demo_store demo_free).
  { unfold demo_free, demo_page. rewrite <- run_app. apply reachable_run, reach_init. }
  assert (He : submitButtonEnabled demo_free = true) by (vm_compute; reflexivity).
  split; [split; [exact Hr | exact He] |].
  exact (enabled_implies_complete demo_store demo_free Hr He).
Defined.

Lemma check_answer_applies_witness :
  (reachable demo_store demo_page /\ timers demo_page = [] /\ "Bar " <> "") /\
  (let p' := run demo_store [Change FTitle (IText "Bar "); Advance 500;
                             Answer (next_query demo_page) true] demo_page in
   titleExists p' = exists_title demo_store (trim (to_lower "Bar ")) /\
   isCheckingTitle p' = false /\
   eventSlug (values p') = Some (generateSlug "Bar ") /\
   submitButtonEnabled p' =
     isFormValid (errs demo_page) (isDirty (defaults demo_page) (values p'))
       (isFormComplete (values p')) (exists_title demo_store (trim (to_lower "Bar ")))).
Proof.
  assert (H1 : reachable demo_store demo_page) by (apply reachable_run, reach_init).
  assert (H2 : timers demo_page = []) by (vm_compute; reflexivity).
  assert (H3 : "Bar " <> "") by discriminate.
  split; [split; [exact H1 | split; [exact H2 | exact H3]] |].
  exact (check_answer_applies demo_store demo_page "Bar " H1 H2 H3).
Defined.

(** Two titles typed 10 ms apart: two checks pending. *)
Definition demo_typing : PageState :=
  run demo_store [Change FTitle (IText "foo"); Advance 10; Change FTitle (IText "bar")] demo_page.

Lemma demo_typing_ok : reachable_ok demo_store demo_typing.
Proof.
  unfold demo_typing, demo_page. rewrite <- run_app.
  apply reachable_ok_run; [reflexivity | apply rok_init].
Qed.

Lemma settle_ends_check_witness :
  reachable_ok demo_store demo_typing /\
  (timers (settle demo_store demo_typing) = [] /\ inflight (settle demo_store demo_typing) = [] /\
   isCheckingTitle (settle demo_store demo_typing) = false /\
   disabled (settle demo_store demo_typing) =
     negb (submitButtonEnabled (settle demo_store demo_typing))).
Proof.
  split; [exact demo_typing_ok|]. exact (settle_ends_check demo_store demo_typing demo_typing_ok).
Defined.

(** The page after the store failed to answer the check of "foo". *)
Definition demo_failed : PageState :=
  run demo_store [Change FTitle (IText "foo"); Advance 500; Answer 0 false] demo_page.

Definition demo_later : list event :=
  [Change FTz (IText "-06:00"); Advance 1000; Errors 0; Answer 0 true].

Lemma check_error_blocks_submit_witness :
  (isCheckingTitle demo_failed = true /\ timers demo_failed = [] /\ inflight demo_failed = [] /\
   forallb (fun e => negb (title_change e)) demo_later = true) /\
  (isCheckingTitle (run demo_store demo_later demo_failed) = true /\
   disabled (run demo_store demo_later demo_failed) = true).
Proof.
  assert (Hc : isCheckingTitle demo_failed = true) by (vm_compute; reflexivity).
  assert (Ht : timers demo_failed = []) by (vm_compute; reflexivity).
  assert (Hi : inflight demo_failed = []) by (vm_compute; reflexivity).
  assert (Hes : forallb (fun e => negb (title_change e)) demo_later = true) by reflexivity.
  split; [repeat split; assumption|].
  exact (check_error_blocks_submit demo_store demo_failed demo_later Hc Ht Hi Hes).
Defined.

End TitleWatcher.
