(* ===== verification/FormInputs.v ===== *)
(** * FormInputs: what the form's controls can send

    The form's JSX (src/app/addEvent/page.tsx, lines 426-632) binds each
    field to a control: the title and the slug to text inputs, the date to
    a calendar whose [onSelect] is [field.onChange] (a day, or [undefined]
    when the chosen day is clicked again), the hour, the minute and AM/PM
    to [Select]s listing [hours], [mins] and the two values, and the
    timezone to a [Select] listing the [value]s of [timezones].

    [ui_input] says which [Change] events these controls can produce, and
    [ui_reachable] the pages reached from the mounted page (mounted at a
    time of day) by such changes and by every other event.  The theorem
    [time_fields_always_valid] shows that on every such page the hour, the
    minute, AM/PM and the timezone pass the schema: only the title, the
    slug and the date can be rejected. *)

From Stdlib Require Import String List Bool ZArith Lia.
From S2P Require Import Prelude Slug TimeComposer Store Page Schema Checker.
Import ListNotations.
Local Open Scope string_scope.

Module FormInputs.
Import Store AddEventPage EventSchema TitleWatcher.

Definition title_control (x : input) : bool :=
  match x with IText _ => true | IDate _ => false end.

(** The slug input: any text (a typed space is swallowed, a pasted one
    is not). *)
Definition slug_control (x : input) : bool :=
  match x with IText _ => true | IDate _ => false end.

(** The calendar: a day, or [undefined] (no date). *)
Definition date_control (x : input) : bool :=
  match x with IDate _ => true | IText _ => true end.

Definition select_control (options : list string) (x : input) : bool :=
  match x with IText s => existsb (String.eqb s) options | IDate _ => false end.

Definition hour_control : input -> bool := select_control TimeComposer.hours.

Definition min_control : input -> bool := select_control TimeComposer.mins.

Definition ampm_control : input -> bool := select_control ["AM"; "PM"].

Definition tz_control : input -> bool :=
  select_control (map TimeComposer.tz_value TimeComposer.timezones).

(** The changes the form's controls can produce. *)
Definition ui_input (f : field) (x : input) : bool :=
  match f with
  | FTitle => title_control x
  | FSlug => slug_control x
  | FDate => date_control x
  | FHour => hour_control x
  | FMin => min_control x
  | FAMPM => ampm_control x
  | FTz => tz_control x
  end.

Definition ui_event (e : event) : bool :=
  match e with Change f x => ui_input f x | _ => true end.

Section UiReach.
Context {S : Type} `{RecordStore S}.

(** The pages reachable through the controls, from a page mounted at
    [h:m] of a day. *)
Inductive ui_reachable (st : S) : PageState -> Prop :=
| ui_init h m o : h < 24 -> m < 60 -> ui_reachable st (initial h m o)
| ui_step p e : ui_reachable st p -> ui_event e = true -> ui_reachable st (step st e p).
End UiReach.

(** The time fields hold menu values and a timezone is set. *)
Definition time_fields_ok (v : FormValues) : bool :=
  match eventTimeHour v, eventTimeMin v, eventTimeAMPM v, eventTimezone v with
  | Some h, Some mi, Some a, Some _ =>
      existsb (String.eqb h) TimeComposer.hours && existsb (String.eqb mi) TimeComposer.mins &&
      existsb (String.eqb a) ["AM"; "PM"]
  | _, _, _, _ => false
  end.

(** ** Lemmas *)

(** How an event changes the form values: a change sets its field, and a
    title change also writes the derived slug; nothing else does. *)
Lemma step_values {S : Type} `{RecordStore S} (st : S) (e : event) (p : PageState) :
  values (step st e p) =
  match e with
  | Change f x =>
      if field_eqb f FTitle
      then set_field FSlug (IText (SlugDeriver.generateSlug
             (opt_default "" (eventTitle (set_field f x (values p)))))) (set_field f x (values p))
      else set_field f x (values p)
  | _ => values p
  end.
Proof.
  destruct e as [f x | n | dt | id reach].
  - rewrite step_change. unfold onChange, watchCallback. destruct (field_eqb f FTitle).
    + unfold onTitleChange, setTimeout500, setValue_eventSlug, onOtherChange. page_simpl. reflexivity.
    + unfold onOtherChange. page_simpl. reflexivity.
  - rewrite step_errors. page_simpl. reflexivity.
  - rewrite step_advance. unfold advance. destruct (fire_all_sched
      (filter (fun tm => Nat.leb (t_due tm) (now p + dt)) (timers p))
      (set_sched (filter (fun tm => negb (Nat.leb (t_due tm) (now p + dt))) (timers p))
                 (inflight p) (now p + dt) (next_query p) (issued p) p)) as (_ & _ & _ & ->).
    page_simpl. reflexivity.
  - rewrite step_answer. destruct (find_query id (inflight p)); [|reflexivity].
    unfold checkEventTitle_finish. destruct reach; page_simpl; reflexivity.
Qed.

Lemma zenum_inl (vals : list string) (msg s r : string) :
  zenum vals msg (Some s) = inl r -> existsb (String.eqb s) vals = true.
Proof. cbn. destruct (existsb (String.eqb s) vals); [reflexivity | discriminate]. Qed.

Lemma time_fields_ok_initial (h m : nat) (o : Z) :
  h < 24 -> m < 60 -> time_fields_ok (values (initial h m o)) = true.
Proof.
  intros Hh Hm. destruct (default_time_fields h m Hh Hm) as (_ & Hhr & Hmi & Hap).
  unfold initial, defaultValues, time_fields_ok. cbn [values eventTimeHour eventTimeMin
    eventTimeAMPM eventTimezone].
  apply zenum_inl in Hhr, Hmi, Hap. rewrite Hhr, Hmi, Hap. reflexivity.
Qed.

(** A change through a control keeps the time fields valid. *)
Lemma time_fields_ok_set (f : field) (x : input) (v : FormValues) :
  ui_input f x = true -> time_fields_ok v = true -> time_fields_ok (set_field f x v) = true.
Proof.
  intros Hx Hv. unfold time_fields_ok in *.
  destruct v as [t sl d hr mi ap tz]; cbn [eventTimeHour eventTimeMin eventTimeAMPM eventTimezone] in Hv.
  destruct f, x as [s|z]; cbn in Hx |- *; try discriminate; try exact Hv;
    destruct hr, mi, ap, tz; try discriminate;
    repeat match goal with H : _ && _ = true |- _ => apply andb_prop in H as [? ?] end;
    rewrite ?Hx; repeat (rewrite andb_true_intro; [|split]); try assumption; reflexivity.
Qed.

Lemma time_fields_ok_step {S : Type} `{RecordStore S} (st : S) (e : event) (p : PageState) :
  ui_event e = true -> time_fields_ok (values p) = true ->
  time_fields_ok (values (step st e p)) = true.
Proof.
  intros He Hv. rewrite step_values. destruct e as [f x | | |]; try exact Hv.
  cbn [ui_event] in He. destruct (field_eqb f FTitle).
  - apply time_fields_ok_set; [reflexivity | apply time_fields_ok_set; assumption].
  - apply time_fields_ok_set; assumption.
Qed.

(** ** Properties *)

Section Claims.
Context {S : Type} `{RecordStore S}.

(** C22. On every page reachable through the form's controls, from a
    page mounted at any time of day, the hour, the minute, AM/PM and the
    timezone pass the schema: whatever the user does, the schema can only
    reject the title, the slug or the date. *)
Theorem time_fields_always_valid (st : S) (p : PageState) :
  ui_reachable st p ->
  (exists r, eventTimeHour_schema (eventTimeHour (values p)) = inl r) /\
  (exists r, eventTimeMin_schema (eventTimeMin (values p)) = inl r) /\
  (exists r, eventTimeAMPM_schema (eventTimeAMPM (values p)) = inl r) /\
  (exists r, eventTimezone_schema (eventTimezone (values p)) = inl r).
Proof.
  intros Hr.
  assert (Hv : time_fields_ok (values p) = true).
  { induction Hr as [h m o Hh Hm | p e _ IH He].
    - apply time_fields_ok_initial; assumption.
    - apply time_fields_ok_step; assumption. }
  unfold time_fields_ok in Hv.
  destruct (eventTimeHour (values p)) as [hr|], (eventTimeMin (values p)) as [mi|],
    (eventTimeAMPM (values p)) as [ap|], (eventTimezone (values p)) as [tz|]; try discriminate.
  apply andb_prop in Hv as [Hv Ha]. apply andb_prop in Hv as [Hh Hm].
  unfold eventTimeHour_schema, eventTimeMin_schema, eventTimeAMPM_schema, eventTimezone_schema,
    zenum, zstring. cbn [run_checks]. rewrite Hh, Hm, Ha. repeat split; eexists; reflexivity.
Qed.
End Claims.

(** ** A concrete run *)

Import Store.ListStore.

(** Mounted at 23:59 in UTC+1 (a default timezone outside the menu),
    then the hour and the timezone changed through their menus. *)
Definition ui_page : PageState :=
  run (ListStore.DB [] [] 1) [Change FHour (IText "12"); Change FTz (IText "-03:30")]
      (initial 23 59 (-60)).

Lemma ui_page_reachable : ui_reachable (ListStore.DB [] [] 1) ui_page.
Proof.
  unfold ui_page. cbn [run].
  apply ui_step; [apply ui_step; [apply ui_init; lia | reflexivity] | reflexivity].
Qed.

Lemma time_fields_always_valid_witness :
  ui_reachable (ListStore.DB [] [] 1) ui_page /\
  ((exists r, eventTimeHour_schema (eventTimeHour (values ui_page)) = inl r) /\
   (exists r, eventTimeMin_schema (eventTimeMin (values ui_page)) = inl r) /\
   (exists r, eventTimeAMPM_schema (eventTimeAMPM (values ui_page)) = inl r) /\
   (exists r, eventTimezone_schema (eventTimezone (values ui_page)) = inl r)).
Proof.
  split; [exact ui_page_reachable|].
  exact (time_fields_always_valid _ ui_page ui_page_reachable).
Defined.

End FormInputs.
