(* ===== verification/Supersession.v ===== *)
(** * Supersession: answers in order leave the right [titleExists]

    The title watcher (Checker.v) applies every answer when it arrives
    (C2 shows an old answer arriving last overriding a newer one).  This
    file shows the converse: when the store answers the title queries in
    the order they were sent ([fifo_event]), then on every page where no
    timer and no query is pending and the title is not empty,
    [titleExists] is the store's answer for the current title.

    The proof keeps two invariants along [reachable_fifo]:
    - [sched_inv]: the timers are sorted by due time and due within
      500 ms, the ids of the queries in flight are below [next_query] and
      pairwise distinct;
    - [cons_inv]: the last timer carries the current title; with no timer
      and a title, the last query in flight is for the current title; with
      neither, [titleExists] is the answer for the current title. *)

From Stdlib Require Import String List Bool Arith ZArith Lia Sorted.
From S2P Require Import Prelude Slug Store Page Checker FormInputs.
Import ListNotations.
Local Open Scope string_scope.
Local Open Scope list_scope.

Module Supersession.
Import Store AddEventPage TitleWatcher.

(** An answer is in order when it is for the oldest query in flight and
    it is not an error; every other event is allowed. *)
Definition fifo_event (p : PageState) (e : event) : bool :=
  match e with
  | Answer id reach =>
      reach && match inflight p with q :: _ => Nat.eqb (q_id q) id | [] => true end
  | _ => true
  end.

Section Fifo.
Context {S : Type} `{RecordStore S}.

Inductive reachable_fifo (st : S) : PageState -> Prop :=
| rf_init h m o : reachable_fifo st (initial h m o)
| rf_step p e : reachable_fifo st p -> fifo_event p e = true -> reachable_fifo st (step st e p).
End Fifo.

(** The key the watcher looks up for the current title. *)
Definition cur_key (p : PageState) : string :=
  trim (to_lower (opt_default "" (eventTitle (values p)))).

Definition due_le (a b : timer) : Prop := t_due a <= t_due b.

Record sched_inv (p : PageState) : Prop := {
  si_sorted : StronglySorted due_le (timers p);
  si_bound : Forall (fun tm => t_due tm <= now p + 500) (timers p);
  si_fresh : Forall (fun q => q_id q < next_query p) (inflight p);
  si_nodup : NoDup (map q_id (inflight p))
}.

Section Cons.
Context {S : Type} `{RecordStore S} (st : S).

Definition cons_inv (p : PageState) : Prop :=
  (forall pre tm, timers p = pre ++ [tm] -> eventTitle (t_value tm) = eventTitle (values p)) /\
  (timers p = [] -> truthy (eventTitle (values p)) = true ->
   forall pre q, inflight p = pre ++ [q] -> q_title q = cur_key p) /\
  (timers p = [] -> inflight p = [] -> truthy (eventTitle (values p)) = true ->
   titleExists p = exists_title st (cur_key p)).
End Cons.

(** ** Lists of timers *)

Lemma StronglySorted_snoc {A : Type} (R : A -> A -> Prop) (l : list A) (x : A) :
  StronglySorted R l -> Forall (fun y => R y x) l -> StronglySorted R (l ++ [x]).
Proof.
  induction 1 as [|a l _ IH Ha]; intros Hx; cbn; [repeat constructor|].
  inversion Hx as [|? ? Hax Hx']; subst. constructor; [exact (IH Hx')|].
  apply Forall_app. split; [exact Ha | repeat constructor; exact Hax].
Qed.

Lemma StronglySorted_filter {A : Type} (R : A -> A -> Prop) (f : A -> bool) (l : list A) :
  StronglySorted R l -> StronglySorted R (filter f l).
Proof.
  induction 1 as [|a l _ IH Ha]; cbn; [constructor|].
  destruct (f a); [constructor; [exact IH | apply Forall_filter, Ha] | exact IH].
Qed.

Lemma filter_due_none (t : nat) (a : timer) (l : list timer) :
  t < t_due a -> Forall (due_le a) l -> filter (fun tm => Nat.leb (t_due tm) t) l = [].
Proof.
  intros Hgt. induction 1 as [|b l Hb _ IHl]; [reflexivity|]. cbn [filter].
  unfold due_le in Hb. destruct (Nat.leb_spec (t_due b) t); [lia | exact IHl].
Qed.

(** The timers due by [t] are a prefix of a sorted schedule. *)
Lemma sorted_split (t : nat) (l : list timer) :
  StronglySorted due_le l ->
  filter (fun tm => Nat.leb (t_due tm) t) l ++ filter (fun tm => negb (Nat.leb (t_due tm) t)) l = l.
Proof.
  induction 1 as [|a l _ IH Ha]; [reflexivity|]. cbn [filter].
  destruct (Nat.leb_spec (t_due a) t) as [Hle|Hgt]; cbn [negb app]; [f_equal; exact IH|].
  rewrite (filter_due_none t a l Hgt Ha) in IH |- *. cbn [app] in IH |- *. f_equal. exact IH.
Qed.

Lemma fire_all_app (l1 l2 : list timer) (p : PageState) :
  fire_all (l1 ++ l2) p = fire_all l2 (fire_all l1 p).
Proof. revert p. induction l1 as [|tm l IH]; intros p; [reflexivity | apply IH]. Qed.

(** ** The schedule invariant *)

Lemma sched_inv_start (v : FormValues) (p : PageState) :
  sched_inv p -> sched_inv (checkEventTitle_start v p).
Proof.
  intros [Hs Hb Hf Hn]. unfold checkEventTitle_start.
  destruct (truthy (eventTitle v)); constructor; page_simpl; auto.
  - apply Forall_app. split.
    + eapply Forall_impl; [|exact Hf]. cbv beta. intros q Hq. lia.
    + constructor; [cbn [q_id]; lia | constructor].
  - rewrite map_app. cbn [map q_id]. apply NoDup_snoc; [exact Hn|].
    intros Hin. apply in_map_iff in Hin as (q & Hq & Hin). rewrite Forall_forall in Hf.
    specialize (Hf q Hin). lia.
Qed.

Lemma sched_inv_fire_all (ts : list timer) (p : PageState) :
  sched_inv p -> sched_inv (fire_all ts p).
Proof.
  revert p. induction ts as [|tm ts IH]; intros p Hp; [exact Hp|].
  apply IH, sched_inv_start, Hp.
Qed.

Lemma NoDup_map_filter {A B : Type} (g : A -> B) (f : A -> bool) (l : list A) :
  NoDup (map g l) -> NoDup (map g (filter f l)).
Proof.
  induction l as [|x l IH]; cbn; [auto|]. intros Hn. inversion Hn as [|? ? Hx Hl]; subst.
  destruct (f x); cbn; [|exact (IH Hl)]. constructor; [|exact (IH Hl)].
  intros Hin. apply Hx. apply in_map_iff in Hin as (y & <- & Hy). apply filter_In in Hy as [Hy _].
  apply in_map, Hy.
Qed.

Lemma sched_inv_step {S : Type} `{RecordStore S} (st : S) (e : event) (p : PageState) :
  sched_inv p -> sched_inv (step st e p).
Proof.
  intros Hp. pose proof Hp as [Hs Hb Hf Hn]. destruct e as [f x | n | dt | id reach].
  - rewrite step_change. unfold onChange, watchCallback. destruct (field_eqb f FTitle).
    + unfold onTitleChange, setTimeout500, setValue_eventSlug, onOtherChange.
      constructor; page_simpl; auto.
      * apply StronglySorted_snoc; [exact Hs|]. eapply Forall_impl; [|exact Hb].
        unfold due_le. cbn [t_due]. intros tm Htm. exact Htm.
      * apply Forall_app. split; [exact Hb | repeat constructor; cbn [t_due]; lia].
    + unfold onOtherChange. constructor; page_simpl; auto.
  - rewrite step_errors. constructor; page_simpl; auto.
  - rewrite step_advance. unfold advance. apply sched_inv_fire_all.
    constructor; page_simpl; auto.
    + apply StronglySorted_filter, Hs.
    + apply Forall_filter. eapply Forall_impl; [|exact Hb]. cbv beta. intros tm Htm. lia.
  - rewrite step_answer. destruct (find_query id (inflight p)) as [q|]; [|exact Hp].
    unfold checkEventTitle_finish.
    destruct reach; constructor; page_simpl; auto;
      solve [apply Forall_filter; exact Hf | apply NoDup_map_filter; exact Hn].
Qed.

(** ** The consistency invariant *)

Lemma snoc_inj {A : Type} (l1 l2 : list A) (a b : A) : l1 ++ [a] = l2 ++ [b] -> a = b.
Proof. intros E. apply app_inj_tail in E as [_ E]. exact E. Qed.

Lemma snoc_not_nil {A : Type} (l : list A) (a : A) : l ++ [a] <> [].
Proof. intros E. apply app_eq_nil in E as [_ E]. discriminate. Qed.

(** Firing a non-empty list of timers whose last one has a title leaves
    that title's query last in flight. *)
Lemma fire_all_last (pre : list timer) (tm : timer) (p : PageState) :
  has_title tm = true ->
  exists l, inflight (fire_all (pre ++ [tm]) p) = l ++ [Query (next_query (fire_all pre p)) (norm_title tm)].
Proof.
  intros Ht. rewrite fire_all_app. cbn [fire_all]. unfold checkEventTitle_start.
  unfold has_title in Ht. rewrite Ht. page_simpl. eexists. reflexivity.
Qed.

Section ConsFacts.
Context {S : Type} `{RecordStore S} (st : S).

Lemma cons_inv_advance (dt : nat) (p : PageState) :
  sched_inv p -> cons_inv st p -> cons_inv st (advance dt p).
Proof.
  intros [Hs Hb Hf Hn] (C1 & C2 & C3). unfold advance.
  set (due := filter (fun tm => Nat.leb (t_due tm) (now p + dt)) (timers p)).
  set (rest := filter (fun tm => negb (Nat.leb (t_due tm) (now p + dt))) (timers p)).
  set (q0 := set_sched rest (inflight p) (now p + dt) (next_query p) (issued p) p).
  pose proof (sorted_split (now p + dt) (timers p) Hs) as Hsplit. fold due rest in Hsplit.
  destruct (fire_all_sched due q0) as (_ & Ht & _ & Hv).
  unfold cons_inv, cur_key. rewrite Ht, Hv. unfold q0. page_simpl. fold q0.
  destruct rest as [|r rs] eqn:Er.
  - rewrite app_nil_r in Hsplit. split; [intros pre tm E; exfalso; exact (snoc_not_nil _ _ (eq_sym E))|].
    destruct (timers p) as [|t1 ts1] eqn:Et.
    + (* no timer: nothing fires *)
      rewrite Hsplit. cbn [fire_all].
      unfold q0. page_simpl. split; intros _; [exact (C2 eq_refl) | exact (C3 eq_refl)].
    + (* every timer fires; the last one carries the current title *)
      destruct (exists_last (l := t1 :: ts1) ltac:(discriminate)) as (ts & t0 & Els).
      rewrite Els in C1, Hsplit. rewrite Hsplit. pose proof (C1 ts t0 eq_refl) as Hlast.
      assert (Hq : truthy (eventTitle (values p)) = true ->
                   exists l, inflight (fire_all (ts ++ [t0]) q0) = l ++ [Query (next_query (fire_all ts q0)) (norm_title t0)]).
      { intros Htr. apply fire_all_last. unfold has_title. rewrite Hlast. exact Htr. }
      split.
      * intros _ Htr pre q Eq. destruct (Hq Htr) as (l & Hl). rewrite Hl in Eq.
        apply snoc_inj in Eq. subst q. cbn [q_title]. unfold norm_title. rewrite Hlast. reflexivity.
      * intros _ Hi Htr. destruct (Hq Htr) as (l & Hl). rewrite Hl in Hi.
        exfalso. exact (snoc_not_nil _ _ Hi).
  - split; [|split; intros Hr; discriminate].
    intros pre tm Etm. rewrite Etm, app_assoc in Hsplit.
    exact (C1 _ _ (eq_sym Hsplit)).
Qed.
(** The first query answered leaves exactly the others in flight. *)
Lemma filter_head_out (q : query) (l : list query) :
  NoDup (map q_id (q :: l)) ->
  filter (fun q' => negb (Nat.eqb (q_id q') (q_id q))) (q :: l) = l.
Proof.
  intros Hn. inversion Hn as [|? ? Hq _]; subst. cbn [filter]. rewrite Nat.eqb_refl. cbn [negb].
  clear Hn. induction l as [|a l IH]; [reflexivity|]. cbn [filter].
  destruct (Nat.eqb_spec (q_id a) (q_id q)) as [E|E].
  - exfalso. apply Hq. left. exact E.
  - cbn [negb]. f_equal. apply IH. intros Hin. apply Hq. right. exact Hin.
Qed.

Lemma set_field_title (f : field) (x : input) (v : FormValues) :
  field_eqb f FTitle = false -> eventTitle (set_field f x v) = eventTitle v.
Proof. destruct f; cbn; congruence. Qed.

Lemma cons_inv_initial (h m : nat) (o : Z) : cons_inv st (initial h m o).
Proof.
  unfold cons_inv. cbn [timers inflight values initial defaultValues eventTitle].
  split; [intros pre tm E; exfalso; exact (snoc_not_nil _ _ (eq_sym E))|].
  split; intros; discriminate.
Qed.

Lemma cons_inv_step (e : event) (p : PageState) :
  sched_inv p -> fifo_event p e = true -> cons_inv st p -> cons_inv st (step st e p).
Proof.
  intros Hs He Hc. pose proof Hc as (C1 & C2 & C3). destruct e as [f x | n | dt | id reach].
  - rewrite step_change. unfold onChange, watchCallback.
    destruct (field_eqb f FTitle) eqn:Ef.
    + unfold onTitleChange, setTimeout500, setValue_eventSlug, cons_inv, cur_key. page_simpl.
      split; [|split; intros E; exfalso; exact (snoc_not_nil _ _ E)].
      intros pre tm E. apply snoc_inj in E. subst tm. cbn [t_value].
      destruct f; try discriminate Ef. reflexivity.
    + unfold onOtherChange, cons_inv, cur_key. page_simpl. rewrite (set_field_title f x _ Ef).
      exact Hc.
  - rewrite step_errors. exact Hc.
  - rewrite step_advance. apply cons_inv_advance; assumption.
  - cbn [fifo_event] in He. apply andb_prop in He as [Hr Hh]. subst reach.
    rewrite step_answer. destruct (inflight p) as [|q l] eqn:Ei; [cbn; exact Hc|].
    apply Nat.eqb_eq in Hh. subst id. cbn [find_query find]. rewrite Nat.eqb_refl.
    pose proof (si_nodup p Hs) as Hn. rewrite Ei in Hn.
    unfold checkEventTitle_finish, cons_inv, cur_key. page_simpl. rewrite Ei, (filter_head_out q l Hn).
    split; [exact C1|]. split.
    + intros Ht Htr pre q' E. apply (C2 Ht Htr (q :: pre)). rewrite E. reflexivity.
    + intros Ht -> Htr. f_equal. apply (C2 Ht Htr []). reflexivity.
Qed.

Lemma reachable_fifo_inv (p : PageState) : reachable_fifo st p -> sched_inv p /\ cons_inv st p.
Proof.
  induction 1 as [h m o | p e _ [Hs Hc] He].
  - split; [|apply cons_inv_initial]. constructor; cbn; constructor.
  - split; [apply sched_inv_step | apply cons_inv_step]; assumption.
Qed.
End ConsFacts.
(** [fifo_event] along a list of events. *)
Fixpoint fifo_run {S : Type} `{RecordStore S} (st : S) (es : list event) (p : PageState) : bool :=
  match es with
  | [] => true
  | e :: es' => fifo_event p e && fifo_run st es' (step st e p)
  end.

Section Settle.
Context {S : Type} `{RecordStore S} (st : S).

Lemma rf_run (es : list event) (p : PageState) :
  reachable_fifo st p -> fifo_run st es p = true -> reachable_fifo st (run st es p).
Proof.
  revert p. induction es as [|e es IH]; intros p Hp Hes; [exact Hp|].
  cbn [fifo_run] in Hes. apply andb_prop in Hes as [He Hes].
  rewrite run_cons. apply IH; [constructor|]; assumption.
Qed.

Lemma fifo_answered (p : PageState) (e : event) : fifo_event p e = true -> answered e = true.
Proof. destruct e as [| | |id []]; cbn; [reflexivity.. | discriminate]. Qed.

Lemma reachable_fifo_ok (p : PageState) : reachable_fifo st p -> reachable_ok st p.
Proof.
  induction 1 as [h m o | p e _ IH He]; constructor; [exact IH | exact (fifo_answered p e He)].
Qed.

(** Answering the oldest query leaves the others in flight. *)
Lemma step_answer_head (p : PageState) (q : query) (l : list query) :
  sched_inv p -> inflight p = q :: l -> inflight (step st (Answer (q_id q) true) p) = l.
Proof.
  intros Hs Ei. pose proof (si_nodup p Hs) as Hn. rewrite Ei in Hn.
  rewrite step_answer, Ei. cbn [find_query find]. rewrite Nat.eqb_refl.
  unfold checkEventTitle_finish. page_simpl. rewrite Ei. exact (filter_head_out q l Hn).
Qed.

(** The store answering every query in flight in order is an in-order
    run. *)
Lemma rf_answer_all (qs : list query) (p : PageState) :
  reachable_fifo st p -> inflight p = qs -> reachable_fifo st (run st (answer_all qs) p).
Proof.
  revert p. induction qs as [|q qs IH]; intros p Hp Ei; [exact Hp|].
  cbn [answer_all map]. rewrite run_cons. fold (answer_all qs).
  assert (He : fifo_event p (Answer (q_id q) true) = true) by (cbn; rewrite Ei, Nat.eqb_refl; reflexivity).
  apply IH; [constructor; assumption|].
  apply step_answer_head; [apply (reachable_fifo_inv st p Hp) | exact Ei].
Qed.

Lemma rf_settle (p : PageState) : reachable_fifo st p -> reachable_fifo st (settle st p).
Proof.
  intros Hp. unfold settle.
  pose proof (rf_step st p (Advance 500) Hp eq_refl) as H1. rewrite step_advance in H1.
  apply rf_answer_all; [exact H1 | reflexivity].
Qed.
End Settle.

(** ** Properties *)

Section Claims.
Context {S : Type} `{RecordStore S}.

(** C38. When the store answers the title queries in the order they were
    sent, letting the page settle (500 ms, then every query in flight
    answered) always ends with no timer, no query and no check in
    progress, and, when the title is not empty, with [titleExists] the
    store's answer for the current title, however the user typed. *)
Theorem settle_fifo_consistent (st : S) (p : PageState) :
  reachable_fifo st p ->
  timers (settle st p) = [] /\ inflight (settle st p) = [] /\
  isCheckingTitle (settle st p) = false /\
  (truthy (eventTitle (values (settle st p))) = true ->
   titleExists (settle st p) = exists_title st (cur_key (settle st p))).
Proof.
  intros Hp.
  destruct (settle_idle st p (reachable_ok_idle st p (reachable_fifo_ok st p Hp))) as (Ht & Hi & Hc).
  destruct (reachable_fifo_inv st _ (rf_settle st p Hp)) as [_ (_ & _ & C3)].
  repeat split; auto.
Qed.
End Claims.

(** ** A concrete run *)

Import Store.ListStore.

(** The run of C2 up to the answers: a date picked, "foo" typed, then
    replaced by "bar" (taken) 10 ms later. *)
Definition fifo_page : PageState :=
  run demo_store [Change FDate (IDate 19783); Change FTitle (IText "foo"); Advance 10;
                  Change FTitle (IText "bar")] (initial 15 30 300).

Lemma fifo_page_reachable : reachable_fifo demo_store fifo_page.
Proof. apply rf_run; [constructor | vm_compute; reflexivity]. Qed.

Lemma settle_fifo_consistent_witness :
  reachable_fifo demo_store fifo_page /\
  (timers (settle demo_store fifo_page) = [] /\ inflight (settle demo_store fifo_page) = [] /\
   isCheckingTitle (settle demo_store fifo_page) = false /\
   (truthy (eventTitle (values (settle demo_store fifo_page))) = true ->
    titleExists (settle demo_store fifo_page) =
      exists_title demo_store (cur_key (settle demo_store fifo_page)))).
Proof.
  split; [exact fifo_page_reachable|].
  exact (settle_fifo_consistent demo_store fifo_page fifo_page_reachable).
Defined.

(** There the settled page knows that "bar" is taken, where the answers
    in the other order (C2) left [titleExists] false. *)
Example fifo_page_settles_taken :
  titleExists (settle demo_store fifo_page) = true /\
  truthy (eventTitle (values (settle demo_store fifo_page))) = true.
Proof. vm_compute. split; reflexivity. Qed.

End Supersession.
