(* ===== verification/Submitter.v ===== *)
(** * EventSubmitter: [handleSubmit], [onSubmit] and the admin lookup of the add-event page

    [handleSubmit] (line 425) parses the values with [EventSchema]: a
    rejected form gets its errors and never reaches [onSubmit].

    [onSubmit] (src/app/addEvent/page.tsx, lines 311-385) receives the
    validated form data, refuses a title already known to be taken,
    composes the stored timestamp, inserts the event and translates the
    store's error into a message: a [23505] unique violation whose
    [details] mention [event_title] or [event_slug] gives the matching
    "already taken" message (the slug test runs second and wins), any
    other error a generic one.  On success it navigates to the listing.
    [fetchCurrentAdmin] (lines 151-175) looks the signed-in email up in
    [admins] and falls back to id 0 when there is no row.

    Each store call goes through [attempt]: the environment's [reach]
    flag decides whether the request reached the database.  The proofs
    use only the laws [RecordStoreLaws] of the store interface. *)

From Stdlib Require Import Ascii String List Bool Arith ZArith Lia.
From S2P Require Import Prelude TimeComposer Store Page Schema.
Import ListNotations.
Local Open Scope string_scope.

Module EventSubmitter.
Import Store AddEventPage EventSchema.

Definition msg_title_taken : string :=
  "Event title already taken, please enter a new event title.".
Definition msg_slug_taken : string :=
  "Event slug already taken, please enter a new event slug.".
Definition msg_generic : string :=
  "There was an error saving your event, please reload the page and try again!".

(** The error branch of lines 363-380. *)
Definition report_error (err : pg_error) (p : PageState) : PageState :=
  let p1 := setError (Some (DbError err)) p in
  if String.eqb (code err) "23505" then
    let p2 := if includes (details err) "event_title"
              then setErrorMessage (Some msg_title_taken) p1 else p1 in
    if includes (details err) "event_slug"
    then setErrorMessage (Some msg_slug_taken) p2 else p2
  else setErrorMessage (Some msg_generic) p1.

(** The row [onSubmit] inserts (lines 352-357). *)
Definition event_of (fd : FormData) (admin : option Z) : new_event :=
  NewEvent (fd_title fd) admin
    (TimeComposer.formattedDate (fd_date fd) (fd_hour fd) (fd_min fd) (fd_ampm fd)
       (fd_timezone fd))
    (fd_slug fd).

Section Submit.
Context {S : Type} `{RecordStore S}.

(** [onSubmit]: the store and the page after it. *)
Definition onSubmit (reach : bool) (fd : FormData) (st : S) (p : PageState) : S * PageState :=
  if titleExists p then
    (st, setErrorMessage (Some msg_title_taken) (setError (Some DuplicateTitle) p))
  else
    let p1 := setTitleExists false (setErrorMessage None (setError None (setIsLoading true p))) in
    let '(st', res) :=
      attempt reach (fun s => insert_event s (event_of fd (currentAdminId p)))
              (inr transient_error) st in
    let p2 := setIsLoading false p1 in
    match res with
    | inr err => (st', report_error err p2)
    | inl _ => (st', routerPush p2)
    end.

(** [form.handleSubmit(onSubmit)] (line 425): the resolver parses the
    values; on failure the form's [errors] get one entry per failing field
    and [onSubmit] is not called, otherwise the errors are cleared and
    [onSubmit] receives the parsed data. *)
Definition handleSubmit (reach : bool) (st : S) (p : PageState) : S * PageState :=
  match EventSchema_parse (values p) with
  | inr es => (st, set_errs (length es) p)
  | inl fd => onSubmit reach fd st (set_errs 0 p)
  end.
End Submit.

(** [fetchCurrentAdmin]: [res] is the answer to
    [from('admins').select('id').eq('email', emailAddress)], an error or
    the ids of the matching rows. *)
Definition fetchCurrentAdmin (res : pg_error + list Z) (p : PageState) : PageState :=
  let p1 := setIsLoading true p in
  let p2 := match res with
            | inl err => setError (Some (DbError err)) p1
            | inr ids => setCurrentAdminId (Some (match ids with a :: _ => a | [] => 0%Z end)) p1
            end in
  setIsLoading false p2.

(** ** Lemmas *)

(** Postgres' report of a title clash names [event_title], and names
    [event_slug] exactly when the title itself contains it. *)
Lemma title_violation_details (t : string) :
  includes (details (unique_violation "event_title" t)) "event_title" = true /\
  includes (details (unique_violation "event_title" t)) "event_slug" = includes t "event_slug".
Proof.
  change (details (unique_violation "event_title" t)) with
    ("Key " ++ String "(" ("event_title" ++ String ")"
       ("=" ++ String "(" (t ++ String ")" " already exists.")))).
  split.
  - apply (includes_app_r "Key (" ("event_title" ++ _)). apply includes_self_app.
  - repeat first [ rewrite (includes_app_sep "(" "event_slug") by (reflexivity || discriminate)
                  | rewrite (includes_app_sep ")" "event_slug") by (reflexivity || discriminate) ].
    replace (includes "Key " "event_slug") with false by reflexivity.
    replace (includes "event_title" "event_slug") with false by reflexivity.
    replace (includes "=" "event_slug") with false by reflexivity.
    replace (includes " already exists." "event_slug") with false by reflexivity.
    cbn [orb]. apply orb_false_r.
Qed.

Section SubmitFacts.
Context {S : Type} `{RecordStoreLaws S}.

Lemma onSubmit_free (reach : bool) (fd : FormData) (st : S) (p : PageState) :
  titleExists p = false ->
  onSubmit reach fd st p =
    let p1 := setTitleExists false (setErrorMessage None (setError None (setIsLoading true p))) in
    let '(st', res) :=
      attempt reach (fun s => insert_event s (event_of fd (currentAdminId p)))
              (inr transient_error) st in
    let p2 := setIsLoading false p1 in
    match res with
    | inr err => (st', report_error err p2)
    | inl _ => (st', routerPush p2)
    end.
Proof. intros Ht. unfold onSubmit. rewrite Ht. reflexivity. Qed.

(** A successful insert: the store gets the row, the page navigates. *)
Lemma onSubmit_success (fd : FormData) (st st' : S) (row : event_row) (p : PageState) :
  titleExists p = false ->
  insert_event st (event_of fd (currentAdminId p)) = (st', inl row) ->
  fst (onSubmit true fd st p) = st' /\ navigated (snd (onSubmit true fd st p)) = true /\
  error (snd (onSubmit true fd st p)) = None /\
  errorMessage (snd (onSubmit true fd st p)) = None.
Proof.
  intros Ht Hi. rewrite onSubmit_free by exact Ht. cbv zeta. cbn [attempt].
  rewrite Hi. unfold routerPush. page_simpl. repeat split.
Qed.

(** ** Properties of [onSubmit] *)

(** C7. When the title is known to be taken, [onSubmit] sends nothing
    to the store, does not navigate, and shows the "title already taken"
    message with a [Duplicate title] error. *)
Theorem duplicate_title_blocks_insert (reach : bool) (fd : FormData) (st : S) (p : PageState) :
  titleExists p = true ->
  fst (onSubmit reach fd st p) = st /\
  error (snd (onSubmit reach fd st p)) = Some DuplicateTitle /\
  errorMessage (snd (onSubmit reach fd st p)) = Some msg_title_taken /\
  navigated (snd (onSubmit reach fd st p)) = navigated p.
Proof. intros Ht. unfold onSubmit. rewrite Ht. page_simpl. repeat split. Qed.

(** C8. When the insert clashes with an existing title (a race the
    watcher did not see), the store is left unchanged, the page does not
    navigate, loading ends, and exactly the "title already taken"
    message is shown, provided the title does not itself contain the
    text [event_slug]. *)
Theorem title_conflict_message (fd : FormData) (st : S) (p : PageState) :
  titleExists p = false ->
  In (fd_title fd) (map event_title (events_of st)) ->
  includes (fd_title fd) "event_slug" = false ->
  fst (onSubmit true fd st p) = st /\
  errorMessage (snd (onSubmit true fd st p)) = Some msg_title_taken /\
  navigated (snd (onSubmit true fd st p)) = navigated p /\
  isLoading (snd (onSubmit true fd st p)) = false.
Proof.
  intros Ht Hin Hslug. rewrite onSubmit_free by exact Ht. cbv zeta. cbn [attempt].
  pose proof (insert_title_clash st (event_of fd (currentAdminId p)) Hin) as Hc.
  destruct (insert_event st (event_of fd (currentAdminId p))) as [st' res] eqn:Ei.
  cbn [snd] in Hc. subst res.
  rewrite (insert_error_unchanged _ _ _ _ Ei).
  destruct (title_violation_details (fd_title fd)) as [Ht1 Ht2].
  unfold report_error. cbn [event_of ne_title] in *.
  rewrite Ht1, Ht2, Hslug. cbn [code String.eqb]. page_simpl. repeat split.
Qed.

(** C11. When the insert does not reach the store, the store is left
    unchanged, the page does not navigate, loading ends, and the
    generic "try again" message is shown with the error. *)
Theorem transient_error_message (fd : FormData) (st : S) (p : PageState) :
  titleExists p = false ->
  fst (onSubmit false fd st p) = st /\
  error (snd (onSubmit false fd st p)) = Some (DbError transient_error) /\
  errorMessage (snd (onSubmit false fd st p)) = Some msg_generic /\
  navigated (snd (onSubmit false fd st p)) = navigated p /\
  isLoading (snd (onSubmit false fd st p)) = false.
Proof.
  intros Ht. rewrite onSubmit_free by exact Ht. cbv zeta. cbn [attempt].
  unfold report_error. cbn [code String.eqb]. page_simpl. repeat split.
Qed.

(** C10. When the insert succeeds, the store holds one more event, with
    the validated title and slug, the admin id of the page and the
    timestamp composed from the date and time fields, and the page
    navigates to the listing with no error. *)
Theorem submit_success_stores_event (fd : FormData) (st st' : S) (row : event_row)
    (p : PageState) :
  titleExists p = false ->
  insert_event st (event_of fd (currentAdminId p)) = (st', inl row) ->
  fst (onSubmit true fd st p) = st' /\
  events_of st' = (events_of st ++ [row])%list /\
  event_title row = fd_title fd /\ event_slug row = fd_slug fd /\
  admin_id row = currentAdminId p /\
  event_date row = TimeComposer.formattedDate (fd_date fd) (fd_hour fd) (fd_min fd)
                     (fd_ampm fd) (fd_timezone fd) /\
  navigated (snd (onSubmit true fd st p)) = true /\
  error (snd (onSubmit true fd st p)) = None.
Proof.
  intros Ht Hi. destruct (onSubmit_success fd st st' row p Ht Hi) as (Hs & Hn & He & _).
  destruct (insert_ok_adds _ _ _ _ Hi) as (Ev & _ & Hti & Hsl & Hd & Ha).
  repeat split; assumption.
Qed.

(** C12. A connected user with no row in [admins] gets the admin id 0,
    and an event this user then creates is stored with [admin_id = 0]:
    the page does not require an admin to create events. *)
Theorem non_admin_creates_as_zero (fd : FormData) (st st' : S) (row : event_row)
    (p : PageState) :
  titleExists p = false ->
  insert_event st (event_of fd (Some 0%Z)) = (st', inl row) ->
  currentAdminId (fetchCurrentAdmin (inr []) p) = Some 0%Z /\
  admin_id row = Some 0%Z /\
  navigated (snd (onSubmit true fd st (fetchCurrentAdmin (inr []) p))) = true.
Proof.
  intros Ht Hi. unfold fetchCurrentAdmin in *. page_simpl.
  assert (Ht' : titleExists (setIsLoading false (setCurrentAdminId (Some 0%Z)
                  (setIsLoading true p))) = false) by (page_simpl; exact Ht).
  destruct (insert_ok_adds _ _ _ _ Hi) as (_ & _ & _ & _ & _ & Ha).
  destruct (onSubmit_success fd st st' row _ Ht' Hi) as (_ & Hn & _).
  repeat split; assumption.
Qed.
(** ** Properties of [handleSubmit] *)

Lemma handleSubmit_parsed (reach : bool) (st : S) (p : PageState) (fd : FormData) :
  EventSchema_parse (values p) = inl fd ->
  handleSubmit reach st p = onSubmit reach fd st (set_errs 0 p).
Proof. intros Hp. unfold handleSubmit. rewrite Hp. reflexivity. Qed.

(** C33. When the schema rejects the values, [handleSubmit] does not call
    [onSubmit]: the store is untouched, the page does not navigate, and
    the form holds one error per failing field, at least one. *)
Theorem handleSubmit_invalid_no_insert (reach : bool) (st : S) (p : PageState)
    (es : list (field * string)) :
  EventSchema_parse (values p) = inr es ->
  fst (handleSubmit reach st p) = st /\
  errs (snd (handleSubmit reach st p)) = length es /\
  errs (snd (handleSubmit reach st p)) <> 0 /\
  navigated (snd (handleSubmit reach st p)) = navigated p /\
  error (snd (handleSubmit reach st p)) = error p.
Proof.
  intros Hp. pose proof (EventSchema_parse_inr _ _ Hp) as Hne.
  unfold handleSubmit. rewrite Hp. cbn [fst snd]. page_simpl.
  repeat split; [].
  destruct es; [contradiction | discriminate].
Qed.

(** C34. A submission that the schema accepts and the store inserts adds
    one row whose title is exactly the key the title watcher looked up
    for the raw title ([trim (to_lower t)]), and whose slug is the
    schema's slug; the page navigates. *)
Theorem handleSubmit_stores_checked_key (st st' : S) (p : PageState) (fd : FormData)
    (t : string) (row : event_row) :
  EventSchema_parse (values p) = inl fd ->
  eventTitle (values p) = Some t ->
  titleExists p = false ->
  insert_event st (event_of fd (currentAdminId p)) = (st', inl row) ->
  fst (handleSubmit true st p) = st' /\
  events_of st' = (events_of st ++ [row])%list /\
  event_title row = trim (to_lower t) /\
  event_slug row = fd_slug fd /\
  navigated (snd (handleSubmit true st p)) = true.
Proof.
  intros Hp Ht Hx Hi. rewrite (handleSubmit_parsed true st p fd Hp).
  assert (Hx' : titleExists (set_errs 0 p) = false) by (page_simpl; exact Hx).
  assert (Hi' : insert_event st (event_of fd (currentAdminId (set_errs 0 p))) = (st', inl row))
    by (page_simpl; exact Hi).
  destruct (onSubmit_success fd st st' row _ Hx' Hi') as (Hs & Hn & _).
  destruct (insert_ok_adds _ _ _ _ Hi) as (Ev & _ & Hti & Hsl & _).
  cbn [event_of ne_title ne_slug] in Hti, Hsl.
  rewrite (parsed_title_is_checked_key _ _ _ Hp Ht) in Hti.
  repeat split; assumption.
Qed.
End SubmitFacts.

(** ** Concrete runs *)

Import Store.ListStore.

Definition demo_form (title slug : string) : FormData :=
  FormDataOf title slug 19783 "7" "05" "PM" "-05:00".

Definition demo_store : db :=
  DB [EventRow 1 "my event_slug party" "my-eventslug-party" None "Fri Mar 1 2024 19:05:00 -05:00"] [] 2.

(** A page on which no title is known to be taken. *)
Definition demo_page : PageState := initial 15 30 300.

(** The conflict column is found by searching [details] for the
    column names, so a title that contains [event_slug] (the title
    schema allows letters, spaces and [_]) is reported as a slug clash:
    the store reports the title column, the page says the slug is
    taken. *)
Example title_conflict_reported_as_slug :
  snd (insert_event demo_store (event_of (demo_form "my event_slug party" "fresh-slug") None))
    = inr (unique_violation "event_title" "my event_slug party") /\
  errorMessage (snd (onSubmit true (demo_form "my event_slug party" "fresh-slug") demo_store
                       demo_page)) = Some msg_slug_taken.
Proof. split; vm_compute; reflexivity. Qed.

Lemma duplicate_title_blocks_insert_witness :
  titleExists (setTitleExists true demo_page) = true /\
  fst (onSubmit true (demo_form "a" "a") demo_store (setTitleExists true demo_page)) = demo_store /\
  error (snd (onSubmit true (demo_form "a" "a") demo_store (setTitleExists true demo_page)))
    = Some DuplicateTitle /\
  errorMessage (snd (onSubmit true (demo_form "a" "a") demo_store (setTitleExists true demo_page)))
    = Some msg_title_taken /\
  navigated (snd (onSubmit true (demo_form "a" "a") demo_store (setTitleExists true demo_page)))
    = navigated (setTitleExists true demo_page).
Proof.
  assert (Ht : titleExists (setTitleExists true demo_page) = true) by reflexivity.
  split; [exact Ht|].
  exact (duplicate_title_blocks_insert true (demo_form "a" "a") demo_store _ Ht).
Defined.

Definition party_store : db := DB [EventRow 1 "party night" "party-night" None "d"] [] 2.

Lemma title_conflict_message_witness :
  (titleExists demo_page = false /\
   In (fd_title (demo_form "party night" "other")) (map event_title (events_of party_store)) /\
   includes (fd_title (demo_form "party night" "other")) "event_slug" = false) /\
  fst (onSubmit true (demo_form "party night" "other") party_store demo_page) = party_store /\
  errorMessage (snd (onSubmit true (demo_form "party night" "other") party_store demo_page))
    = Some msg_title_taken /\
  navigated (snd (onSubmit true (demo_form "party night" "other") party_store demo_page))
    = navigated demo_page /\
  isLoading (snd (onSubmit true (demo_form "party night" "other") party_store demo_page)) = false.
Proof.
  assert (H1 : titleExists demo_page = false) by reflexivity.
  assert (H2 : In (fd_title (demo_form "party night" "other")) (map event_title (events_of party_store)))
    by (left; reflexivity).
  assert (H3 : includes (fd_title (demo_form "party night" "other")) "event_slug" = false)
    by (vm_compute; reflexivity).
  split; [split; [exact H1 | split; [exact H2 | exact H3]] |].
  exact (title_conflict_message (demo_form "party night" "other") party_store demo_page H1 H2 H3).
Defined.

Lemma transient_error_message_witness :
  titleExists demo_page = false /\
  fst (onSubmit false (demo_form "a" "a") demo_store demo_page) = demo_store /\
  error (snd (onSubmit false (demo_form "a" "a") demo_store demo_page))
    = Some (DbError transient_error) /\
  errorMessage (snd (onSubmit false (demo_form "a" "a") demo_store demo_page)) = Some msg_generic /\
  navigated (snd (onSubmit false (demo_form "a" "a") demo_store demo_page)) = navigated demo_page /\
  isLoading (snd (onSubmit false (demo_form "a" "a") demo_store demo_page)) = false.
Proof.
  assert (H1 : titleExists demo_page = false) by reflexivity.
  split; [exact H1|].
  exact (transient_error_message (demo_form "a" "a") demo_store demo_page H1).
Defined.

(** The store after inserting "new" into [demo_store], and the row. *)
Definition new_row : event_row :=
  EventRow 2 "new" "new" None "Fri Mar 1 2024 19:05:00 -05:00".
Definition new_store : db := DB (db_events demo_store ++ [new_row]) [] 3.

Lemma submit_success_stores_event_witness :
  (titleExists demo_page = false /\
   insert_event demo_store (event_of (demo_form "new" "new") (currentAdminId demo_page))
     = (new_store, inl new_row)) /\
  fst (onSubmit true (demo_form "new" "new") demo_store demo_page) = new_store /\
  events_of new_store = (events_of demo_store ++ [new_row])%list /\
  event_title new_row = fd_title (demo_form "new" "new") /\
  event_slug new_row = fd_slug (demo_form "new" "new") /\
  admin_id new_row = currentAdminId demo_page /\
  event_date new_row = TimeComposer.formattedDate (fd_date (demo_form "new" "new"))
    (fd_hour (demo_form "new" "new")) (fd_min (demo_form "new" "new"))
    (fd_ampm (demo_form "new" "new")) (fd_timezone (demo_form "new" "new")) /\
  navigated (snd (onSubmit true (demo_form "new" "new") demo_store demo_page)) = true /\
  error (snd (onSubmit true (demo_form "new" "new") demo_store demo_page)) = None.
Proof.
  assert (H1 : titleExists demo_page = false) by reflexivity.
  assert (H2 : insert_event demo_store (event_of (demo_form "new" "new") (currentAdminId demo_page))
               = (new_store, inl new_row)) by (vm_compute; reflexivity).
  split; [split; [exact H1 | exact H2] |].
  exact (submit_success_stores_event (demo_form "new" "new") demo_store new_store new_row
           demo_page H1 H2).
Defined.

Definition new_row0 : event_row :=
  EventRow 2 "new" "new" (Some 0%Z) "Fri Mar 1 2024 19:05:00 -05:00".
Definition new_store0 : db := DB (db_events demo_store ++ [new_row0]) [] 3.

Lemma non_admin_creates_as_zero_witness :
  (titleExists demo_page = false /\
   insert_event demo_store (event_of (demo_form "new" "new") (Some 0%Z)) = (new_store0, inl new_row0)) /\
  currentAdminId (fetchCurrentAdmin (inr []) demo_page) = Some 0%Z /\
  admin_id new_row0 = Some 0%Z /\
  navigated (snd (onSubmit true (demo_form "new" "new") demo_store
                    (fetchCurrentAdmin (inr []) demo_page))) = true.
Proof.
  assert (H1 : titleExists demo_page = false) by reflexivity.
  assert (H2 : insert_event demo_store (event_of (demo_form "new" "new") (Some 0%Z))
               = (new_store0, inl new_row0)) by (vm_compute; reflexivity).
  split; [split; [exact H1 | exact H2] |].
  exact (non_admin_creates_as_zero (demo_form "new" "new") demo_store new_store0 new_row0
           demo_page H1 H2).
Defined.

(** The untouched initial page: title, slug and date fail. *)
Definition demo_errors : list (field * string) :=
  [(FTitle, "Event name must be at least 1 character.");
   (FSlug, "Event slug must be at least 1 character.");
   (FDate, "A date for this event is required.")].

Lemma demo_page_rejected : EventSchema_parse (values demo_page) = inr demo_errors.
Proof. vm_compute. reflexivity. Qed.

Lemma handleSubmit_invalid_no_insert_witness :
  EventSchema_parse (values demo_page) = inr demo_errors /\
  (fst (handleSubmit true demo_store demo_page) = demo_store /\
   errs (snd (handleSubmit true demo_store demo_page)) = length demo_errors /\
   errs (snd (handleSubmit true demo_store demo_page)) <> 0 /\
   navigated (snd (handleSubmit true demo_store demo_page)) = navigated demo_page /\
   error (snd (handleSubmit true demo_store demo_page)) = error demo_page).
Proof.
  split; [exact demo_page_rejected|].
  exact (handleSubmit_invalid_no_insert true demo_store demo_page demo_errors demo_page_rejected).
Defined.

(** A filled-in form whose title is [raw]. *)
Definition filled (raw slug : string) : PageState :=
  set_values (FV (Some raw) (Some slug) (Some 19783%Z) (Some "7") (Some "05") (Some "PM")
                 (Some "-05:00")) demo_page.

Definition board_row : event_row :=
  EventRow 2 "board games" "board-games" None "Fri Mar 1 2024 19:05:00 -05:00".

Lemma filled_parse :
  EventSchema_parse (values (filled " Board Games" "board-games")) =
    inl (demo_form "board games" "board-games").
Proof. vm_compute. reflexivity. Qed.

Lemma filled_insert :
  insert_event demo_store (event_of (demo_form "board games" "board-games")
                             (currentAdminId (filled " Board Games" "board-games"))) =
    (DB (db_events demo_store ++ [board_row]) [] 3, inl board_row).
Proof. vm_compute. reflexivity. Qed.

Lemma handleSubmit_stores_checked_key_witness :
  (EventSchema_parse (values (filled " Board Games" "board-games")) =
     inl (demo_form "board games" "board-games") /\
   eventTitle (values (filled " Board Games" "board-games")) = Some " Board Games" /\
   titleExists (filled " Board Games" "board-games") = false /\
   insert_event demo_store (event_of (demo_form "board games" "board-games")
                             (currentAdminId (filled " Board Games" "board-games"))) =
     (DB (db_events demo_store ++ [board_row]) [] 3, inl board_row)) /\
  (fst (handleSubmit true demo_store (filled " Board Games" "board-games")) =
     DB (db_events demo_store ++ [board_row]) [] 3 /\
   events_of (DB (db_events demo_store ++ [board_row]) [] 3) =
     (events_of demo_store ++ [board_row])%list /\
   event_title board_row = trim (to_lower " Board Games") /\
   event_slug board_row = fd_slug (demo_form "board games" "board-games") /\
   navigated (snd (handleSubmit true demo_store (filled " Board Games" "board-games"))) = true).
Proof.
  refine (conj (conj filled_parse (conj eq_refl (conj eq_refl filled_insert))) _).
  exact (handleSubmit_stores_checked_key demo_store _ (filled " Board Games" "board-games")
           (demo_form "board games" "board-games") " Board Games" board_row
           filled_parse eq_refl eq_refl filled_insert).
Defined.

(** Submitting a title of three spaces (with the slug typed by hand)
    passes validation and stores an event whose title is the empty
    string. *)
Example blank_title_event_stored :
  map event_title (events_of (fst (handleSubmit true demo_store (filled "   " "x")))) =
    ["my event_slug party"; ""] /\
  navigated (snd (handleSubmit true demo_store (filled "   " "x"))) = true.
Proof. vm_compute. split; reflexivity. Qed.

End EventSubmitter.
