(* ===== verification/AddEventView.v ===== *)
(** * FormView: what the add-event page shows

    After its hooks and handlers, [AddEvent] (src/app/addEvent/page.tsx,
    lines 386-650) computes [baseUrl] from the environment with the
    fallback ['localhost:300'] (line 386), returns [<Loading />] while
    [isLoading] holds (lines 390-392), a page with only the profile
    popover when no wallet is connected (lines 394-402), and otherwise
    the form ([form_view]): the header's Return Home link (lines
    409-418), the red paragraph [{error && <p>{errorMessage}</p>}]
    ([error_banner], line 423), a notice under the title while
    [titleExists] (lines 441-445), the event URL preview under the slug
    (lines 470-474), the date button's text and greying (DateLabel.v),
    the slug input that swallows the space key (lines 463-467), and the
    button with [disabled={!submitButtonEnabled || isCheckingTitle}].

    [render] is that choice.  The lemmas show that the page stays on the
    loading screen until the admin lookup answers, whatever it answers,
    that without the environment variable the preview is a
    [localhost:300] address (a port of three digits, no scheme), and
    that a conflict naming neither column leaves the banner without
    text.  [failed_submit_keeps_form] composes the view with
    [handleSubmit] (Submitter.v): a submission that does not navigate
    always leaves the form on screen with an error and the button as it
    was. *)

From Stdlib Require Import String List Bool ZArith.
From S2P Require Import Prelude DateLabel Store Page Schema Checker Submitter.
Import ListNotations.
Local Open Scope string_scope.

Module FormView.
Import Store AddEventPage EventSubmitter.

(** [process.env.NEXT_PUBLIC_WEBSITE_BASE_URL || 'localhost:300']: an
    unset or empty variable falls back. *)
Definition baseUrl (env : option string) : string :=
  match env with
  | Some s => if String.eqb s EmptyString then "localhost:300" else s
  | None => "localhost:300"
  end.

(** The slug input's [onKeyDown]: [true] when the key's default action
    is prevented. *)
Definition slug_onKeyDown (key : string) : bool := String.eqb key " ".

(** A key typed into the slug input: the input appends it and reports
    the change, unless [onKeyDown] prevented it. *)
Definition slug_keypress (key : string) (p : PageState) : PageState :=
  if slug_onKeyDown key then p
  else TitleWatcher.onChange FSlug
         (IText (TitleWatcher.opt_default EmptyString (eventSlug (values p)) ++ key)) p.

(** The text under the slug field. *)
Definition slug_preview (base : string) (slug : option string) : string :=
  match slug with
  | Some s => if String.eqb s EmptyString then "Enter a slug to see your event URL"
              else base ++ "/events/" ++ s
  | None => "Enter a slug to see your event URL"
  end.

(** [{isConnected && <Link href='/'>Return Home</Link>}] in the header
    (lines 409-418). *)
Definition header_returnHome (isConnected : bool) : bool := isConnected.

(** [{error && <p>{errorMessage}</p>}] (line 423): the paragraph is shown
    whenever [error] is set, with the message's text, or with no text
    when [errorMessage] is [null]. *)
Definition error_banner (p : PageState) : option (option string) :=
  match error p with
  | Some _ => Some (errorMessage p)
  | None => None
  end.

(** What the form shows: the header link, the error banner, the notice
    under the title (lines 441-445), the event URL preview, the date
    button's text and greying, and whether the submit button is
    disabled. *)
Record form_parts : Type := FormParts {
  fp_returnHome : bool;
  fp_banner : option (option string);
  fp_titleNotice : bool;
  fp_preview : string;
  fp_dateLabel : string;
  fp_dateMuted : bool;
  fp_disabled : bool
}.

(** The form page (lines 405-642), from the page's state. *)
Definition form_view (isConnected : bool) (env : option string) (p : PageState) : form_parts :=
  FormParts (header_returnHome isConnected) (error_banner p) (titleExists p)
    (slug_preview (baseUrl env) (eventSlug (values p)))
    (DateButton.date_label (eventDate (values p))) (DateButton.date_muted (eventDate (values p)))
    (disabled p).

Inductive view : Type :=
| LoadingView
| ConnectView
| FormShown (f : form_parts).

(** The page's return value. *)
Definition render (isConnected : bool) (env : option string) (p : PageState) : view :=
  if isLoading p then LoadingView
  else if negb isConnected then ConnectView
  else FormShown (form_view isConnected env p).

(** ** Lemmas *)

(** [report_error] sets [error] and touches neither loading, the button
    nor navigation. *)
Lemma report_error_fields (err : pg_error) (q : PageState) :
  error (report_error err q) = Some (DbError err) /\
  isLoading (report_error err q) = isLoading q /\
  disabled (report_error err q) = disabled q /\
  navigated (report_error err q) = navigated q.
Proof.
  unfold report_error, disabled.
  destruct (String.eqb (code err) "23505"); [destruct (includes (details err) "event_title");
    destruct (includes (details err) "event_slug")|]; page_simpl; auto.
Qed.

(** A conflict that names neither column leaves [errorMessage] as it was. *)
Lemma report_error_unnamed (err : pg_error) (q : PageState) :
  code err = "23505" -> includes (details err) "event_title" = false ->
  includes (details err) "event_slug" = false ->
  errorMessage (report_error err q) = errorMessage q.
Proof.
  intros Hc Ht Hs. unfold report_error. rewrite Hc, Ht, Hs. cbn [String.eqb Ascii.eqb Bool.eqb].
  page_simpl. reflexivity.
Qed.

(** The page mounts on the loading screen, and leaves it when the admin
    lookup answers, with an error, no row or a row. *)
Lemma loading_until_admin_answer (h m : nat) (o : Z) (conn : bool) (env : option string)
    (res : pg_error + list Z) :
  render conn env (initial h m o) = LoadingView /\
  render conn env (fetchCurrentAdmin res (initial h m o)) <> LoadingView.
Proof.
  split; [reflexivity|]. unfold render, fetchCurrentAdmin.
  destruct res as [err|[|a l]]; page_simpl; destruct conn; cbn; discriminate.
Qed.

(** Without the environment variable, the URL shown for a slug is a
    [localhost:300] address. *)
Lemma preview_without_env (s : string) :
  s <> EmptyString -> slug_preview (baseUrl None) (Some s) = "localhost:300/events/" ++ s.
Proof.
  intros Hs. unfold slug_preview. destruct (String.eqb_spec s EmptyString); [contradiction|].
  reflexivity.
Qed.

(** ** Properties *)

Section Claims.
Context {S : Type} `{RecordStore S}.

(** C9. Every failed submission leaves the form on screen and actionable:
    when [form.handleSubmit(onSubmit)] does not navigate, whatever the
    schema, the guard and the store answered, the page (connected, not
    loading before) shows the form, with the error banner or at least one
    field error, and the submit button enabled or disabled exactly as
    before, so the user can correct the form and submit again. *)
Theorem failed_submit_keeps_form (reach : bool) (st : S) (p : PageState) (env : option string) :
  isLoading p = false ->
  navigated (snd (handleSubmit reach st p)) = false ->
  exists f, render true env (snd (handleSubmit reach st p)) = FormShown f /\
    (fp_banner f <> None \/ errs (snd (handleSubmit reach st p)) <> 0) /\
    fp_disabled f = disabled p.
Proof.
  intros Hl Hn. unfold handleSubmit in *.
  destruct (EventSchema.EventSchema_parse (values p)) as [fd|es] eqn:Ep.
  - unfold onSubmit in *. page_simpl. destruct (titleExists p).
    + cbn [snd]. unfold render, form_view, error_banner, disabled. page_simpl. rewrite Hl.
      eexists. split; [reflexivity|]. cbn [fp_banner fp_disabled]. split; [left; discriminate | reflexivity].
    + destruct (attempt reach _ _ st) as [st' [row|err]]; cbn [snd] in Hn |- *.
      * unfold routerPush in Hn. page_simpl. discriminate.
      * destruct (report_error_fields err (setIsLoading false (setTitleExists false
          (setErrorMessage None (setError None (setIsLoading true (set_errs 0 p)))))))
          as (He & Hl' & Hd & _).
        unfold render, form_view, error_banner. rewrite He, Hl'. page_simpl.
        eexists. split; [reflexivity|]. cbn [fp_banner fp_disabled].
        split; [left; discriminate|]. rewrite Hd. unfold disabled. page_simpl. reflexivity.
  - cbn [snd]. unfold render, form_view. page_simpl. rewrite Hl.
    eexists. split; [reflexivity|]. cbn [fp_disabled]. split; [|unfold disabled; page_simpl; reflexivity].
    right. destruct es; [exact (False_ind _ (EventSchema.EventSchema_parse_inr _ _ Ep eq_refl)) | discriminate].
Qed.
End Claims.

(** ** A concrete run *)

Import Store.ListStore.

(** The admin known, the form filled with a title the store already
    holds ("my event_slug party"): the insert fails. *)
Definition clash_page : PageState :=
  fetchCurrentAdmin (inr [1%Z]) (filled "my event_slug party" "fresh-slug").

Lemma failed_submit_keeps_form_witness :
  (isLoading clash_page = false /\
   navigated (snd (handleSubmit true EventSubmitter.demo_store clash_page)) = false) /\
  exists f, render true None (snd (handleSubmit true EventSubmitter.demo_store clash_page)) = FormShown f /\
    (fp_banner f <> None \/ errs (snd (handleSubmit true EventSubmitter.demo_store clash_page)) <> 0) /\
    fp_disabled f = disabled clash_page.
Proof.
  assert (Hl : isLoading clash_page = false) by (vm_compute; reflexivity).
  assert (Hn : navigated (snd (handleSubmit true EventSubmitter.demo_store clash_page)) = false)
    by (vm_compute; reflexivity).
  split; [split; [exact Hl | exact Hn]|].
  exact (failed_submit_keeps_form true EventSubmitter.demo_store clash_page None Hl Hn).
Defined.

(** There the banner shows the slug message, the title notice is off and
    the date button reads the picked day. *)
Example clash_page_view :
  render true None (snd (handleSubmit true EventSubmitter.demo_store clash_page)) =
    FormShown (FormParts true (Some (Some msg_slug_taken)) false
                 "localhost:300/events/fresh-slug" "March 1st, 2024" false true).
Proof. vm_compute. reflexivity. Qed.

End FormView.
