(* ===== verification/Deleter.v ===== *)
(** * EventDeleter: the home page and [handleDeleteEvent]

    [HomePage] (src/app/page.tsx) loads the events and the signed-in
    admin, and deletes an event with [handleDeleteEvent] (lines 81-108):
    it deletes the event's photos, then the event, and on success removes
    the event from the list it shows; any error is caught, logged and
    stored, and loading ends in [finally].

    The handler is an [async] function with two [await]s.  It is modelled
    as a machine whose program counter is the code's position ([loc]:
    entry, suspended at either [await], returned); one [del_step] runs
    the code from one position to the next and records each store call
    with its outcome ([call]).  The spec's machine is the relation
    [spec_step] on [phase]s.  [abs] reads the spec phase a configuration
    stands for off its position and its call history; the refinement
    theorem shows that every step of the handler moves along a spec
    transition through [abs], so a handler calling the store in another
    order, or going on after a failure, would leave the spec.  The
    handler returns after three steps in a final phase, and sends the
    event's deletion only once the store holds no photo of it.

    [fetchEvents] and [fetchCurrentAdmin] are split at their [await]
    ([_finish]) so that Home can interleave them; [events_answer] is the
    listing [fetchEvents] awaits, in the order its query asks for.

    Store calls go through [attempt] with the environment's [reach] flag;
    the proofs use the laws [RecordStoreLaws]. *)

From Stdlib Require Import String List Bool Arith ZArith Lia Relation_Operators.
From S2P Require Import Prelude Store.
Import ListNotations.
Local Open Scope string_scope.
Local Open Scope list_scope.

Module EventDeleter.
Import Store.

(** The home page's hooks (lines 28-31). *)
Record HomeState : Type := HS {
  h_isLoading : bool;
  h_currentAdminId : option Z;
  h_events : list event_row;
  h_error : option pg_error
}.

Definition setIsLoading (b : bool) (h : HomeState) : HomeState :=
  HS b (h_currentAdminId h) (h_events h) (h_error h).
Definition setCurrentAdminId (a : option Z) (h : HomeState) : HomeState :=
  HS (h_isLoading h) a (h_events h) (h_error h).
Definition setEvents (es : list event_row) (h : HomeState) : HomeState :=
  HS (h_isLoading h) (h_currentAdminId h) es (h_error h).
Definition setError (e : option pg_error) (h : HomeState) : HomeState :=
  HS (h_isLoading h) (h_currentAdminId h) (h_events h) e.

(** [fetchEvents] after its [await] (lines 43-51): [res] is the answer
    of [from('events').select('*').order('event_date', {ascending: false})]. *)
Definition fetchEvents_finish (res : pg_error + list event_row) (h : HomeState) : HomeState :=
  let h2 := match res with
            | inl err => setError (Some err) h
            | inr rows => setEvents rows h
            end in
  setIsLoading false h2.

(** [fetchEvents] (lines 34-52), when nothing runs during its [await]. *)
Definition fetchEvents (res : pg_error + list event_row) (h : HomeState) : HomeState :=
  fetchEvents_finish res (setIsLoading true h).

(** [fetchCurrentAdmin] of the home page after its [await] (lines
    67-75): unlike the add-event page, no row leaves the id [null]. *)
Definition fetchCurrentAdmin_finish (res : pg_error + list Z) (h : HomeState) : HomeState :=
  let h2 := match res with
            | inl err => setError (Some err) h
            | inr (a :: _) => setCurrentAdminId (Some a) h
            | inr [] => h
            end in
  setIsLoading false h2.

(** [fetchCurrentAdmin] (lines 57-79), when nothing runs during its
    [await]. *)
Definition fetchCurrentAdmin (res : pg_error + list Z) (h : HomeState) : HomeState :=
  fetchCurrentAdmin_finish res (setIsLoading true h).

(** The query of [fetchEvents] (lines 38-41):
    [.order('event_date', { ascending: false })]. *)
Definition events_query : order_by := OrderBy "event_date" false.

Section Fetch.
Context {S : Type} `{RecordStore S}.

(** The answer [fetchEvents] awaits: the store's listing in the order of
    [events_query], or the transient error when the request does not go
    through. *)
Definition events_answer (reach : bool) (st : S) : pg_error + list event_row :=
  if reach then inr (list_events st events_query) else inl transient_error.
End Fetch.

(** Where [handleDeleteEvent] is: before its body, suspended at its first
    [await] (the photos, line 86) or its second (the event, line 94), or
    returned. *)
Inductive loc : Type :=
| Entry | AwaitPhotos | AwaitEvent | Returned.

(** A store call the handler made, and whether it succeeded. *)
Inductive call : Type :=
| CallDeletePhotos (id : Z) (ok : bool)
| CallDeleteEvent (id : Z) (ok : bool).

Section Handler.
Context {S : Type} `{RecordStore S}.

(** The handler's state between [await]s. *)
Record config : Type := Config {
  pc : loc;
  store : S;
  home : HomeState;
  calls : list call      (* the store calls made so far, in order *)
}.

(** One step of [handleDeleteEvent id], from an [await] to the next;
    [reach] says whether the store call answered at this step went
    through.  [events] is the list the handler's closure sees (line 101).
    A failed call is thrown, caught (lines 102-104) and loading ends in
    [finally] (lines 105-106). *)
Definition del_step (id : Z) (events : list event_row) (reach : bool) (c : config) : config :=
  match pc c with
  | Entry => Config AwaitPhotos (store c) (setIsLoading true (home c)) (calls c)
  | AwaitPhotos =>
      let '(st', e) := attempt reach (fun s => delete_photos s id) (Some transient_error) (store c) in
      match e with
      | Some err =>
          Config Returned st' (setIsLoading false (setError (Some err) (home c)))
            (calls c ++ [CallDeletePhotos id false])
      | None => Config AwaitEvent st' (home c) (calls c ++ [CallDeletePhotos id true])
      end
  | AwaitEvent =>
      let '(st', e) := attempt reach (fun s => delete_event s id) (Some transient_error) (store c) in
      match e with
      | Some err =>
          Config Returned st' (setIsLoading false (setError (Some err) (home c)))
            (calls c ++ [CallDeleteEvent id false])
      | None =>
          Config Returned st'
            (setIsLoading false
               (setEvents (filter (fun ev => negb (Z.eqb (ev_id ev) id)) events) (home c)))
            (calls c ++ [CallDeleteEvent id true])
      end
  | Returned => c
  end.

(** [handleDeleteEvent id]: the three steps, the two store calls
    reaching the store or not as [reach1] and [reach2] say. *)
Definition handleDeleteEvent (id : Z) (reach1 reach2 : bool) (st : S) (h : HomeState) : config :=
  let c0 := Config Entry st h [] in
  del_step id (h_events h) reach2 (del_step id (h_events h) reach1 (del_step id (h_events h) true c0)).

(** The configurations the handler passes through, whatever each call
    answers. *)
Inductive del_reach (id : Z) (events : list event_row) (st : S) (h : HomeState) : config -> Prop :=
| dr_init : del_reach id events st h (Config Entry st h [])
| dr_step c reach : del_reach id events st h c -> del_reach id events st h (del_step id events reach c).
End Handler.

Arguments config S : clear implicits.

(** ** The spec's deletion machine (spec section 4.6) *)

Inductive phase : Type :=
| Idle | DeletingDependents | DeletingParent | Done | Failed.

Inductive spec_step : phase -> phase -> Prop :=
| sp_start : spec_step Idle DeletingDependents
| sp_dependents_ok : spec_step DeletingDependents DeletingParent
| sp_dependents_fail : spec_step DeletingDependents Failed
| sp_parent_ok : spec_step DeletingParent Done
| sp_parent_fail : spec_step DeletingParent Failed.

Definition final (ph : phase) : bool :=
  match ph with Done | Failed => true | _ => false end.

(** The spec phase a configuration stands for, read off where the code
    is and the calls it made with their outcomes: no call before the
    deletion starts or while the photos are awaited; one successful
    photo deletion while the event is awaited; after returning, a failed
    photo deletion alone, or a successful one followed by the event's
    deletion.  Any other history matches no phase ([None]). *)
Definition abs {S : Type} (id : Z) (c : config S) : option phase :=
  match pc c, calls c with
  | Entry, [] => Some Idle
  | AwaitPhotos, [] => Some DeletingDependents
  | AwaitEvent, [CallDeletePhotos i true] => if Z.eqb i id then Some DeletingParent else None
  | Returned, [CallDeletePhotos i false] => if Z.eqb i id then Some Failed else None
  | Returned, [CallDeletePhotos i true; CallDeleteEvent j ok] =>
      if Z.eqb i id && Z.eqb j id then Some (if ok then Done else Failed) else None
  | _, _ => None
  end.



Section DeleteFacts.
Context {S : Type} `{RecordStore S}.

(** The configuration after the first two steps, by the outcome of the
    photo deletion. *)
Lemma handle_after_photos (id : Z) (r1 r2 : bool) (st : S) (h : HomeState) :
  handleDeleteEvent id r1 r2 st h =
  let '(st1, e1) := attempt r1 (fun s => delete_photos s id) (Some transient_error) st in
  match e1 with
  | Some err => Config Returned st1 (setIsLoading false (setError (Some err) (setIsLoading true h)))
                  [CallDeletePhotos id false]
  | None => del_step id (h_events h) r2
              (Config AwaitEvent st1 (setIsLoading true h) [CallDeletePhotos id true])
  end.
Proof.
  unfold handleDeleteEvent. cbn [del_step pc store home calls app].
  destruct (attempt r1 _ _ st) as [st1 [err|]]; reflexivity.
Qed.

(** The configurations [abs] gives a phase to. *)
Lemma abs_cases (id : Z) (c : config S) (ph : phase) :
  abs id c = Some ph ->
  (pc c = Entry /\ calls c = [] /\ ph = Idle) \/
  (pc c = AwaitPhotos /\ calls c = [] /\ ph = DeletingDependents) \/
  (pc c = AwaitEvent /\ calls c = [CallDeletePhotos id true] /\ ph = DeletingParent) \/
  (pc c = Returned /\ final ph = true).
Proof.
  destruct c as [l st h cs]. unfold abs. cbn [pc calls].
  destruct l, cs as [|[i [|]|i [|]] [|[j [|]|j [|]] [|]]]; intros E; try discriminate;
    repeat match goal with
           | E : (if ?b then _ else _) = _ |- _ => destruct b eqn:?; [|discriminate]
           end;
    injection E as <-; rewrite ?Bool.andb_true_iff in *;
    repeat match goal with Hb : _ /\ _ |- _ => destruct Hb end;
    repeat match goal with Hz : Z.eqb _ _ = true |- _ => apply Z.eqb_eq in Hz; subst end;
    auto 10.
Qed.

(** A failed call through [attempt] leaves the store as it was. *)
Lemma attempt_photos_fail `{!RecordStoreLaws S} (r : bool) (id : Z) (st st1 : S) (err : pg_error) :
  attempt r (fun s => delete_photos s id) (Some transient_error) st = (st1, Some err) -> st1 = st.
Proof.
  destruct r; cbn [attempt]; [|congruence].
  intros E. destruct (delete_photos_spec st id st1 (Some err) E) as (_ & _ & Hne).
  apply Hne. discriminate.
Qed.

(** A successful photo deletion leaves no photo of the event. *)
Lemma attempt_photos_ok `{!RecordStoreLaws S} (r : bool) (id : Z) (st st1 : S) :
  attempt r (fun s => delete_photos s id) (Some transient_error) st = (st1, None) ->
  forall p, In p (photos_of st1) -> event_id p <> id.
Proof.
  destruct r; cbn [attempt]; [|congruence]. intros E p Hin.
  destruct (delete_photos_spec st id st1 None E) as (_ & Hph & _).
  rewrite (Hph eq_refl), filter_In in Hin. destruct Hin as [_ Hne].
  apply negb_true_iff, Z.eqb_neq in Hne. exact Hne.
Qed.

(** Where the event is awaited, the store holds no photo of it. *)
Lemma del_reach_photos_gone `{!RecordStoreLaws S} (id : Z) (events : list event_row) (st : S)
    (h : HomeState) (c : config S) :
  del_reach id events st h c -> pc c = AwaitEvent ->
  forall p, In p (photos_of (store c)) -> event_id p <> id.
Proof.
  induction 1 as [|c reach _ IH]; [discriminate|].
  destruct c as [[] st0 h0 cs]; unfold del_step; cbn [pc store home calls] in *.
  - discriminate.
  - destruct (attempt reach _ _ st0) as [st1 [err|]] eqn:E; cbn [pc store]; [discriminate|].
    intros _. exact (attempt_photos_ok reach id st0 st1 E).
  - destruct (attempt reach _ _ st0) as [st1 [err|]]; cbn [pc]; discriminate.
  - exact IH.
Qed.
End DeleteFacts.

(** ** Properties of [handleDeleteEvent] *)

Section DeleteClaims.
Context {S : Type} `{RecordStoreLaws S}.

(** C25. The handler refines the spec's deletion machine: from every
    configuration whose position and call history stand for a phase of
    the spec ([abs]), a step of the handler that is not final leads to a
    configuration standing for a successor of that phase in the spec,
    and a final configuration never moves.  A handler that deleted the
    event before the photos, or went on after a failed photo deletion,
    would produce a call history that stands for no phase. *)
Theorem del_step_refines (id : Z) (events : list event_row) (reach : bool) (c : config S)
    (ph : phase) :
  abs id c = Some ph ->
  (final ph = false ->
   exists ph', abs id (del_step id events reach c) = Some ph' /\ spec_step ph ph') /\
  (final ph = true -> del_step id events reach c = c).
Proof.
  intros Ha. destruct c as [l st h cs].
  destruct (abs_cases id _ ph Ha) as [(Hl & Hc & ->)|[(Hl & Hc & ->)|[(Hl & Hc & ->)|(Hl & Hf)]]];
    cbn [pc calls] in *; subst; unfold del_step; cbn [pc store home calls final].
  - split; [intros _; eexists; split; [reflexivity | constructor] | discriminate].
  - split; [intros _|discriminate].
    destruct (attempt reach _ _ st) as [st' [err|]]; eexists; (split; [unfold abs; cbn; rewrite Z.eqb_refl; reflexivity | constructor]).
  - split; [intros _|discriminate].
    destruct (attempt reach _ _ st) as [st' [err|]]; eexists; (split; [unfold abs; cbn; rewrite Z.eqb_refl; reflexivity | constructor]).
  - rewrite Hf. split; [discriminate | reflexivity].
Qed.

(** C26. The handler always returns, and its history then stands for a
    final phase of the spec, reached from [Idle] by the spec's
    transitions, with loading turned off. *)
Theorem handleDeleteEvent_terminates (id : Z) (r1 r2 : bool) (st : S) (h : HomeState) :
  pc (handleDeleteEvent id r1 r2 st h) = Returned /\
  exists ph, abs id (handleDeleteEvent id r1 r2 st h) = Some ph /\ final ph = true /\
    clos_refl_trans phase spec_step Idle ph /\
    h_isLoading (home (handleDeleteEvent id r1 r2 st h)) = false.
Proof.
  rewrite handle_after_photos.
  destruct (attempt r1 _ _ st) as [st1 [err|]].
  - split; [reflexivity|]. exists Failed. unfold abs. cbn. rewrite Z.eqb_refl.
    repeat split. apply rt_trans with DeletingDependents; apply rt_step; constructor.
  - unfold del_step. cbn [pc store home calls].
    destruct (attempt r2 _ _ st1) as [st2 [err|]]; (split; [reflexivity|]);
      [exists Failed | exists Done]; unfold abs; cbn; rewrite Z.eqb_refl; repeat split;
      apply rt_trans with DeletingParent;
      (apply rt_trans with DeletingDependents; apply rt_step; constructor) || (apply rt_step; constructor).
Qed.

(** C23. If deleting the photos fails (the request does not go through
    or the store reports an error), the event is never asked to be
    deleted: the only store call is the failed photo deletion, the store
    is unchanged, the list shown is unchanged, the error is shown and
    the run stands for the spec's [Failed]. *)
Theorem photos_failure_aborts (id : Z) (r1 r2 : bool) (st : S) (h : HomeState) :
  (r1 = false \/ snd (delete_photos st id) <> None) ->
  calls (handleDeleteEvent id r1 r2 st h) = [CallDeletePhotos id false] /\
  store (handleDeleteEvent id r1 r2 st h) = st /\
  abs id (handleDeleteEvent id r1 r2 st h) = Some Failed /\
  h_events (home (handleDeleteEvent id r1 r2 st h)) = h_events h /\
  h_error (home (handleDeleteEvent id r1 r2 st h)) <> None.
Proof.
  intros Hfail. rewrite handle_after_photos.
  destruct (attempt r1 _ _ st) as [st1 [err|]] eqn:E.
  - apply attempt_photos_fail in E. subst st1. unfold abs. cbn. rewrite Z.eqb_refl.
    repeat split. discriminate.
  - exfalso. destruct r1; cbn [attempt] in E; [|discriminate].
    destruct Hfail as [Hf | Hne]; [discriminate|].
    rewrite E in Hne. apply Hne. reflexivity.
Qed.

(** C24. When both deletions succeed, the store has no photo of the
    event and no event with its id, the photos were deleted before the
    event, the run stands for the spec's [Done], and the list shown is
    the list without the event. *)
Theorem delete_success (id : Z) (st st1 st2 : S) (h : HomeState) :
  delete_photos st id = (st1, None) -> delete_event st1 id = (st2, None) ->
  abs id (handleDeleteEvent id true true st h) = Some Done /\
  calls (handleDeleteEvent id true true st h) = [CallDeletePhotos id true; CallDeleteEvent id true] /\
  store (handleDeleteEvent id true true st h) = st2 /\
  (forall p, In p (photos_of st2) -> event_id p <> id) /\
  (forall e, In e (events_of st2) -> ev_id e <> id) /\
  h_events (home (handleDeleteEvent id true true st h))
    = filter (fun ev => negb (Z.eqb (ev_id ev) id)) (h_events h).
Proof.
  intros E1 E2. rewrite handle_after_photos. cbn [attempt]. rewrite E1.
  unfold del_step. cbn [pc store home calls attempt]. rewrite E2.
  destruct (delete_event_spec st1 id st2 None E2) as (Hp & Hev & _).
  destruct (Hev eq_refl) as [Hevs Hno].
  unfold abs. cbn. rewrite Z.eqb_refl. repeat split.
  - intros p Hin. rewrite Hp in Hin. apply Hno, Hin.
  - intros e Hin. rewrite Hevs, filter_In in Hin. destruct Hin as [_ Hne].
    apply negb_true_iff, Z.eqb_neq in Hne. exact Hne.
Qed.

(** C27. When the photos are deleted but the event deletion fails, the
    handler stops with its run standing for the spec's [Failed] and the
    error shown: the event's photos are gone from the store, the event
    row is still there, and the list shown is unchanged (the spec's
    accepted partial state). *)
Theorem delete_parent_failure (id : Z) (r2 : bool) (st st1 : S) (h : HomeState) :
  delete_photos st id = (st1, None) ->
  (r2 = false \/ snd (delete_event st1 id) <> None) ->
  abs id (handleDeleteEvent id true r2 st h) = Some Failed /\
  events_of (store (handleDeleteEvent id true r2 st h)) = events_of st /\
  (forall p, In p (photos_of (store (handleDeleteEvent id true r2 st h))) -> event_id p <> id) /\
  h_events (home (handleDeleteEvent id true r2 st h)) = h_events h /\
  h_error (home (handleDeleteEvent id true r2 st h)) <> None.
Proof.
  intros E1 Hfail. rewrite handle_after_photos. cbn [attempt]. rewrite E1.
  destruct (delete_photos_spec st id st1 None E1) as (Hev1 & _ & _).
  pose proof (attempt_photos_ok true id st st1 E1) as Hgone.
  unfold del_step. cbn [pc store home calls].
  destruct r2; cbn [attempt].
  - destruct (delete_event st1 id) as [st2 [err|]] eqn:E2.
    + destruct (delete_event_spec st1 id st2 (Some err) E2) as (_ & _ & Hne).
      rewrite (Hne ltac:(discriminate)). unfold abs. cbn. rewrite Z.eqb_refl.
      repeat split; [exact Hev1 | exact Hgone | discriminate].
    + exfalso. destruct Hfail as [Hf | Hne]; [discriminate|]. apply Hne. reflexivity.
  - unfold abs. cbn. rewrite Z.eqb_refl. repeat split; [exact Hev1 | exact Hgone | discriminate].
Qed.

(** C28. The handler asks the store to delete the event only when the
    store holds no photo of it: on every configuration the handler
    passes through, whatever each call answered, a step that sends the
    event's deletion starts from a store without photos of the event.
    A handler that deleted the event first, or went on after a failed
    photo deletion, would send it with the photos still there. *)
Theorem event_deleted_after_photos (id : Z) (events : list event_row) (st : S) (h : HomeState)
    (c : config S) (reach : bool) :
  del_reach id events st h c ->
  (exists ok, calls (del_step id events reach c) = calls c ++ [CallDeleteEvent id ok]) ->
  forall p, In p (photos_of (store c)) -> event_id p <> id.
Proof.
  intros Hr [ok Hc]. destruct (pc c) eqn:Hl.
  - exfalso. unfold del_step in Hc. rewrite Hl in Hc. cbn [calls] in Hc.
    apply (f_equal (@length call)) in Hc. rewrite length_app in Hc. cbn in Hc. lia.
  - exfalso. unfold del_step in Hc. rewrite Hl in Hc.
    destruct (attempt reach _ _ (store c)) as [st' [err|]]; cbn [calls] in Hc;
      apply app_inv_head in Hc; discriminate.
  - exact (del_reach_photos_gone id events st h c Hr Hl).
  - exfalso. unfold del_step in Hc. rewrite Hl in Hc.
    apply (f_equal (@length call)) in Hc. rewrite length_app in Hc. cbn in Hc. lia.
Qed.
End DeleteClaims.

(** ** Concrete runs *)

Import Store.ListStore.

(** Event 5 with two photos, and event 6 with none. *)
Definition demo_store : db :=
  DB [EventRow 5 "party" "party" (Some 1%Z) "d"; EventRow 6 "other" "other" (Some 1%Z) "d"]
     [PhotoRow 10 5; PhotoRow 11 5] 7.

Definition demo_home : HomeState := HS false (Some 1%Z) (db_events demo_store) None.

Definition demo_no_photos : db :=
  DB (db_events demo_store) [] 7.
Definition demo_deleted : db :=
  DB [EventRow 6 "other" "other" (Some 1%Z) "d"] [] 7.

Lemma del_step_refines_witness :
  abs 5 (Config Entry demo_store demo_home []) = Some Idle /\
  ((final Idle = false ->
    exists ph', abs 5 (del_step 5 (h_events demo_home) true (Config Entry demo_store demo_home []))
                = Some ph' /\ spec_step Idle ph') /\
   (final Idle = true ->
    del_step 5 (h_events demo_home) true (Config Entry demo_store demo_home [])
    = Config Entry demo_store demo_home [])).
Proof.
  assert (Ha : abs 5 (Config Entry demo_store demo_home []) = Some Idle) by reflexivity.
  split; [exact Ha|].
  exact (del_step_refines 5 (h_events demo_home) true (Config Entry demo_store demo_home []) Idle Ha).
Defined.

Lemma photos_failure_aborts_witness :
  (false = false \/ snd (delete_photos demo_store 5) <> None) /\
  calls (handleDeleteEvent 5 false true demo_store demo_home) = [CallDeletePhotos 5 false] /\
  store (handleDeleteEvent 5 false true demo_store demo_home) = demo_store /\
  abs 5 (handleDeleteEvent 5 false true demo_store demo_home) = Some Failed /\
  h_events (home (handleDeleteEvent 5 false true demo_store demo_home)) = h_events demo_home /\
  h_error (home (handleDeleteEvent 5 false true demo_store demo_home)) <> None.
Proof.
  assert (Hf : false = false \/ snd (delete_photos demo_store 5) <> None) by (left; reflexivity).
  split; [exact Hf|]. exact (photos_failure_aborts 5 false true demo_store demo_home Hf).
Defined.

Lemma delete_success_witness :
  (delete_photos demo_store 5 = (demo_no_photos, None) /\
   delete_event demo_no_photos 5 = (demo_deleted, None)) /\
  abs 5 (handleDeleteEvent 5 true true demo_store demo_home) = Some Done /\
  calls (handleDeleteEvent 5 true true demo_store demo_home) =
    [CallDeletePhotos 5 true; CallDeleteEvent 5 true] /\
  store (handleDeleteEvent 5 true true demo_store demo_home) = demo_deleted /\
  (forall p, In p (photos_of demo_deleted) -> event_id p <> 5%Z) /\
  (forall e, In e (events_of demo_deleted) -> ev_id e <> 5%Z) /\
  h_events (home (handleDeleteEvent 5 true true demo_store demo_home))
    = filter (fun ev => negb (Z.eqb (ev_id ev) 5)) (h_events demo_home).
Proof.
  assert (H1 : delete_photos demo_store 5 = (demo_no_photos, None)) by (vm_compute; reflexivity).
  assert (H2 : delete_event demo_no_photos 5 = (demo_deleted, None)) by (vm_compute; reflexivity).
  split; [split; [exact H1 | exact H2] |].
  exact (delete_success 5 demo_store demo_no_photos demo_deleted demo_home H1 H2).
Defined.

Lemma delete_parent_failure_witness :
  (delete_photos demo_store 5 = (demo_no_photos, None) /\
   (false = false \/ snd (delete_event demo_no_photos 5) <> None)) /\
  abs 5 (handleDeleteEvent 5 true false demo_store demo_home) = Some Failed /\
  events_of (store (handleDeleteEvent 5 true false demo_store demo_home)) = events_of demo_store /\
  (forall p, In p (photos_of (store (handleDeleteEvent 5 true false demo_store demo_home))) ->
             event_id p <> 5%Z) /\
  h_events (home (handleDeleteEvent 5 true false demo_store demo_home)) = h_events demo_home /\
  h_error (home (handleDeleteEvent 5 true false demo_store demo_home)) <> None.
Proof.
  assert (H1 : delete_photos demo_store 5 = (demo_no_photos, None)) by (vm_compute; reflexivity).
  assert (H2 : false = false \/ snd (delete_event demo_no_photos 5) <> None) by (left; reflexivity).
  split; [split; [exact H1 | exact H2] |].
  exact (delete_parent_failure 5 false demo_store demo_no_photos demo_home H1 H2).
Defined.

(** The configuration awaiting the event, after the photos of event 5
    were deleted. *)
Definition demo_awaiting : config db :=
  del_step 5 (h_events demo_home) true
    (del_step 5 (h_events demo_home) true (Config Entry demo_store demo_home [])).

Lemma demo_awaiting_reach : del_reach 5 (h_events demo_home) demo_store demo_home demo_awaiting.
Proof. unfold demo_awaiting. repeat constructor. Qed.

Lemma event_deleted_after_photos_witness :
  (del_reach 5 (h_events demo_home) demo_store demo_home demo_awaiting /\
   exists ok, calls (del_step 5 (h_events demo_home) true demo_awaiting) =
                calls demo_awaiting ++ [CallDeleteEvent 5 ok]) /\
  (forall p, In p (photos_of (store demo_awaiting)) -> event_id p <> 5%Z).
Proof.
  assert (Hc : exists ok, calls (del_step 5 (h_events demo_home) true demo_awaiting) =
                            calls demo_awaiting ++ [CallDeleteEvent 5 ok])
    by (exists true; vm_compute; reflexivity).
  split; [split; [exact demo_awaiting_reach | exact Hc]|].
  exact (event_deleted_after_photos 5 (h_events demo_home) demo_store demo_home demo_awaiting true
           demo_awaiting_reach Hc).
Defined.

(** The same step with the photos still there, as a handler that
    skipped the photo deletion would send it: event 5 still has photos
    in [demo_store]. *)
Example demo_store_has_photos_of_5 :
  exists p, In p (photos_of demo_store) /\ event_id p = 5%Z.
Proof. exists (PhotoRow 10 5). split; [left; reflexivity | reflexivity]. Qed.

End EventDeleter.
