(* ===== verification/Home.v ===== *)
(** * HomeView: what the home page shows

    After its hooks, [HomePage] (src/app/page.tsx, lines 110-162)
    returns [<Loading />] while [isLoading] holds; otherwise a header
    whose "Create your own event" and "Photo Booth" links appear when
    [isConnected && currentAdminId] is truthy (line 126), and a body that
    is the banner "Oops! There was an error fetching events" when [error]
    is set (lines 146-149), or one [EventCard] per event, in the order of
    [events] (lines 151-160).

    [render] is that choice.  [mount] runs the page's two effects
    ([fetchEvents], [fetchCurrentAdmin]) split at their [await]s, their
    answers arriving in a given order.  The theorems show that once any
    store call of the page has failed (the admin lookup, or a delete) the
    banner about fetching replaces the whole list, and that no later
    delete brings the list back: nothing on the page clears [error];
    and that loading ends with the first answer, before the admin is
    known. *)

From Stdlib Require Import String List Bool ZArith Lia Sorted Permutation.
From S2P Require Import Prelude Store Deleter.
Import ListNotations.
Local Open Scope string_scope.
Local Open Scope list_scope.

Module HomeView.
Import Store EventDeleter.

(** The props of one [EventCard] (lines 153-159); [onDelete] is
    [handleDeleteEvent]. *)
Record card : Type := Card {
  card_event : event_row;
  card_isConnected : bool;
  card_currentAdminId : option Z
}.

Inductive body : Type :=
| ErrorBanner (message : string)
| Cards (cs : list card).

Inductive view : Type :=
| LoadingView
| MainView (adminLinks : bool) (b : body).

Definition fetch_error_message : string :=
  "Oops! There was an error fetching events. Please try again!".

(** The truthiness of [currentAdminId]: [null] and [0] are falsy. *)
Definition admin_truthy (a : option Z) : bool :=
  match a with Some z => negb (Z.eqb z 0) | None => false end.

(** The page's return value, by the hooks' values. *)
Definition render (isConnected : bool) (h : HomeState) : view :=
  if h_isLoading h then LoadingView
  else
    MainView (isConnected && admin_truthy (h_currentAdminId h))
      (match h_error h with
       | Some _ => ErrorBanner fetch_error_message
       | None => Cards (map (fun e => Card e isConnected (h_currentAdminId h)) (h_events h))
       end).


(** ** Mounting: the two effects interleaved *)

(** The initial hooks (lines 28-31). *)
Definition home_initial : HomeState := HS true None [] None.

(** The two [useEffect]s of the page (lines 33-55 and 57-79), each split
    at its [await]. *)
Inductive task : Type := TEvents | TAdmin.

(** On mount both effects start in the order they are written: each
    runs [setIsLoading(true)] and sends its query. *)
Definition mount_start (h : HomeState) : HomeState :=
  setIsLoading true (setIsLoading true h).

(** The rest of an effect, once its answer arrives: [ev] answers the
    events query and [ad] the admins query. *)
Definition finish (ev : pg_error + list event_row) (ad : pg_error + list Z) (h : HomeState)
    (t : task) : HomeState :=
  match t with
  | TEvents => fetchEvents_finish ev h
  | TAdmin => fetchCurrentAdmin_finish ad h
  end.

(** The page once the answers listed in [order] have arrived. *)
Definition mount (order : list task) (ev : pg_error + list event_row) (ad : pg_error + list Z)
    (h : HomeState) : HomeState :=
  fold_left (finish ev ad) order (mount_start h).

(** The events a view lists, in order. *)
Definition shown_events (v : view) : list event_row :=
  match v with
  | MainView _ (Cards cs) => map card_event cs
  | _ => []
  end.

(** ** Lemmas *)

Section RenderFacts.
Context {S : Type} `{RecordStore S}.

(** After the handler, loading is off, the admin id is the page's, and
    the error is set when the handler failed or was set before. *)
Lemma handle_home (id : Z) (r1 r2 : bool) (st : S) (h : HomeState) :
  h_isLoading (home (handleDeleteEvent id r1 r2 st h)) = false /\
  h_currentAdminId (home (handleDeleteEvent id r1 r2 st h)) = h_currentAdminId h /\
  ((abs id (handleDeleteEvent id r1 r2 st h) = Some Failed \/ h_error h <> None) ->
   h_error (home (handleDeleteEvent id r1 r2 st h)) <> None).
Proof.
  rewrite handle_after_photos.
  destruct (attempt r1 _ _ st) as [st1 [err|]].
  - cbn. repeat split. intros _. discriminate.
  - unfold del_step. cbn [pc store home calls].
    destruct (attempt r2 _ _ st1) as [st2 [err|]]; cbn; repeat split.
    + intros _. discriminate.
    + unfold abs. cbn. rewrite Z.eqb_refl. intros [Hf | He]; [discriminate | exact He].
Qed.

Lemma render_error (conn : bool) (h : HomeState) :
  h_isLoading h = false -> h_error h <> None ->
  render conn h = MainView (conn && admin_truthy (h_currentAdminId h))
                    (ErrorBanner fetch_error_message).
Proof.
  intros Hl He. unfold render. rewrite Hl.
  destruct (h_error h); [reflexivity | contradiction].
Qed.
End RenderFacts.

(** ** Properties *)

Section RenderClaims.
Context {S : Type} `{RecordStore S}.

(** C39. A failed delete hides the whole list: when [handleDeleteEvent]
    fails (at the photos or at the event), or any earlier call failed,
    the page afterwards shows, in place of every event, the banner saying
    that fetching the events failed, and keeps the admin links as they
    were. *)
Theorem failed_delete_hides_events (id : Z) (r1 r2 : bool) (st : S) (h : HomeState)
    (conn : bool) :
  abs id (handleDeleteEvent id r1 r2 st h) = Some Failed \/ h_error h <> None ->
  render conn (home (handleDeleteEvent id r1 r2 st h)) =
    MainView (conn && admin_truthy (h_currentAdminId h)) (ErrorBanner fetch_error_message).
Proof.
  intros Hf. destruct (handle_home id r1 r2 st h) as (Hl & Ha & He).
  rewrite render_error by auto. rewrite Ha. reflexivity.
Qed.
End RenderClaims.

(** C21. The admin lookup's failure hides the events: whichever of the
    two queries answers first, when the events arrive and the admin
    lookup fails, the page holds the events but shows the banner saying
    that fetching the events failed, without the admin links. *)
Theorem admin_error_hides_events (order : list task) (rows : list event_row) (err : pg_error)
    (conn : bool) :
  order = [TEvents; TAdmin] \/ order = [TAdmin; TEvents] ->
  h_events (mount order (inr rows) (inl err) home_initial) = rows /\
  render conn (mount order (inr rows) (inl err) home_initial) =
    MainView false (ErrorBanner fetch_error_message).
Proof.
  intros [-> | ->]; cbn; rewrite andb_false_r; split; reflexivity.
Qed.

(** Loading ends with the first answer: when the events arrive before
    the admin lookup answers, the list is shown at once, without the
    admin links, even to an admin. *)
Lemma events_before_admin (rows : list event_row) (ad : pg_error + list Z) (conn : bool) :
  render conn (mount [TEvents] (inr rows) ad home_initial) =
    MainView false (Cards (map (fun e => Card e conn None) rows)).
Proof. cbn. rewrite andb_false_r. reflexivity. Qed.

Section ListingClaims.
Context {S : Type} `{RecordStoreLaws S}.

(** C35. When both mount queries succeed, in either order, the home page
    lists every event of the store exactly once, sorted by [event_date]
    descending as strings, the order its query asks for
    ([events_query], [.order('event_date', { ascending: false })]). *)
Theorem listing_sorted (st : S) (ad : list Z) (order : list task) (conn : bool) :
  order = [TEvents; TAdmin] \/ order = [TAdmin; TEvents] ->
  Permutation (events_of st)
    (shown_events (render conn (mount order (events_answer true st) (inr ad) home_initial))) /\
  Sorted (fun a b => String.leb (event_date b) (event_date a) = true)
    (shown_events (render conn (mount order (events_answer true st) (inr ad) home_initial))).
Proof.
  intros Hord.
  assert (E : shown_events (render conn (mount order (events_answer true st) (inr ad) home_initial))
              = list_events st events_query).
  { destruct Hord as [-> | ->]; destruct ad; cbn; rewrite map_map; apply map_id. }
  rewrite E. destruct (list_events_spec st events_query) as [Hp Hs].
  split; [exact Hp | exact Hs].
Qed.
End ListingClaims.

(** ** Concrete runs *)

Import Store.ListStore.

Lemma failed_delete_hides_events_witness :
  (abs 5 (handleDeleteEvent 5 false true demo_store demo_home) = Some Failed \/
   h_error demo_home <> None) /\
  render true (home (handleDeleteEvent 5 false true demo_store demo_home)) =
    MainView (true && admin_truthy (h_currentAdminId demo_home)) (ErrorBanner fetch_error_message).
Proof.
  assert (Hf : abs 5 (handleDeleteEvent 5 false true demo_store demo_home) = Some Failed \/
               h_error demo_home <> None) by (left; vm_compute; reflexivity).
  split; [exact Hf|]. exact (failed_delete_hides_events 5 false true demo_store demo_home true Hf).
Defined.

Lemma admin_error_hides_events_witness :
  ([TAdmin; TEvents] = [TEvents; TAdmin] \/ [TAdmin; TEvents] = [TAdmin; TEvents]) /\
  (h_events (mount [TAdmin; TEvents] (inr (db_events demo_store)) (inl transient_error) home_initial)
     = db_events demo_store /\
   render true (mount [TAdmin; TEvents] (inr (db_events demo_store)) (inl transient_error) home_initial)
     = MainView false (ErrorBanner fetch_error_message)).
Proof.
  assert (Ho : [TAdmin; TEvents] = [TEvents; TAdmin] \/ [TAdmin; TEvents] = [TAdmin; TEvents])
    by (right; reflexivity).
  split; [exact Ho|].
  exact (admin_error_hides_events _ (db_events demo_store) transient_error true Ho).
Defined.

(** Two events at 7:05 PM, on Saturday 2 and Monday 4 March 2024. *)
Definition listing_store : db :=
  DB [EventRow 1 "quiz" "quiz" None "Mon Mar 4 2024 19:05:00 -05:00";
      EventRow 2 "party" "party" None "Sat Mar 2 2024 19:05:00 -05:00"] [] 3.

Lemma listing_sorted_witness :
  ([TEvents; TAdmin] = [TEvents; TAdmin] \/ [TEvents; TAdmin] = [TAdmin; TEvents]) /\
  (Permutation (events_of listing_store)
     (shown_events (render true (mount [TEvents; TAdmin] (events_answer true listing_store) (inr [1%Z])
                                   home_initial))) /\
   Sorted (fun a b => String.leb (event_date b) (event_date a) = true)
     (shown_events (render true (mount [TEvents; TAdmin] (events_answer true listing_store) (inr [1%Z])
                                   home_initial)))).
Proof.
  assert (Ho : [TEvents; TAdmin] = [TEvents; TAdmin] \/ [TEvents; TAdmin] = [TAdmin; TEvents])
    by (left; reflexivity).
  split; [exact Ho|]. exact (listing_sorted listing_store [1%Z] _ true Ho).
Defined.

(** On that store the earlier event, 2 March, is listed first. *)
Example listing_older_first :
  map ev_id (shown_events (render true (mount [TEvents; TAdmin] (events_answer true listing_store)
                                          (inr [1%Z]) home_initial))) = [2%Z; 1%Z].
Proof. vm_compute. reflexivity. Qed.

End HomeView.
