(* ===== verification/Layout.v ===== *)
(** * RootLayout: the fonts and metadata of the root layout

    src/app/layout.tsx declares three local fonts with [next/font/local]
    (lines 8-43), the page metadata (lines 45-48), and [RootLayout]
    (lines 50-66), which puts the fonts' CSS-variable classes and
    [antialiased] on [<body>] around the providers and the analytics.

    [next/font/local] resolves each [src] path against the directory of
    the file that calls it, here src/app.  [resolve] does that, segment
    by segment.  The lemma [geistSans_path_misresolved] shows that the
    Geist Sans path [..public/fonts/GeistVF.woff] names a directory
    [..public] inside src/app, while the two other fonts resolve under
    src/public/fonts as intended.  The markup itself is not modelled. *)

From Stdlib Require Import Ascii String List Bool.
From S2P Require Import Prelude.
Import ListNotations.
Local Open Scope string_scope.
Local Open Scope list_scope.

Module RootLayout.

(** One entry of a local font's [src] array. *)
Record font_source : Type := FontSrc {
  path : string;
  weight : string;
  style : string
}.

(** The options given to [localFont]. *)
Record local_font : Type := LocalFont {
  src : list font_source;
  variable : string
}.

Definition geistSans : local_font :=
  LocalFont [FontSrc "..public/fonts/GeistVF.woff" "100 900" "normal"] "--font-geist-sans".

Definition geistMono : local_font :=
  LocalFont [FontSrc "../public/fonts/GeistMonoVF.woff" "100 900" "normal"] "--font-geist-mono".

Definition mondwest : local_font :=
  LocalFont [FontSrc "../public/fonts/PPMondwest-Regular.woff" "400" "normal";
             FontSrc "../public/fonts/PPMondwest-Bold.woff" "700" "normal"]
            "--font-mondwest-reg".

Record Metadata : Type := MetadataOf { md_title : string; md_description : string }.

Definition metadata : Metadata := MetadataOf "Walrus Photo Booth" "Walrus Photo Booth".

(** The [className] of [<body>] (line 59), from the class names
    [next/font] generates for the three fonts' [variable]s. *)
Definition body_className (sans mono mond : string) : string :=
  (sans ++ " " ++ mono ++ " " ++ mond ++ " antialiased")%string.

(** ** Resolving a relative path *)

(** The segments of a path, split at ['/']. *)
Fixpoint split_slash (s : string) (cur : string) : list string :=
  match s with
  | EmptyString => [cur]
  | String c r =>
      if Ascii.eqb c "/"%char then cur :: split_slash r EmptyString
      else split_slash r (cur ++ String c EmptyString)%string
  end.

(** Apply the segments to a directory, given as its segments. *)
Fixpoint walk (dir : list string) (segs : list string) : list string :=
  match segs with
  | [] => dir
  | seg :: r =>
      if String.eqb seg "" || String.eqb seg "." then walk dir r
      else if String.eqb seg ".." then walk (removelast dir) r
      else walk (dir ++ [seg]) r
  end.

Definition resolve (dir : list string) (p : string) : list string :=
  walk dir (split_slash p EmptyString).

(** The directory of layout.tsx. *)
Definition layout_dir : list string := ["src"; "app"].

Definition font_files (f : local_font) : list (list string) :=
  map (fun fs => resolve layout_dir (path fs)) (src f).

(** ** The layout's tree *)

(** The elements [RootLayout] returns (lines 50-66). *)
#[warnings="-register-all"] Inductive element : Type :=
| Html (lang : string) (body : element)
| Body (className : string) (kids : list element)
| ProvidersAndLayout (kids : list element)
| Analytics
| Children.

(** [RootLayout({ children })], given the class names [next/font]
    generated for the three fonts. *)
Definition RootLayout (sans mono mond : string) : element :=
  Html "en" (Body (body_className sans mono mond) [ProvidersAndLayout [Children]; Analytics]).

(** How many times a tree places the page's [children]. *)
Fixpoint count_children (e : element) : nat :=
  match e with
  | Html _ b => count_children b
  | Body _ ks | ProvidersAndLayout ks => fold_right (fun k n => count_children k + n) 0 ks
  | Analytics => 0
  | Children => 1
  end.

(** ** Lemmas *)

(** The Geist Sans file is looked up in a directory [..public] of
    src/app; the other fonts' files are in src/public/fonts. *)
Lemma geistSans_path_misresolved :
  font_files geistSans = [["src"; "app"; "..public"; "fonts"; "GeistVF.woff"]] /\
  font_files geistMono = [["src"; "public"; "fonts"; "GeistMonoVF.woff"]] /\
  font_files mondwest = [["src"; "public"; "fonts"; "PPMondwest-Regular.woff"];
                         ["src"; "public"; "fonts"; "PPMondwest-Bold.woff"]].
Proof. vm_compute. repeat split. Qed.

(** Every page is rendered once, inside the providers, and the body
    carries the three font classes and [antialiased]. *)
Lemma RootLayout_children_once (sans mono mond : string) :
  count_children (RootLayout sans mono mond) = 1 /\
  exists cls, RootLayout sans mono mond =
    Html "en" (Body cls [ProvidersAndLayout [Children]; Analytics]) /\
    cls = (sans ++ " " ++ mono ++ " " ++ mond ++ " antialiased")%string.
Proof. split; [reflexivity | eexists; split; reflexivity]. Qed.

End RootLayout.
